(** * Kasparro ETL backend: a shallow embedding of the ingestion pipeline

    The development follows the layout of the Python sources:

    - [services/normalization.py] and [schemas/normalized.py]
      (the three normalizers and the unified record);
    - [ingestion/schema_drift.py] (the drift detector);
    - [ingestion/checkpoint.py] (the checkpoint manager);
    - [ingestion/sources/*.py] (the three source adapters);
    - [ingestion/etl.py] (the orchestrator, [run_etl_for_source]).

    Python dictionaries are finite maps with string keys, exceptions are an
    explicit result type, and the relational store, the clock and the
    failure points of the database driver are explicit state and
    environment. *)

From stdpp Require Import gmap strings list numbers pretty.
From Stdlib Require Import Ascii String ZArith Qcanon Lia.

Set Warnings "-register-all".
Local Open Scope string_scope.
Local Open Scope Z_scope.

(* ===================================================================== *)
(** * Python values *)
(* ===================================================================== *)

(** A Python [float] is represented by the decimal number its [repr]
    denotes (sign, coefficient, exponent), so that [Decimal(str(x))] is
    exact; [inf] and [nan] are separate constructors. *)
Inductive pyfloat :=
| FFin (neg : bool) (coeff : N) (exp : Z)
| FInf (neg : bool)
| FNaN.

Inductive pyval :=
| VNone
| VBool (b : bool)
| VInt (z : Z)
| VFloat (f : pyfloat)
| VStr (s : string)
| VList (l : list pyval)
| VDict (d : gmap string pyval).

Abbreviation pydict := (gmap string pyval).

(** [bool(v)]: Python truthiness. *)
Definition truthy (v : pyval) : bool :=
  match v with
  | VNone => false
  | VBool b => b
  | VInt z => negb (z =? 0)
  | VFloat (FFin _ c _) => negb (c =? 0)%N
  | VFloat _ => true
  | VStr s => negb (String.eqb s "")
  | VList l => match l with [] => false | _ => true end
  | VDict d => negb (bool_decide (d = ∅))
  end.

(** [v is None]. *)
Definition is_none (v : pyval) : bool :=
  match v with VNone => true | _ => false end.

(** [d.get(k)] and [d.get(k, dflt)]. *)
Definition dict_get (d : pydict) (k : string) : pyval := default VNone (d !! k).
Definition dict_get_default (d : pydict) (k : string) (dflt : pyval) : pyval :=
  default dflt (d !! k).

(** [k in d]. *)
Definition has_key (d : pydict) (k : string) : bool := bool_decide (is_Some (d !! k)).

(** The runtime type of a value, [type(v)]. *)
Inductive pytype := TNoneType | TBool | TInt | TFloat | TStr | TList | TDict.

Global Instance pytype_eq_dec : EqDecision pytype.
Proof. solve_decision. Defined.

Definition type_of (v : pyval) : pytype :=
  match v with
  | VNone => TNoneType | VBool _ => TBool | VInt _ => TInt | VFloat _ => TFloat
  | VStr _ => TStr | VList _ => TList | VDict _ => TDict
  end.

(** [t.__name__]. *)
Definition type_name (t : pytype) : string :=
  match t with
  | TNoneType => "NoneType" | TBool => "bool" | TInt => "int" | TFloat => "float"
  | TStr => "str" | TList => "list" | TDict => "dict"
  end.

(* ===================================================================== *)
(** * Exceptions and results *)
(* ===================================================================== *)

Inductive exn :=
| AttributeError (msg : string)
| KeyError (key : string)
| InvalidOperation
| ValidationError (fields : list string)
| DatabaseError (msg : string)
| HTTPError (msg : string)
| IOError (msg : string).

(** [str(e)], the text stored in [error_message] and [failure_reason]. *)
Definition exn_str (e : exn) : string :=
  match e with
  | AttributeError msg => msg
  | KeyError key => "'" +:+ key +:+ "'"
  | InvalidOperation => "[<class 'decimal.ConversionSyntax'>]"
  | ValidationError fields => "validation error: " +:+ String.concat ", " fields
  | DatabaseError msg => msg
  | HTTPError msg => msg
  | IOError msg => msg
  end.

Definition is_http_error (e : exn) : bool :=
  match e with HTTPError _ => true | _ => false end.

Inductive res (A : Type) :=
| Ok (a : A)
| Raise (e : exn).
Arguments Ok {A} a.
Arguments Raise {A} e.

Global Instance res_ret : MRet res := fun _ a => Ok a.
Global Instance res_bind : MBind res := fun _ _ f m =>
  match m with Ok a => f a | Raise e => Raise e end.

(* ===================================================================== *)
(** * Library model: [decimal.Decimal], [str.upper], [datetime] *)
(* ===================================================================== *)

Inductive Decimal :=
| DFin (neg : bool) (coeff : N) (exp : Z)
| DInf (neg : bool)
| DNaN.

Definition is_finite (d : Decimal) : bool :=
  match d with DFin _ _ _ => true | _ => false end.

Definition ascii_code (c : ascii) : nat := nat_of_ascii c.

Definition is_digit (c : ascii) : bool :=
  ((48 <=? ascii_code c) && (ascii_code c <=? 57))%nat.

Definition digit_val (c : ascii) : N := N.of_nat (ascii_code c - 48).

Definition digits_to_N (l : list ascii) : N :=
  fold_left (fun acc c => (10 * acc + digit_val c)%N) l 0%N.

Fixpoint span_digits (l : list ascii) : list ascii * list ascii :=
  match l with
  | c :: r => if is_digit c
              then let '(ds, rest) := span_digits r in (c :: ds, rest)
              else ([], l)
  | [] => ([], [])
  end.

Definition is_space (c : ascii) : bool :=
  let n := ascii_code c in ((n =? 32) || ((9 <=? n) && (n <=? 13)))%nat.

Fixpoint drop_spaces (l : list ascii) : list ascii :=
  match l with
  | c :: r => if is_space c then drop_spaces r else l
  | [] => []
  end.

Definition strip (l : list ascii) : list ascii :=
  rev (drop_spaces (rev (drop_spaces l))).

Definition lower_ascii (c : ascii) : ascii :=
  let n := ascii_code c in
  if ((65 <=? n) && (n <=? 90))%nat then ascii_of_nat (n + 32) else c.

Definition upper_ascii (c : ascii) : ascii :=
  let n := ascii_code c in
  if ((97 <=? n) && (n <=? 122))%nat then ascii_of_nat (n - 32) else c.

(** [s.upper()] on the ASCII range. *)
Definition str_upper (s : string) : string :=
  string_of_list_ascii (map upper_ascii (list_ascii_of_string s)).

Definition parse_sign (l : list ascii) : bool * list ascii :=
  match l with
  | "-"%char :: r => (true, r)
  | "+"%char :: r => (false, r)
  | _ => (false, l)
  end.

Definition ascii_list_eqb (a b : list ascii) : bool :=
  String.eqb (string_of_list_ascii a) (string_of_list_ascii b).

(** [Decimal(s)] for a string: surrounding whitespace is stripped,
    underscores are removed, and the remainder must match
    [sign? (digits [. digits?] | . digits) (E sign? digits)?], [Inf],
    [Infinity], [NaN digits?] or [sNaN digits?], letters in any case.
    [None] stands for [decimal.InvalidOperation]. *)
Definition parse_decimal (s : string) : option Decimal :=
  let l := filter (fun c => c ≠ "_"%char) (strip (list_ascii_of_string s)) in
  let '(neg, body) := parse_sign l in
  let body := map lower_ascii body in
  if ascii_list_eqb body (list_ascii_of_string "inf")
     || ascii_list_eqb body (list_ascii_of_string "infinity")
  then Some (DInf neg)
  else
    let nan_payload :=
      match body with
      | "n"%char :: "a"%char :: "n"%char :: r => Some r
      | "s"%char :: "n"%char :: "a"%char :: "n"%char :: r => Some r
      | _ => None
      end in
    match nan_payload with
    | Some r => if forallb is_digit r then Some DNaN else None
    | None =>
        let '(ipart, r1) := span_digits body in
        let '(fpart, r2) :=
          match r1 with
          | "."%char :: r => span_digits r
          | _ => ([], r1)
          end in
        match (ipart ++ fpart)%list with
        | [] => None
        | ds =>
            let c := digits_to_N ds in
            let fl := Z.of_nat (List.length fpart) in
            match r2 with
            | [] => Some (DFin neg c (- fl))
            | "e"%char :: r3 =>
                let '(eneg, r4) := parse_sign r3 in
                let '(eds, r5) := span_digits r4 in
                match eds, r5 with
                | _ :: _, [] =>
                    let e := Z.of_N (digits_to_N eds) in
                    Some (DFin neg c ((if eneg then - e else e) - fl))
                | _, _ => None
                end
            | _ => None
            end
        end
    end.

(** [Decimal(str(v))]. [str] of a bool, of [None], of a list or of a dict
    is never a decimal literal. *)
Definition Decimal_of_str (v : pyval) : res Decimal :=
  match v with
  | VInt z => Ok (DFin (z <? 0) (Z.to_N (Z.abs z)) 0)
  | VFloat (FFin neg c e) => Ok (DFin neg c e)
  | VFloat (FInf neg) => Ok (DInf neg)
  | VFloat FNaN => Ok DNaN
  | VStr s => match parse_decimal s with Some d => Ok d | None => Raise InvalidOperation end
  | VNone | VBool _ | VList _ | VDict _ => Raise InvalidOperation
  end.

(** A naive [datetime.datetime]. *)
Record datetime := {
  year : nat; month : nat; day : nat;
  hour : nat; minute : nat; second : nat; microsecond : nat
}.

Global Instance datetime_eq_dec : EqDecision datetime.
Proof. solve_decision. Defined.

Definition zero_pad (width : nat) (n : nat) : string :=
  let s := pretty n in
  string_of_list_ascii (replicate (width - String.length s) "0"%char) +:+ s.

(** [dt.isoformat()]: [YYYY-MM-DDTHH:MM:SS], followed by [.ffffff] when the
    microsecond field is not zero. *)
Definition isoformat (dt : datetime) : string :=
  zero_pad 4 (year dt) +:+ "-" +:+ zero_pad 2 (month dt) +:+ "-" +:+ zero_pad 2 (day dt)
  +:+ "T" +:+ zero_pad 2 (hour dt) +:+ ":" +:+ zero_pad 2 (minute dt) +:+ ":"
  +:+ zero_pad 2 (second dt)
  +:+ (if (microsecond dt =? 0)%nat then "" else "." +:+ zero_pad 6 (microsecond dt)).

(** [date.toordinal()]: days since 0001-01-01 (which has ordinal 1) in the
    proleptic Gregorian calendar. *)
Definition is_leap (y : Z) : bool :=
  (y mod 4 =? 0) && (negb (y mod 100 =? 0) || (y mod 400 =? 0)).

Definition days_before_year (y : Z) : Z :=
  let p := y - 1 in p * 365 + p / 4 - p / 100 + p / 400.

Definition days_before_month (y : Z) (m : nat) : Z :=
  let cum := nth (m - 1) [0; 31; 59; 90; 120; 151; 181; 212; 243; 273; 304; 334] 0 in
  cum + (if (2 <? m)%nat && is_leap y then 1 else 0).

Definition toordinal (dt : datetime) : Z :=
  let y := Z.of_nat (year dt) in
  days_before_year y + days_before_month y (month dt) + Z.of_nat (day dt).

Definition to_microseconds (dt : datetime) : Z :=
  (((toordinal dt * 24 + Z.of_nat (hour dt)) * 60 + Z.of_nat (minute dt)) * 60
   + Z.of_nat (second dt)) * 1000000 + Z.of_nat (microsecond dt).

(** [int((b - a).total_seconds())]: [int] truncates towards zero. *)
Definition duration_seconds_between (a b : datetime) : Z :=
  Z.quot (to_microseconds b - to_microseconds a) 1000000.

(* ===================================================================== *)
(** * Schemas: [schemas/normalized.py] and [schemas/raw.py] *)
(* ===================================================================== *)

(** Field validators of the schema library (lax mode). [None] is a
    validation error for the field. *)

(** A [str] field accepts a [str] only. *)
Definition validate_str (v : pyval) : option string :=
  match v with VStr s => Some s | _ => None end.

Definition validate_opt_str (v : pyval) : option (option string) :=
  match v with VNone => Some None | VStr s => Some (Some s) | _ => None end.

Definition parse_int (s : string) : option Z :=
  let '(neg, ds) := parse_sign (strip (list_ascii_of_string s)) in
  match ds with
  | [] => None
  | _ => if forallb is_digit ds
         then Some (let n := Z.of_N (digits_to_N ds) in if neg then - n else n)
         else None
  end.

(** An [Optional[int]] field accepts [None], an [int], a [bool], a [float]
    with an integral value and a [str] of digits. *)
Definition validate_opt_int (v : pyval) : option (option Z) :=
  match v with
  | VNone => Some None
  | VInt z => Some (Some z)
  | VBool b => Some (Some (if b then 1 else 0))
  | VFloat (FFin neg c e) =>
      let sgn (n : Z) := if neg then - n else n in
      if 0 <=? e then Some (Some (sgn (Z.of_N c * 10 ^ e)))
      else if Z.of_N c mod 10 ^ (- e) =? 0 then Some (Some (sgn (Z.of_N c / 10 ^ (- e))))
      else None
  | VFloat _ => None
  | VStr s => Some <$> parse_int s
  | VList _ | VDict _ => None
  end.

(** A [Decimal] field accepts finite values only. *)
Definition validate_decimal_value (d : Decimal) : option Decimal :=
  if is_finite d then Some d else None.

(** An [Optional[Decimal]] field given a raw value: [None], an [int]
    (not a [bool]), a [float] or a [str] holding a decimal literal. *)
Definition validate_opt_decimal (v : pyval) : option (option Decimal) :=
  match v with
  | VNone => Some None
  | VInt _ | VFloat _ | VStr _ =>
      match Decimal_of_str v with
      | Ok d => Some <$> validate_decimal_value d
      | Raise _ => None
      end
  | VBool _ | VList _ | VDict _ => None
  end.

(** An [Optional[Decimal]] field given [None] or a [Decimal] instance. *)
Definition validate_opt_decimal_instance (d : option Decimal) : bool :=
  match d with None => true | Some d => is_finite d end.

(** [NormalizedCryptoData]: the unified schema. *)
Record NormalizedCryptoData := {
  source : string;
  source_id : string;
  symbol : string;
  name : string;
  price_usd : option Decimal;
  market_cap_usd : option Decimal;
  volume_24h_usd : option Decimal;
  rank : option Z;
  circulating_supply : option Decimal;
  total_supply : option Decimal;
  max_supply : option Decimal;
  percent_change_24h : option Decimal;
  additional_data : pydict;
  data_timestamp : datetime
}.

(** The fields of a list that fail, in declaration order. *)
Definition failed_fields (checks : list (string * bool)) : list string :=
  fst <$> filter (fun c => negb (snd c)) checks.

(** [NormalizedCryptoData(source=..., ...)]: every keyword is validated
    against its field; one [ValidationError] lists all the fields that fail. *)
Definition NormalizedCryptoData_init
    (a_source : string) (a_source_id : pyval) (a_symbol : string) (a_name : pyval)
    (a_price_usd a_market_cap_usd a_volume_24h_usd : option Decimal)
    (a_rank : pyval)
    (a_circulating_supply a_total_supply a_max_supply a_percent_change_24h : option Decimal)
    (a_additional_data : pydict) (a_data_timestamp : datetime)
  : res NormalizedCryptoData :=
  match validate_str a_source_id, validate_str a_name, validate_opt_int a_rank,
        forallb validate_opt_decimal_instance
          [a_price_usd; a_market_cap_usd; a_volume_24h_usd; a_circulating_supply;
           a_total_supply; a_max_supply; a_percent_change_24h] with
  | Some sid, Some nm, Some rk, true =>
      Ok {| source := a_source; source_id := sid; symbol := a_symbol; name := nm;
            price_usd := a_price_usd; market_cap_usd := a_market_cap_usd;
            volume_24h_usd := a_volume_24h_usd; rank := rk;
            circulating_supply := a_circulating_supply; total_supply := a_total_supply;
            max_supply := a_max_supply; percent_change_24h := a_percent_change_24h;
            additional_data := a_additional_data; data_timestamp := a_data_timestamp |}
  | _, _, _, _ =>
      Raise (ValidationError (failed_fields
        [("source_id", bool_decide (is_Some (validate_str a_source_id)));
         ("name", bool_decide (is_Some (validate_str a_name)));
         ("price_usd", validate_opt_decimal_instance a_price_usd);
         ("market_cap_usd", validate_opt_decimal_instance a_market_cap_usd);
         ("volume_24h_usd", validate_opt_decimal_instance a_volume_24h_usd);
         ("rank", bool_decide (is_Some (validate_opt_int a_rank)));
         ("circulating_supply", validate_opt_decimal_instance a_circulating_supply);
         ("total_supply", validate_opt_decimal_instance a_total_supply);
         ("max_supply", validate_opt_decimal_instance a_max_supply);
         ("percent_change_24h", validate_opt_decimal_instance a_percent_change_24h)]))
  end.

(** A value bound to a SQL parameter or stored in a column. *)
Inductive dbval :=
| DbNull
| DbStr (s : string)
| DbInt (z : Z)
| DbDecimal (d : Decimal)
| DbJson (d : pydict)
| DbTime (t : datetime).

Definition db_opt {A} (f : A -> dbval) (o : option A) : dbval :=
  match o with Some a => f a | None => DbNull end.

(** [normalized.model_dump()]: a dict with exactly the declared fields. *)
Definition model_dump (n : NormalizedCryptoData) : gmap string dbval :=
  list_to_map
    [("source", DbStr (source n)); ("source_id", DbStr (source_id n));
     ("symbol", DbStr (symbol n)); ("name", DbStr (name n));
     ("price_usd", db_opt DbDecimal (price_usd n));
     ("market_cap_usd", db_opt DbDecimal (market_cap_usd n));
     ("volume_24h_usd", db_opt DbDecimal (volume_24h_usd n));
     ("rank", db_opt DbInt (rank n));
     ("circulating_supply", db_opt DbDecimal (circulating_supply n));
     ("total_supply", db_opt DbDecimal (total_supply n));
     ("max_supply", db_opt DbDecimal (max_supply n));
     ("percent_change_24h", db_opt DbDecimal (percent_change_24h n));
     ("additional_data", DbJson (additional_data n));
     ("data_timestamp", DbTime (data_timestamp n))].

(** [RawCSVData] accepts the record. *)
Definition RawCSVData_valid (data : pydict) : bool :=
  bool_decide (is_Some (data !! "symbol" ≫= validate_str))
  && bool_decide (is_Some (data !! "name" ≫= validate_str))
  && forallb (fun k => bool_decide (is_Some (validate_opt_decimal (dict_get data k))))
       ["price_usd"; "market_cap_usd"; "volume_24h_usd"; "percent_change_24h"].

(** A field declared with an alias and [populate_by_name]: the alias is
    read first, then the field name. *)
Definition aliased (data : pydict) (alias field : string) : option pyval :=
  match data !! alias with Some v => Some v | None => data !! field end.

(** [RawCoinPaprikaData] accepts the record. *)
Definition RawCoinPaprikaData_valid (data : pydict) : bool :=
  bool_decide (is_Some (aliased data "id" "coin_id" ≫= validate_str))
  && bool_decide (is_Some (validate_opt_str (dict_get data "symbol")))
  && bool_decide (is_Some (validate_opt_str (dict_get data "name")))
  && bool_decide (is_Some (validate_opt_int (dict_get data "rank")))
  && forallb (fun '(alias, field) =>
       bool_decide (is_Some (validate_opt_decimal (default VNone (aliased data alias field)))))
       [("price", "price_usd"); ("volume_24h", "volume_24h_usd"); ("market_cap", "market_cap_usd")]
  && forallb (fun k => bool_decide (is_Some (validate_opt_decimal (dict_get data k))))
       ["circulating_supply"; "total_supply"; "max_supply";
        "percent_change_1h"; "percent_change_24h"; "percent_change_7d"].

(** [RawCoinGeckoData] accepts the record. *)
Definition RawCoinGeckoData_valid (data : pydict) : bool :=
  bool_decide (is_Some (aliased data "id" "coin_id" ≫= validate_str))
  && bool_decide (is_Some (validate_opt_str (dict_get data "symbol")))
  && bool_decide (is_Some (validate_opt_str (dict_get data "name")))
  && bool_decide (is_Some (validate_opt_int (dict_get data "market_cap_rank")))
  && forallb (fun k => bool_decide (is_Some (validate_opt_decimal (dict_get data k))))
       ["current_price"; "market_cap"; "total_volume"; "high_24h"; "low_24h";
        "price_change_24h"; "price_change_percentage_24h"; "circulating_supply";
        "total_supply"; "max_supply"; "ath"; "atl"].

(* ===================================================================== *)
(** * [services/normalization.py] *)
(* ===================================================================== *)

(** [v.get(...)] is an attribute of dicts only. *)
Definition as_dict (v : pyval) : res pydict :=
  match v with
  | VDict d => Ok d
  | _ => Raise (AttributeError ("'" +:+ type_name (type_of v) +:+ "' object has no attribute 'get'"))
  end.

(** [v.upper()] is an attribute of strings only. *)
Definition upper_of (v : pyval) : res string :=
  match v with
  | VStr s => Ok (str_upper s)
  | _ => Raise (AttributeError ("'" +:+ type_name (type_of v) +:+ "' object has no attribute 'upper'"))
  end.

(** [Decimal(str(v)) if v else None]. *)
Definition decimal_if_truthy (v : pyval) : res (option Decimal) :=
  if truthy v then d ← Decimal_of_str v; Ok (Some d) else Ok None.

(** [raw_data.get("quotes", {}).get("USD", {})]. *)
Definition usd_quote_of (raw_data : pydict) : res pydict :=
  quotes ← as_dict (dict_get_default raw_data "quotes" (VDict ∅));
  as_dict (dict_get_default quotes "USD" (VDict ∅)).

(** [raw_data.get("coin_id") or raw_data.get("id", "")]. *)
Definition coin_id_or_id (raw_data : pydict) : pyval :=
  let a := dict_get raw_data "coin_id" in
  if truthy a then a else dict_get_default raw_data "id" (VStr "").

Definition normalize_coinpaprika (raw_data : pydict) (data_timestamp : datetime)
  : res NormalizedCryptoData :=
  let price_usd := dict_get raw_data "price_usd" in
  price_usd ← (if is_none price_usd && has_key raw_data "quotes"
               then usd_quote ← usd_quote_of raw_data;
                    Ok (dict_get usd_quote "price")
               else Ok price_usd);
  let volume_24h := dict_get raw_data "volume_24h_usd" in
  let market_cap := dict_get raw_data "market_cap_usd" in
  '(volume_24h, market_cap) ←
     (if is_none volume_24h && has_key raw_data "quotes"
      then usd_quote ← usd_quote_of raw_data;
           Ok (dict_get usd_quote "volume_24h", dict_get usd_quote "market_cap")
      else Ok (volume_24h, market_cap));
  let a_source_id := coin_id_or_id raw_data in
  a_symbol ← upper_of (dict_get_default raw_data "symbol" (VStr ""));
  let a_name := dict_get_default raw_data "name" (VStr "") in
  a_price_usd ← decimal_if_truthy price_usd;
  a_market_cap_usd ← decimal_if_truthy market_cap;
  a_volume_24h_usd ← decimal_if_truthy volume_24h;
  let a_rank := dict_get raw_data "rank" in
  a_circulating_supply ← decimal_if_truthy (dict_get raw_data "circulating_supply");
  a_total_supply ← decimal_if_truthy (dict_get raw_data "total_supply");
  a_max_supply ← decimal_if_truthy (dict_get raw_data "max_supply");
  a_percent_change_24h ← decimal_if_truthy (dict_get raw_data "percent_change_24h");
  NormalizedCryptoData_init "coinpaprika" a_source_id a_symbol a_name
    a_price_usd a_market_cap_usd a_volume_24h_usd a_rank
    a_circulating_supply a_total_supply a_max_supply a_percent_change_24h
    (list_to_map [("percent_change_1h", dict_get raw_data "percent_change_1h");
                  ("percent_change_7d", dict_get raw_data "percent_change_7d")])
    data_timestamp.

Definition normalize_coingecko (raw_data : pydict) (data_timestamp : datetime)
  : res NormalizedCryptoData :=
  let a_source_id := coin_id_or_id raw_data in
  a_symbol ← upper_of (dict_get_default raw_data "symbol" (VStr ""));
  let a_name := dict_get_default raw_data "name" (VStr "") in
  a_price_usd ← decimal_if_truthy (dict_get raw_data "current_price");
  a_market_cap_usd ← decimal_if_truthy (dict_get raw_data "market_cap");
  a_volume_24h_usd ← decimal_if_truthy (dict_get raw_data "total_volume");
  let a_rank := dict_get raw_data "market_cap_rank" in
  a_circulating_supply ← decimal_if_truthy (dict_get raw_data "circulating_supply");
  a_total_supply ← decimal_if_truthy (dict_get raw_data "total_supply");
  a_max_supply ← decimal_if_truthy (dict_get raw_data "max_supply");
  a_percent_change_24h ← decimal_if_truthy (dict_get raw_data "price_change_percentage_24h");
  NormalizedCryptoData_init "coingecko" a_source_id a_symbol a_name
    a_price_usd a_market_cap_usd a_volume_24h_usd a_rank
    a_circulating_supply a_total_supply a_max_supply a_percent_change_24h
    (list_to_map [("high_24h", dict_get raw_data "high_24h");
                  ("low_24h", dict_get raw_data "low_24h");
                  ("price_change_24h", dict_get raw_data "price_change_24h");
                  ("ath", dict_get raw_data "ath");
                  ("atl", dict_get raw_data "atl")])
    data_timestamp.

Definition normalize_csv (raw_data : pydict) (data_timestamp : datetime)
  : res NormalizedCryptoData :=
  symbol ← upper_of (dict_get_default raw_data "symbol" (VStr ""));
  let source_id := "csv_" +:+ symbol in
  let a_name := dict_get_default raw_data "name" (VStr "") in
  a_price_usd ← decimal_if_truthy (dict_get raw_data "price_usd");
  a_market_cap_usd ← decimal_if_truthy (dict_get raw_data "market_cap_usd");
  a_volume_24h_usd ← decimal_if_truthy (dict_get raw_data "volume_24h_usd");
  a_percent_change_24h ← decimal_if_truthy (dict_get raw_data "percent_change_24h");
  NormalizedCryptoData_init "csv" (VStr source_id) symbol a_name
    a_price_usd a_market_cap_usd a_volume_24h_usd VNone
    None None None a_percent_change_24h
    ∅ data_timestamp.

(* ===================================================================== *)
(** * [ingestion/schema_drift.py] *)
(* ===================================================================== *)

(** An entry of an expected schema: a class, or a tuple of classes as in
    [(float, type(None))]. *)
Inductive expected_type :=
| Single (t : pytype)
| Tuple (ts : list pytype).

(** A schema is a dict literal; iteration follows insertion order. *)
Definition schema := list (string * expected_type).

Definition COINPAPRIKA_SCHEMA : schema :=
  [("coin_id", Single TStr); ("symbol", Single TStr); ("name", Single TStr);
   ("rank", Single TInt);
   ("price_usd", Tuple [TFloat; TNoneType]);
   ("volume_24h_usd", Tuple [TFloat; TNoneType]);
   ("market_cap_usd", Tuple [TFloat; TNoneType])].

Definition COINGECKO_SCHEMA : schema :=
  [("coin_id", Single TStr); ("symbol", Single TStr); ("name", Single TStr);
   ("current_price", Tuple [TFloat; TNoneType]);
   ("market_cap", Tuple [TFloat; TNoneType]);
   ("total_volume", Tuple [TFloat; TNoneType])].

Definition CSV_SCHEMA : schema :=
  [("symbol", Single TStr); ("name", Single TStr);
   ("price_usd", Tuple [TFloat; TNoneType]);
   ("market_cap_usd", Tuple [TFloat; TNoneType]);
   ("volume_24h_usd", Tuple [TFloat; TNoneType])].

(** Warnings. The two field lists are joined from Python sets, whose order
    is not fixed, so they are kept as sets. *)
Inductive warning :=
| MissingFields (fs : gset string)
| UnexpectedFields (fs : gset string)
| TypeMismatch (field expected_name actual_name : string).

(** [actual_type != expected_type]: a class is never equal to a tuple. *)
Definition type_differs (actual : pytype) (expected : expected_type) : bool :=
  match expected with
  | Single t => negb (bool_decide (actual = t))
  | Tuple _ => true
  end.

(** [expected_type.__name__]: tuples have no such attribute. *)
Definition expected_name (expected : expected_type) : res string :=
  match expected with
  | Single t => Ok (type_name t)
  | Tuple _ => Raise (AttributeError "'tuple' object has no attribute '__name__'")
  end.

(** The loop over [self.expected_schema.items()] that collects
    [type_mismatches]. *)
Fixpoint check_types (items : schema) (data : pydict) (type_mismatches : list warning)
  : res (list warning) :=
  match items with
  | [] => Ok type_mismatches
  | (field, expected) :: rest =>
      match data !! field with
      | Some v =>
          if negb (is_none v) && type_differs (type_of v) expected
          then nm ← expected_name expected;
               check_types rest data
                 (type_mismatches ++ [TypeMismatch field nm (type_name (type_of v))])%list
          else check_types rest data type_mismatches
      | None => check_types rest data type_mismatches
      end
  end.

Definition Qc_of_nat (n : nat) : Qc := Qc_of_Z (Z.of_nat n).

(** [_calculate_confidence], over the rationals. *)
Definition _calculate_confidence (expected_fields actual_fields : gset string)
    (type_mismatches : list warning) : Qc :=
  if bool_decide (expected_fields = ∅) then 1%Qc
  else
    let matching_fields := expected_fields ∩ actual_fields in
    let field_match_ratio := (Qc_of_nat (size matching_fields) / Qc_of_nat (size expected_fields))%Qc in
    let type_penalty := (Qc_of_nat (List.length type_mismatches) * (1 / Qc_of_Z 10))%Qc in
    let c := (field_match_ratio - type_penalty)%Qc in
    if bool_decide (0 ≤ c)%Qc then c else 0%Qc.

(** [detect_drift]: [(has_drift, confidence, warnings)]. *)
Definition detect_drift (expected_schema : option schema) (data : pydict)
  : res (bool * Qc * list warning) :=
  match expected_schema with
  | None | Some [] => Ok (false, 1%Qc, [])
  | Some sch =>
      let expected_fields : gset string := list_to_set (fst <$> sch) in
      let actual_fields : gset string := dom data in
      let missing_fields := expected_fields ∖ actual_fields in
      let extra_fields := actual_fields ∖ expected_fields in
      let w1 := if bool_decide (missing_fields = ∅) then [] else [MissingFields missing_fields] in
      let w2 := if bool_decide (extra_fields = ∅) then [] else [UnexpectedFields extra_fields] in
      type_mismatches ← check_types sch data [];
      let warnings := (w1 ++ w2 ++ type_mismatches)%list in
      let has_drift := match warnings with [] => false | _ => true end in
      Ok (has_drift, _calculate_confidence expected_fields actual_fields type_mismatches,
          warnings)
  end.

(* ===================================================================== *)
(** * The relational store *)
(* ===================================================================== *)

(** A row of [etl_checkpoints] (keyed by [source_name]). *)
Record checkpoint_row := {
  checkpoint_value : option string;
  last_success_at : option datetime;
  last_failure_at : option datetime;
  failure_reason : option string;
  metadata : option pydict;
  updated_at : option datetime
}.

(** A row of [etl_runs]. *)
Record run_row := {
  run_run_id : string;
  run_source_name : string;
  run_status : string;
  run_started_at : datetime;
  run_completed_at : option datetime;
  run_duration_seconds : option Z;
  run_records_fetched : option nat;
  run_records_processed : option nat;
  run_records_failed : option nat;
  run_error_message : option string
}.

(** A row of [normalized_crypto_data]. *)
Record normalized_row := {
  col_source : dbval;
  col_source_id : dbval;
  col_master_coin_id : dbval;
  col_symbol : dbval;
  col_name : dbval;
  col_price_usd : dbval;
  col_market_cap_usd : dbval;
  col_volume_24h_usd : dbval;
  col_rank : dbval;
  col_circulating_supply : dbval;
  col_total_supply : dbval;
  col_max_supply : dbval;
  col_percent_change_24h : dbval;
  col_additional_data : dbval;
  col_data_timestamp : dbval
}.

(** Rows of the raw archives: the key columns, and the record itself
    ([raw_data]); every other column is [item.get(column)]. *)
Record raw_csv_row := {
  csv_source_file : string;
  csv_row_number : Z;
  csv_data_timestamp : datetime;
  csv_raw_data : pydict
}.

Record raw_api_row := {
  api_coin_id : pyval;
  api_data_timestamp : datetime;
  api_raw_data : pydict
}.

Record master_coin_row := {
  mc_id : Z;
  mc_name : string;
  mc_canonical_id : string
}.

Record database := {
  etl_checkpoints : gmap string checkpoint_row;
  etl_runs : list run_row;
  normalized_crypto_data : list normalized_row;
  raw_csv : list raw_csv_row;
  raw_coinpaprika : list raw_api_row;
  raw_coingecko : list raw_api_row;
  master_coins : gmap string master_coin_row;
  coin_source_mappings : gmap (string * string) Z
}.

(** Equality as a unique constraint sees it: [NULL] equals nothing. *)
Definition sql_eqb (a b : dbval) : bool :=
  match a, b with
  | DbStr x, DbStr y => String.eqb x y
  | DbInt x, DbInt y => x =? y
  | DbTime x, DbTime y => bool_decide (x = y)
  | _, _ => false
  end.

Definition same_natural_key (a b : normalized_row) : bool :=
  sql_eqb (col_source a) (col_source b)
  && sql_eqb (col_source_id a) (col_source_id b)
  && sql_eqb (col_data_timestamp a) (col_data_timestamp b).

(** [ON CONFLICT (source, source_id, data_timestamp) DO UPDATE SET
    master_coin_id, price_usd, market_cap_usd, volume_24h_usd]. *)
Definition on_conflict_update (old new : normalized_row) : normalized_row :=
  {| col_source := col_source old; col_source_id := col_source_id old;
     col_master_coin_id := col_master_coin_id new;
     col_symbol := col_symbol old; col_name := col_name old;
     col_price_usd := col_price_usd new;
     col_market_cap_usd := col_market_cap_usd new;
     col_volume_24h_usd := col_volume_24h_usd new;
     col_rank := col_rank old;
     col_circulating_supply := col_circulating_supply old;
     col_total_supply := col_total_supply old;
     col_max_supply := col_max_supply old;
     col_percent_change_24h := col_percent_change_24h old;
     col_additional_data := col_additional_data old;
     col_data_timestamp := col_data_timestamp old |}.

Definition upsert_normalized (new : normalized_row) (tbl : list normalized_row)
  : list normalized_row :=
  if existsb (same_natural_key new) tbl
  then (fun old => if same_natural_key new old then on_conflict_update old new else old) <$> tbl
  else (tbl ++ [new])%list.

(** [INSERT INTO raw_csv ... ON CONFLICT (source_file, row_number) DO NOTHING]. *)
Definition insert_raw_csv (new : raw_csv_row) (tbl : list raw_csv_row) : list raw_csv_row :=
  if existsb (fun old => String.eqb (csv_source_file old) (csv_source_file new)
                         && (csv_row_number old =? csv_row_number new)) tbl
  then tbl else (tbl ++ [new])%list.

Definition coin_id_conflicts (a b : pyval) : bool :=
  match a, b with
  | VStr x, VStr y => String.eqb x y
  | _, _ => false
  end.

(** [INSERT INTO raw_coinpaprika / raw_coingecko ...
    ON CONFLICT (coin_id, data_timestamp) DO NOTHING]. *)
Definition insert_raw_api (new : raw_api_row) (tbl : list raw_api_row) : list raw_api_row :=
  if existsb (fun old => coin_id_conflicts (api_coin_id old) (api_coin_id new)
                         && bool_decide (api_data_timestamp old = api_data_timestamp new)) tbl
  then tbl else (tbl ++ [new])%list.

(* ===================================================================== *)
(** * Environment, state and the effect monad *)
(* ===================================================================== *)

(** The three registered adapters ([ETLOrchestrator.__init__]). *)
Inductive source_kind := CoinPaprika | CoinGecko | CSV.

Definition source_name (s : source_kind) : string :=
  match s with
  | CoinPaprika => "coinpaprika"
  | CoinGecko => "coingecko"
  | CSV => "csv"
  end.

(** The places of a run where the checkpoint row is read. *)
Inductive site := InFetch | InSaveRaw | InOrchestrator.

(** A block that opens a connection and runs one statement after its
    parameters are computed can fail before or after they are. *)
Inductive fault :=
| NoFault
| FailAtConnect (e : exn)
| FailAtExecute (e : exn).

(** A statement that raises inside a transaction that goes on: either the
    driver raises before the statement reaches the server (a parameter it
    cannot adapt), and the transaction is as it was; or the server rejects
    the statement, and the transaction is aborted. *)
Inductive statement_fault :=
| DriverError (e : exn)
| ServerError (e : exn).

(** What PostgreSQL answers to every statement of an aborted transaction
    ([psycopg2.errors.InFailedSqlTransaction]). *)
Definition in_failed_transaction : exn :=
  DatabaseError "current transaction is aborted, commands ignored until end of transaction block".

(** [conn.execute] of one statement of a transaction: its outcome, and
    whether the transaction is aborted after it. *)
Definition execute (aborted : bool) (flt : option statement_fault) : res unit * bool :=
  if aborted then (Raise in_failed_transaction, true)
  else match flt with
       | None => (Ok tt, false)
       | Some (DriverError e) => (Raise e, false)
       | Some (ServerError e) => (Raise e, true)
       end.
Arguments execute : simpl never.

(** What a run does not control: the generated run id, the readings of
    [datetime.utcnow()], the outcome of the HTTP request (the items of
    [response.json()], or the exception of the request), the CSV file
    ([None] when the path does not exist, else the outcome of
    [pd.read_csv(...).to_dict('records')]), and where the database driver
    raises. A statement that raises has no effect on the store; a block
    whose [commit] is not reached leaves the store as it was, and so does
    the [commit] of a transaction that a statement has aborted, which
    rolls back without an exception. *)
Record env := {
  run_id : string;
  time_at : nat -> datetime;
  http_items : source_kind -> res (list pyval);
  csv_data_path : string;
  csv_file : option (res (list pydict));
  fault_run_start : option exn;
  fault_get_checkpoint : site -> option exn;
  fault_save_connect : option exn;
  fault_save_execute : nat -> option statement_fault;
  fault_save_commit : option exn;
  fault_norm_connect : option exn;
  fault_upsert : nat -> option statement_fault;
  fault_norm_commit : option exn;
  fault_checkpoint_success : fault;
  fault_checkpoint_failure : fault;
  fault_run_complete : option exn
}.

(** The local variables of [run_etl_for_source] that are assigned inside
    its [try] block and read after it. *)
Record frame := {
  records_fetched : nat;
  records_processed : nat;
  records_failed : nat;
  error_message : option string;
  status : string
}.

Definition initial_frame : frame :=
  {| records_fetched := 0; records_processed := 0; records_failed := 0;
     error_message := None; status := "success" |}.

Record state := {
  db : database;
  tick : nat;
  logs : list string;
  locals : frame
}.

Definition M (A : Type) : Type := state -> res A * state.

Global Instance M_ret : MRet M := fun _ a st => (Ok a, st).
Global Instance M_bind : MBind M := fun _ _ f m st =>
  match m st with
  | (Ok a, st') => f a st'
  | (Raise e, st') => (Raise e, st')
  end.

Definition raise {A} (e : exn) : M A := fun st => (Raise e, st).

Definition lift {A} (r : res A) : M A := fun st => (r, st).

(** [try: m except Exception as e: h e]. *)
Definition try_except {A} (m : M A) (h : exn -> M A) : M A := fun st =>
  match m st with
  | (Ok a, st') => (Ok a, st')
  | (Raise e, st') => h e st'
  end.

Definition get_db : M database := fun st => (Ok (db st), st).

Definition modify_db (f : database -> database) : M unit := fun st =>
  (Ok tt, {| db := f (db st); tick := tick st; logs := logs st; locals := locals st |}).

Definition get_locals : M frame := fun st => (Ok (locals st), st).

Definition modify_locals (f : frame -> frame) : M unit := fun st =>
  (Ok tt, {| db := db st; tick := tick st; logs := logs st; locals := f (locals st) |}).

(** [logger.warning] and [logger.error]: the event text is appended.
    [logger.info] events are not recorded; nothing proved here reads them. *)
Definition log (msg : string) : M unit := fun st =>
  (Ok tt, {| db := db st; tick := tick st; logs := (logs st ++ [msg])%list;
             locals := locals st |}).

Definition fail_if (f : option exn) : M unit :=
  match f with Some e => raise e | None => mret tt end.

(** Table updates. *)
Definition with_etl_checkpoints (f : gmap string checkpoint_row -> gmap string checkpoint_row)
    (d : database) : database :=
  {| etl_checkpoints := f (etl_checkpoints d); etl_runs := etl_runs d;
     normalized_crypto_data := normalized_crypto_data d; raw_csv := raw_csv d;
     raw_coinpaprika := raw_coinpaprika d; raw_coingecko := raw_coingecko d;
     master_coins := master_coins d; coin_source_mappings := coin_source_mappings d |}.

Definition with_etl_runs (f : list run_row -> list run_row) (d : database) : database :=
  {| etl_checkpoints := etl_checkpoints d; etl_runs := f (etl_runs d);
     normalized_crypto_data := normalized_crypto_data d; raw_csv := raw_csv d;
     raw_coinpaprika := raw_coinpaprika d; raw_coingecko := raw_coingecko d;
     master_coins := master_coins d; coin_source_mappings := coin_source_mappings d |}.

Definition with_normalized (f : list normalized_row -> list normalized_row)
    (d : database) : database :=
  {| etl_checkpoints := etl_checkpoints d; etl_runs := etl_runs d;
     normalized_crypto_data := f (normalized_crypto_data d); raw_csv := raw_csv d;
     raw_coinpaprika := raw_coinpaprika d; raw_coingecko := raw_coingecko d;
     master_coins := master_coins d; coin_source_mappings := coin_source_mappings d |}.

Definition with_raw_csv (f : list raw_csv_row -> list raw_csv_row) (d : database) : database :=
  {| etl_checkpoints := etl_checkpoints d; etl_runs := etl_runs d;
     normalized_crypto_data := normalized_crypto_data d; raw_csv := f (raw_csv d);
     raw_coinpaprika := raw_coinpaprika d; raw_coingecko := raw_coingecko d;
     master_coins := master_coins d; coin_source_mappings := coin_source_mappings d |}.

Definition with_raw_coinpaprika (f : list raw_api_row -> list raw_api_row)
    (d : database) : database :=
  {| etl_checkpoints := etl_checkpoints d; etl_runs := etl_runs d;
     normalized_crypto_data := normalized_crypto_data d; raw_csv := raw_csv d;
     raw_coinpaprika := f (raw_coinpaprika d); raw_coingecko := raw_coingecko d;
     master_coins := master_coins d; coin_source_mappings := coin_source_mappings d |}.

Definition with_raw_coingecko (f : list raw_api_row -> list raw_api_row)
    (d : database) : database :=
  {| etl_checkpoints := etl_checkpoints d; etl_runs := etl_runs d;
     normalized_crypto_data := normalized_crypto_data d; raw_csv := raw_csv d;
     raw_coinpaprika := raw_coinpaprika d; raw_coingecko := f (raw_coingecko d);
     master_coins := master_coins d; coin_source_mappings := coin_source_mappings d |}.

(** [d[k]]. *)
Definition getitem {V} (d : gmap string V) (k : string) : res V :=
  match d !! k with Some v => Ok v | None => Raise (KeyError k) end.

Section WithEnv.

Variable ev : env.

(** [datetime.utcnow()]. *)
Definition utcnow : M datetime := fun st =>
  (Ok (time_at ev (tick st)),
   {| db := db st; tick := S (tick st); logs := logs st; locals := locals st |}).

(* ===================================================================== *)
(** * [ingestion/checkpoint.py] *)
(* ===================================================================== *)

(** The dict [get_checkpoint] builds from a row; [row[4] or {}] for the
    metadata. *)
Definition checkpoint_dict (r : checkpoint_row) : gmap string dbval :=
  list_to_map
    [("checkpoint_value", db_opt DbStr (checkpoint_value r));
     ("last_success_at", db_opt DbTime (last_success_at r));
     ("last_failure_at", db_opt DbTime (last_failure_at r));
     ("failure_reason", db_opt DbStr (failure_reason r));
     ("metadata", DbJson (default ∅ (metadata r)))].

Definition get_checkpoint (at_site : site) (src : string)
  : M (option (gmap string dbval)) :=
  match fault_get_checkpoint ev at_site with
  | Some e => log "Failed to get checkpoint";; mret None
  | None => d ← get_db; mret (checkpoint_dict <$> etl_checkpoints d !! src)
  end.

(** [int(v)] of a stored value. *)
Definition py_int (v : dbval) : option Z :=
  match v with
  | DbInt z => Some z
  | DbStr s => parse_int s
  | _ => None
  end.

Definition is_str (v : dbval) (s : string) : bool :=
  match v with DbStr x => String.eqb x s | _ => false end.

(** [get_last_row_number]. A dict is true when it is not empty. When
    [checkpoint["value"]] is missing, the [KeyError] caught by the handler
    is raised again by the handler's own log call, which reads the same
    key. *)
Definition get_last_row_number (at_site : site) (src : string) : M Z :=
  checkpoint ← get_checkpoint at_site src;
  match checkpoint with
  | Some d =>
      if (size d =? 0)%nat then mret 0
      else
        ty ← lift (getitem d "type");
        if is_str ty "row_number" then
          match d !! "value" with
          | None => raise (KeyError "value")
          | Some v =>
              match py_int v with
              | Some n => mret n
              | None => log "Failed to parse row number checkpoint";; mret 0
              end
          end
        else mret 0
  | None => mret 0
  end.

Definition mark_success (checkpoint_value : string) (md : option pydict) (now : datetime)
    (r : checkpoint_row) : checkpoint_row :=
  {| checkpoint_value := Some checkpoint_value;
     last_success_at := Some now;
     last_failure_at := last_failure_at r;
     failure_reason := failure_reason r;
     metadata := md;
     updated_at := Some now |}.

Definition mark_failure (error_message : option string) (now : datetime)
    (r : checkpoint_row) : checkpoint_row :=
  {| checkpoint_value := checkpoint_value r;
     last_success_at := last_success_at r;
     last_failure_at := Some now;
     failure_reason := error_message;
     metadata := metadata r;
     updated_at := Some now |}.

(** [update_checkpoint]: one [UPDATE ... WHERE source_name = :source_name]
    and a commit; any exception is logged and raised again. *)
Definition update_checkpoint (src : string) (checkpoint_value : string) (success : bool)
    (error_message : option string) (md : option pydict) : M unit :=
  let flt := if success then fault_checkpoint_success ev else fault_checkpoint_failure ev in
  try_except
    (match flt with
     | FailAtConnect e => raise e
     | FailAtExecute e => utcnow;; raise e
     | NoFault =>
         now ← utcnow;
         if success
         then modify_db (with_etl_checkpoints (alter (mark_success checkpoint_value md now) src))
         else modify_db (with_etl_checkpoints (alter (mark_failure error_message now) src));;
              log "Checkpoint failure recorded"
     end)
    (fun e => log "Failed to update checkpoint";; raise e).

End WithEnv.

(* ===================================================================== *)
(** * [services/entity_resolution.py] *)
(* ===================================================================== *)

Definition with_master_coins (f : gmap string master_coin_row -> gmap string master_coin_row)
    (d : database) : database :=
  {| etl_checkpoints := etl_checkpoints d; etl_runs := etl_runs d;
     normalized_crypto_data := normalized_crypto_data d; raw_csv := raw_csv d;
     raw_coinpaprika := raw_coinpaprika d; raw_coingecko := raw_coingecko d;
     master_coins := f (master_coins d); coin_source_mappings := coin_source_mappings d |}.

Definition with_coin_source_mappings (f : gmap (string * string) Z -> gmap (string * string) Z)
    (d : database) : database :=
  {| etl_checkpoints := etl_checkpoints d; etl_runs := etl_runs d;
     normalized_crypto_data := normalized_crypto_data d; raw_csv := raw_csv d;
     raw_coinpaprika := raw_coinpaprika d; raw_coingecko := raw_coingecko d;
     master_coins := master_coins d; coin_source_mappings := f (coin_source_mappings d) |}.

(** [s.lower()] on the ASCII range. *)
Definition str_lower (s : string) : string :=
  string_of_list_ascii (map lower_ascii (list_ascii_of_string s)).

(** [s.replace(c, by)] for a one-character [c]. *)
Definition replace_char (c : ascii) (by_ : list ascii) (s : string) : string :=
  string_of_list_ascii
    (List.concat
       ((fun x => if bool_decide (x = c) then by_ else [x]) <$> list_ascii_of_string s)).

(** [name.lower().replace(' ', '-').replace('.', '')]. *)
Definition canonical_id_of (name : string) : string :=
  replace_char "."%char [] (replace_char " "%char ["-"%char] (str_lower name)).

(** The class-level cache [_source_mapping_cache] next to the store. The
    driver is taken to work: the resolver has no handler of its own. *)
Record resolver_state := {
  _source_mapping_cache : gmap (string * string) Z;
  store : database
}.

Section Resolver.

(** [SequenceMatcher(None, a, b).ratio()], over the rationals, and the id
    the store hands out if a row is inserted into [master_coins]. *)
Variable _calculate_similarity : string -> string -> Qc.
Variable new_id : Z.

(** [_find_master_coin_by_symbol]: exact symbol, then a name that is more
    than 70% similar. *)
Definition _find_master_coin_by_symbol (symbol name : string) (d : database) : option Z :=
  match master_coins d !! str_upper symbol with
  | Some row =>
      if bool_decide (Qc_of_Z 7 / Qc_of_Z 10
                      < _calculate_similarity (str_lower name) (str_lower (mc_name row)))%Qc
      then Some (mc_id row)
      else None
  | None => None
  end.

(** [_create_master_coin]: [INSERT ... ON CONFLICT (symbol) DO UPDATE SET
    name = EXCLUDED.name ... RETURNING id]. *)
Definition _create_master_coin (symbol name : string) (d : database) : Z * database :=
  let key := str_upper symbol in
  match master_coins d !! key with
  | Some row =>
      (mc_id row,
       with_master_coins
         (insert key {| mc_id := mc_id row; mc_name := name;
                        mc_canonical_id := mc_canonical_id row |}) d)
  | None =>
      (new_id,
       with_master_coins
         (insert key {| mc_id := new_id; mc_name := name;
                        mc_canonical_id := canonical_id_of name |}) d)
  end.

(** [get_or_create_master_coin]. An id of 0 found by symbol is false for
    [if not master_coin_id] and goes through [_create_master_coin]. *)
Definition get_or_create_master_coin (symbol name source source_id : string)
    (rs : resolver_state) : Z * resolver_state :=
  let cache_key := (source, source_id) in
  match _source_mapping_cache rs !! cache_key with
  | Some master_coin_id => (master_coin_id, rs)
  | None =>
      match coin_source_mappings (store rs) !! cache_key with
      | Some master_coin_id =>
          (master_coin_id,
           {| _source_mapping_cache := <[cache_key := master_coin_id]> (_source_mapping_cache rs);
              store := store rs |})
      | None =>
          let '(master_coin_id, d) :=
            match _find_master_coin_by_symbol symbol name (store rs) with
            | Some found => if found =? 0 then _create_master_coin symbol name (store rs)
                            else (found, store rs)
            | None => _create_master_coin symbol name (store rs)
            end in
          let d := with_coin_source_mappings
                     (fun m => match m !! cache_key with
                               | Some _ => m
                               | None => <[cache_key := master_coin_id]> m
                               end) d in
          (master_coin_id,
           {| _source_mapping_cache := <[cache_key := master_coin_id]> (_source_mapping_cache rs);
              store := d |})
      end
  end.

(** [resolve_entity]: the entry point. *)
Definition resolve_entity (source source_id symbol name : string) (rs : resolver_state)
  : Z * resolver_state :=
  get_or_create_master_coin symbol name source source_id rs.

End Resolver.

(** Whatever the cache holds is in [coin_source_mappings]. *)
Definition cache_consistent (rs : resolver_state) : Prop :=
  ∀ k v, _source_mapping_cache rs !! k = Some v →
         coin_source_mappings (store rs) !! k = Some v.

(* ===================================================================== *)
(** * [ingestion/sources/]: the three adapters *)
(* ===================================================================== *)

(** [CoinPaprikaSource.__init__] creates a drift detector and never calls
    [set_expected_schema] on it. *)
Definition CoinPaprikaSource_expected_schema : option schema := None.

(** [validate]: [True] when no exception is raised inside the [try]. *)
Definition validate (src : source_kind) (data : pydict) : bool :=
  match src with
  | CoinPaprika =>
      match detect_drift CoinPaprikaSource_expected_schema data with
      | Ok _ => RawCoinPaprikaData_valid data
      | Raise _ => false
      end
  | CoinGecko => RawCoinGeckoData_valid data
  | CSV => RawCSVData_valid data
  end.

(** The dict built for one item of the CoinPaprika response. *)
Definition transform_coinpaprika (item : pyval) : res pydict :=
  item ← as_dict item;
  let transformed_item : pydict :=
    list_to_map
      [("coin_id", dict_get item "id"); ("symbol", dict_get item "symbol");
       ("name", dict_get item "name"); ("rank", dict_get item "rank");
       ("circulating_supply", dict_get item "circulating_supply");
       ("total_supply", dict_get item "total_supply");
       ("max_supply", dict_get item "max_supply")] in
  quotes ← as_dict (dict_get_default item "quotes" (VDict ∅));
  let usd_quote := dict_get_default quotes "USD" (VDict ∅) in
  if truthy usd_quote then
    usd_quote ← as_dict usd_quote;
    Ok (list_to_map
          [("price_usd", dict_get usd_quote "price");
           ("volume_24h_usd", dict_get usd_quote "volume_24h");
           ("market_cap_usd", dict_get usd_quote "market_cap");
           ("percent_change_1h", dict_get usd_quote "percent_change_1h");
           ("percent_change_24h", dict_get usd_quote "percent_change_24h");
           ("percent_change_7d", dict_get usd_quote "percent_change_7d")]
        ∪ transformed_item)
  else Ok transformed_item.

(** The dict built for one item of the CoinGecko response. *)
Definition transform_coingecko (item : pyval) : res pydict :=
  item ← as_dict item;
  Ok (list_to_map
        (("coin_id", dict_get item "id") ::
         ((fun k => (k, dict_get item k)) <$>
          ["symbol"; "name"; "current_price"; "market_cap"; "market_cap_rank";
           "total_volume"; "high_24h"; "low_24h"; "price_change_24h";
           "price_change_percentage_24h"; "circulating_supply"; "total_supply";
           "max_supply"; "ath"; "atl"]))).

(** The normalizer each adapter's [normalize] delegates to. *)
Definition normalizer (src : source_kind) : pydict -> datetime -> res NormalizedCryptoData :=
  match src with
  | CoinPaprika => normalize_coinpaprika
  | CoinGecko => normalize_coingecko
  | CSV => normalize_csv
  end.

Fixpoint transform_all (f : pyval -> res pydict) (items : list pyval) : res (list pydict) :=
  match items with
  | [] => Ok []
  | item :: rest => t ← f item; ts ← transform_all f rest; Ok (t :: ts)
  end.

Section Pipeline.

Variable ev : env.

(** [fetch]. The HTTP adapters issue one request and transform its items;
    the pause that follows the request has no effect here. The CSV adapter
    reads the file and drops the rows the checkpoint counts as consumed
    ([df.iloc[last_row:]]). Every exception is logged and raised again. *)
Definition fetch (src : source_kind) : M (list pydict) :=
  match src with
  | CoinPaprika =>
      try_except
        (data ← lift (http_items ev CoinPaprika);
         lift (transform_all transform_coinpaprika data))
        (fun e => log (if is_http_error e then "HTTP error fetching from CoinPaprika"
                       else "Error fetching from CoinPaprika");;
                  raise e)
  | CoinGecko =>
      try_except
        (data ← lift (http_items ev CoinGecko);
         lift (transform_all transform_coingecko data))
        (fun e => log (if is_http_error e then "HTTP error fetching from CoinGecko"
                       else "Error fetching from CoinGecko");;
                  raise e)
  | CSV =>
      try_except
        (match csv_file ev with
         | None => log "CSV file not found";; mret []
         | Some read_csv =>
             df ← lift read_csv;
             last_row ← get_last_row_number ev InFetch "csv";
             mret (if 0 <? last_row then drop (Z.to_nat last_row) df else df)
         end)
        (fun e => log "Error reading CSV file";; raise e)
  end.

(** The loop of [CSVSource.save_raw] over [enumerate(data)], on the
    connection's view [tbl] of [raw_csv]; [aborted] tells whether a
    statement has aborted the transaction. The only step of the inner
    [try] that can raise is the statement. *)
Fixpoint save_raw_csv_loop (current_timestamp : datetime) (last_row_number : Z)
    (data : list pydict) (idx : nat) (tbl : list raw_csv_row) (aborted : bool)
    (saved_count : nat) : M (list raw_csv_row * bool * nat) :=
  match data with
  | [] => mret (tbl, aborted, saved_count)
  | item :: rest =>
      if negb (validate CSV item)
      then save_raw_csv_loop current_timestamp last_row_number rest (S idx) tbl aborted
             saved_count
      else
        let row_number := last_row_number + Z.of_nat idx + 1 in
        let statement := execute aborted (fault_save_execute ev idx) in
        '(tbl', saved_count') ←
          try_except
            (lift statement.1;;
             mret (insert_raw_csv
                     {| csv_source_file := csv_data_path ev; csv_row_number := row_number;
                        csv_data_timestamp := current_timestamp; csv_raw_data := item |} tbl,
                   S saved_count))
            (fun e => log "Failed to save individual CSV record";; mret (tbl, saved_count));
        save_raw_csv_loop current_timestamp last_row_number rest (S idx) tbl' statement.2
          saved_count'
  end.

(** The loop of [CoinPaprikaSource.save_raw] and [CoinGeckoSource.save_raw]. *)
Fixpoint save_raw_api_loop (src : source_kind) (current_timestamp : datetime)
    (data : list pydict) (idx : nat) (tbl : list raw_api_row) (aborted : bool)
    (saved_count : nat) : M (list raw_api_row * bool * nat) :=
  match data with
  | [] => mret (tbl, aborted, saved_count)
  | item :: rest =>
      if negb (validate src item)
      then save_raw_api_loop src current_timestamp rest (S idx) tbl aborted saved_count
      else
        let statement := execute aborted (fault_save_execute ev idx) in
        '(tbl', saved_count') ←
          try_except
            (lift statement.1;;
             mret (insert_raw_api
                     {| api_coin_id := dict_get item "coin_id";
                        api_data_timestamp := current_timestamp; api_raw_data := item |} tbl,
                   S saved_count))
            (fun e => log "Failed to save individual record";; mret (tbl, saved_count));
        save_raw_api_loop src current_timestamp rest (S idx) tbl' statement.2 saved_count'
  end.

(** [conn.commit()] at the end of a loop: it raises, or it makes the
    connection's view the table, unless the transaction is aborted: then it
    rolls back, and raises nothing. *)
Definition commit (flt : option exn) (aborted : bool) (write : database -> database)
  : M unit :=
  fail_if flt;;
  if aborted then mret tt else modify_db write.

(** [save_raw]: returns [saved_count]. *)
Definition save_raw (src : source_kind) (data : list pydict) : M nat :=
  match data with
  | [] => mret 0%nat
  | _ =>
      current_timestamp ← utcnow ev;
      match src with
      | CSV =>
          last_row_number ← get_last_row_number ev InSaveRaw "csv";
          try_except
            (fail_if (fault_save_connect ev);;
             d ← get_db;
             '(tbl, aborted, saved_count) ←
               save_raw_csv_loop current_timestamp last_row_number data 0 (raw_csv d) false 0;
             commit (fault_save_commit ev) aborted (with_raw_csv (fun _ => tbl));;
             mret saved_count)
            (fun e => log "Failed to save raw CSV data";; raise e)
      | CoinPaprika =>
          try_except
            (fail_if (fault_save_connect ev);;
             d ← get_db;
             '(tbl, aborted, saved_count) ←
               save_raw_api_loop CoinPaprika current_timestamp data 0 (raw_coinpaprika d) false 0;
             commit (fault_save_commit ev) aborted (with_raw_coinpaprika (fun _ => tbl));;
             mret saved_count)
            (fun e => log "Failed to save raw CoinPaprika data";; raise e)
      | CoinGecko =>
          try_except
            (fail_if (fault_save_connect ev);;
             d ← get_db;
             '(tbl, aborted, saved_count) ←
               save_raw_api_loop CoinGecko current_timestamp data 0 (raw_coingecko d) false 0;
             commit (fault_save_commit ev) aborted (with_raw_coingecko (fun _ => tbl));;
             mret saved_count)
            (fun e => log "Failed to save raw CoinGecko data";; raise e)
      end
  end.

(** [normalize]: the normalizer of the source at [datetime.utcnow()],
    then [model_dump()]. *)
Definition normalize (src : source_kind) (raw_data : pydict) : M (gmap string dbval) :=
  now ← utcnow ev;
  match normalizer src raw_data now with
  | Ok n => mret (model_dump n)
  | Raise e =>
      log (match src with
           | CoinPaprika => "Failed to normalize CoinPaprika data"
           | CoinGecko => "Failed to normalize CoinGecko data"
           | CSV => "Failed to normalize CSV data"
           end);;
      raise e
  end.

(* ===================================================================== *)
(** * [ingestion/etl.py]: the orchestrator *)
(* ===================================================================== *)

(** The parameters bound to the upsert: [normalized[k]] for the five
    required columns, [normalized.get(k)] for the others. *)
Definition upsert_params (normalized : gmap string dbval) : res normalized_row :=
  let get k := default DbNull (normalized !! k) in
  a_source ← getitem normalized "source";
  a_source_id ← getitem normalized "source_id";
  let a_master_coin_id := get "master_coin_id" in
  a_symbol ← getitem normalized "symbol";
  a_name ← getitem normalized "name";
  a_data_timestamp ← getitem normalized "data_timestamp";
  Ok {| col_source := a_source; col_source_id := a_source_id;
        col_master_coin_id := a_master_coin_id;
        col_symbol := a_symbol; col_name := a_name;
        col_price_usd := get "price_usd";
        col_market_cap_usd := get "market_cap_usd";
        col_volume_24h_usd := get "volume_24h_usd";
        col_rank := get "rank";
        col_circulating_supply := get "circulating_supply";
        col_total_supply := get "total_supply";
        col_max_supply := get "max_supply";
        col_percent_change_24h := get "percent_change_24h";
        col_additional_data := get "additional_data";
        col_data_timestamp := a_data_timestamp |}.

Definition add_processed (f : frame) : frame :=
  {| records_fetched := records_fetched f; records_processed := S (records_processed f);
     records_failed := records_failed f; error_message := error_message f;
     status := status f |}.

Definition add_failed (f : frame) : frame :=
  {| records_fetched := records_fetched f; records_processed := records_processed f;
     records_failed := S (records_failed f); error_message := error_message f;
     status := status f |}.

Definition set_fetched (n : nat) (f : frame) : frame :=
  {| records_fetched := n; records_processed := records_processed f;
     records_failed := records_failed f; error_message := error_message f;
     status := status f |}.

Definition set_failed_status (msg : string) (f : frame) : frame :=
  {| records_fetched := records_fetched f; records_processed := records_processed f;
     records_failed := records_failed f; error_message := Some msg;
     status := "failed" |}.

(** The handler of the loop: the record is logged and counted as failed.
    It is entered with the connection as the step that raised left it. *)
Definition record_failed (tbl : list normalized_row) (aborted : bool)
  : M (list normalized_row * bool) :=
  log "Failed to normalize record";;
  modify_locals add_failed;;
  mret (tbl, aborted).

(** [for item in raw_data]: normalize, upsert on the connection's view
    [tbl] of [normalized_crypto_data], count. An exception for one record
    is logged and counted, and the loop goes on, on the same connection:
    the transaction is as it was when [normalize] or a parameter raises,
    and as [execute] leaves it when the statement raises. *)
Fixpoint normalize_loop (src : source_kind) (raw_data : list pydict) (idx : nat)
    (tbl : list normalized_row) (aborted : bool) : M (list normalized_row * bool) :=
  match raw_data with
  | [] => mret (tbl, aborted)
  | item :: rest =>
      '(tbl', aborted') ←
        try_except
          (normalized ← normalize src item;
           row ← lift (upsert_params normalized);
           let statement := execute aborted (fault_upsert ev idx) in
           match statement.1 with
           | Ok _ => modify_locals add_processed;;
                     mret (upsert_normalized row tbl, statement.2)
           | Raise e => record_failed tbl statement.2
           end)
          (fun e => record_failed tbl aborted);
      normalize_loop src rest (S idx) tbl' aborted'
  end.

Definition insert_run_start (started_at : datetime) (src : string) : M unit :=
  fail_if (fault_run_start ev);;
  modify_db (with_etl_runs (fun runs =>
    (runs ++ [{| run_run_id := run_id ev; run_source_name := src;
                 run_status := "running"; run_started_at := started_at;
                 run_completed_at := None; run_duration_seconds := None;
                 run_records_fetched := None; run_records_processed := None;
                 run_records_failed := None; run_error_message := None |}])%list)).

Definition complete_run (completed_at : datetime) (duration_seconds : Z) (f : frame)
    (r : run_row) : run_row :=
  if String.eqb (run_run_id r) (run_id ev)
  then {| run_run_id := run_run_id r; run_source_name := run_source_name r;
          run_status := status f; run_started_at := run_started_at r;
          run_completed_at := Some completed_at;
          run_duration_seconds := Some duration_seconds;
          run_records_fetched := Some (records_fetched f);
          run_records_processed := Some (records_processed f);
          run_records_failed := Some (records_failed f);
          run_error_message := error_message f |}
  else r.

Definition update_run_completion (completed_at : datetime) (duration_seconds : Z) : M unit :=
  f ← get_locals;
  fail_if (fault_run_complete ev);;
  modify_db (with_etl_runs (fmap (complete_run completed_at duration_seconds f))).

(** Inside the [try] block, for a non-empty batch: [save_raw], then the
    loop and its commit on one connection. *)
Definition archive_and_upsert (src : source_kind) (raw_data : list pydict) : M unit :=
  saved_count ← save_raw src raw_data;
  fail_if (fault_norm_connect ev);;
  d ← get_db;
  '(tbl, aborted) ← normalize_loop src raw_data 0 (normalized_crypto_data d) false;
  commit (fault_norm_commit ev) aborted (with_normalized (fun _ => tbl)).

(** Inside the [try] block: the new checkpoint value and the metadata
    passed to [update_checkpoint]. The clock is read for every source; for
    the CSV source the value is then replaced by the row count. *)
Definition next_checkpoint (src : source_kind) : M (string * option pydict) :=
  let name := source_name src in
  now ← utcnow ev;
  checkpoint_value ←
    (if String.eqb name "csv"
     then last_row ← get_last_row_number ev InOrchestrator name;
          f ← get_locals;
          mret (pretty (last_row + Z.of_nat (records_fetched f)))
     else mret (isoformat now));
  f ← get_locals;
  mret (checkpoint_value,
        Some (list_to_map [("run_id", VStr (run_id ev));
                           ("records_processed", VInt (Z.of_nat (records_processed f)))])).

(** The [try] block of [run_etl_for_source]. *)
Definition try_block (src : source_kind) : M unit :=
  raw_data ← fetch src;
  modify_locals (set_fetched (List.length raw_data));;
  match raw_data with
  | [] => mret tt
  | _ =>
      archive_and_upsert src raw_data;;
      '(checkpoint_value, md) ← next_checkpoint src;
      update_checkpoint ev (source_name src) checkpoint_value true None md
  end.

(** The [except Exception as e] block of [run_etl_for_source]. *)
Definition except_block (src : source_kind) (e : exn) : M unit :=
  log "ETL run failed";;
  modify_locals (set_failed_status (exn_str e));;
  update_checkpoint ev (source_name src) "" false (Some (exn_str e)) None.

(** Before the [try] block: the start time, the [running] row (a failure
    to insert it is logged and the run goes on), the counters. *)
Definition run_prelude (src : source_kind) : M datetime :=
  started_at ← utcnow ev;
  try_except (insert_run_start started_at (source_name src))
             (fun e => log "Failed to record ETL run start");;
  modify_locals (fun _ => initial_frame);;
  mret started_at.

(** After the [try] block: the completion row (a failure to write it is
    logged). *)
Definition run_epilogue (started_at : datetime) : M unit :=
  completed_at ← utcnow ev;
  let duration_seconds := duration_seconds_between started_at completed_at in
  try_except (update_run_completion completed_at duration_seconds)
             (fun e => log "Failed to record ETL run completion").

(** [run_etl_for_source]. The Prometheus counters updated at the very end
    (inside their own [try]) are not part of the store and are left out. *)
Definition run_etl_for_source (src : source_kind) : M unit :=
  started_at ← run_prelude src;
  try_except (try_block src) (except_block src);;
  run_epilogue started_at.

End Pipeline.

(* ===================================================================== *)
(** * Vocabulary of the statements *)
(* ===================================================================== *)

(** The two text fields every normalized record carries. *)
Inductive text_field := FSymbol | FName.

Definition text_key (f : text_field) : string :=
  match f with FSymbol => "symbol" | FName => "name" end.

Definition text_of (f : text_field) (n : NormalizedCryptoData) : string :=
  match f with FSymbol => symbol n | FName => name n end.

(** The numeric fields of a normalized record, and the key each
    normalizer reads them from (the CSV normalizer reads no supply). *)
Inductive numeric_field :=
| FPriceUsd | FMarketCapUsd | FVolume24hUsd
| FCirculatingSupply | FTotalSupply | FMaxSupply | FPercentChange24h.

Definition numeric_of (f : numeric_field) (n : NormalizedCryptoData) : option Decimal :=
  match f with
  | FPriceUsd => price_usd n
  | FMarketCapUsd => market_cap_usd n
  | FVolume24hUsd => volume_24h_usd n
  | FCirculatingSupply => circulating_supply n
  | FTotalSupply => total_supply n
  | FMaxSupply => max_supply n
  | FPercentChange24h => percent_change_24h n
  end.

Definition raw_key (src : source_kind) (f : numeric_field) : option string :=
  match src, f with
  | CoinPaprika, FPriceUsd => Some "price_usd"
  | CoinPaprika, FMarketCapUsd => Some "market_cap_usd"
  | CoinPaprika, FVolume24hUsd => Some "volume_24h_usd"
  | CoinPaprika, FPercentChange24h => Some "percent_change_24h"
  | CoinGecko, FPriceUsd => Some "current_price"
  | CoinGecko, FMarketCapUsd => Some "market_cap"
  | CoinGecko, FVolume24hUsd => Some "total_volume"
  | CoinGecko, FPercentChange24h => Some "price_change_percentage_24h"
  | CSV, FPriceUsd => Some "price_usd"
  | CSV, FMarketCapUsd => Some "market_cap_usd"
  | CSV, FVolume24hUsd => Some "volume_24h_usd"
  | CSV, FPercentChange24h => Some "percent_change_24h"
  | CSV, _ => None
  | _, FCirculatingSupply => Some "circulating_supply"
  | _, FTotalSupply => Some "total_supply"
  | _, FMaxSupply => Some "max_supply"
  end.

(** The exact value 0: the integer 0 or a float zero. *)
Definition is_zero (v : pyval) : bool :=
  match v with
  | VInt z => z =? 0
  | VFloat (FFin _ c _) => (c =? 0)%N
  | _ => false
  end.

(** [normalize_coinpaprika] replaces volume and market cap by the nested
    USD quote when the top-level volume is null and [quotes] is a key. *)
Definition quotes_fallback (raw_data : pydict) : bool :=
  is_none (dict_get raw_data "volume_24h_usd") && has_key raw_data "quotes".


(** The tables no checkpoint mark writes to, the raw archives apart. *)
Definition side_tables (d : database) :=
  (etl_runs d, normalized_crypto_data d, master_coins d, coin_source_mappings d).

(** Everything of the store but the raw archives. *)
Definition core_tables (d : database) := (etl_checkpoints d, side_tables d).

(** The [try] block up to the success mark: what it hands to
    [update_checkpoint], or [None] for an empty batch. *)
Definition before_mark (ev : env) (src : source_kind) : M (option (string * option pydict)) :=
  raw_data ← fetch ev src;
  modify_locals (set_fetched (List.length raw_data));;
  match raw_data with
  | [] => mret None
  | _ =>
      archive_and_upsert ev src raw_data;;
      mark ← next_checkpoint ev src;
      mret (Some mark)
  end.

(** The metadata a run stores with its checkpoint. *)
Definition run_metadata (ev : env) (processed : nat) : pydict :=
  list_to_map [("run_id", VStr (run_id ev));
               ("records_processed", VInt (Z.of_nat processed))].

(** The [running] row a run inserts. *)
Definition running_row (ev : env) (src : source_kind) (started_at : datetime) : run_row :=
  {| run_run_id := run_id ev; run_source_name := source_name src;
     run_status := "running"; run_started_at := started_at;
     run_completed_at := None; run_duration_seconds := None;
     run_records_fetched := None; run_records_processed := None;
     run_records_failed := None; run_error_message := None |}.

(** The outcome and the final state of a computation satisfy [Q]. *)
Definition wp {A} (m : M A) (st : state) (Q : res A -> state -> Prop) : Prop :=
  Q (m st).1 (m st).2.

Arguments wp : simpl never.

(** The row has no master coin. *)
Definition unresolved (r : normalized_row) : Prop := col_master_coin_id r = DbNull.

(* ===================================================================== *)
(** * Scenarios *)
(* ===================================================================== *)

(** 2026-11-04 01:02:[n]: the [n]-th reading of the clock. *)
Definition clock (n : nat) : datetime :=
  {| year := 2026; month := 11; day := 4; hour := 1; minute := 2; second := n;
     microsecond := 0 |}.

Definition btc_ticker : pyval :=
  VDict (list_to_map
    [("id", VStr "btc-bitcoin"); ("symbol", VStr "BTC"); ("name", VStr "Bitcoin");
     ("rank", VInt 1);
     ("quotes", VDict (list_to_map
        [("USD", VDict (list_to_map [("price", VFloat (FFin false 432505 (-1)))]))]))]).

Definition btc_csv : pydict :=
  list_to_map [("symbol", VStr "BTC"); ("name", VStr "Bitcoin");
               ("price_usd", VFloat (FFin false 432505 (-1)))].

Definition eth_csv : pydict :=
  list_to_map [("symbol", VStr "ETH"); ("name", VStr "Ethereum"); ("price_usd", VInt 0)].

Definition sol_csv : pydict :=
  list_to_map [("symbol", VStr "SOL"); ("name", VStr "Solana")].

(** A run in which nothing fails. *)
Definition quiet_env : env :=
  {| run_id := "3f2b8c1e-0000-4000-8000-000000000001";
     time_at := clock;
     http_items := fun _ => Ok [btc_ticker];
     csv_data_path := "data/sample.csv";
     csv_file := Some (Ok [btc_csv; eth_csv; sol_csv]);
     fault_run_start := None;
     fault_get_checkpoint := fun _ => None;
     fault_save_connect := None;
     fault_save_execute := fun _ => None;
     fault_save_commit := None;
     fault_norm_connect := None;
     fault_upsert := fun _ => None;
     fault_norm_commit := None;
     fault_checkpoint_success := NoFault;
     fault_checkpoint_failure := NoFault;
     fault_run_complete := None |}.

(** The same run with a replaced outcome of the success mark. *)
Definition with_success_fault (f : fault) (e : env) : env :=
  {| run_id := run_id e; time_at := time_at e; http_items := http_items e;
     csv_data_path := csv_data_path e; csv_file := csv_file e;
     fault_run_start := fault_run_start e;
     fault_get_checkpoint := fault_get_checkpoint e;
     fault_save_connect := fault_save_connect e;
     fault_save_execute := fault_save_execute e;
     fault_save_commit := fault_save_commit e;
     fault_norm_connect := fault_norm_connect e;
     fault_upsert := fault_upsert e;
     fault_norm_commit := fault_norm_commit e;
     fault_checkpoint_success := f;
     fault_checkpoint_failure := fault_checkpoint_failure e;
     fault_run_complete := fault_run_complete e |}.

Definition connection_lost : exn := DatabaseError "connection lost".

(** The quiet run, except that the success mark raises. *)
Definition lost_success_mark_env : env :=
  with_success_fault (FailAtExecute connection_lost) quiet_env.

(** A run whose HTTP request times out and whose failure mark raises. *)
Definition outage_env : env :=
  {| run_id := run_id quiet_env;
     time_at := clock;
     http_items := fun _ => Raise (HTTPError "timed out");
     csv_data_path := csv_data_path quiet_env;
     csv_file := csv_file quiet_env;
     fault_run_start := None;
     fault_get_checkpoint := fun _ => None;
     fault_save_connect := None;
     fault_save_execute := fun _ => None;
     fault_save_commit := None;
     fault_norm_connect := None;
     fault_upsert := fun _ => None;
     fault_norm_commit := None;
     fault_checkpoint_success := NoFault;
     fault_checkpoint_failure := FailAtExecute connection_lost;
     fault_run_complete := None |}.

Definition empty_database : database :=
  {| etl_checkpoints := ∅; etl_runs := []; normalized_crypto_data := [];
     raw_csv := []; raw_coinpaprika := []; raw_coingecko := [];
     master_coins := ∅; coin_source_mappings := ∅ |}.

Definition checkpoint_with (value : option string) : checkpoint_row :=
  {| checkpoint_value := value; last_success_at := None; last_failure_at := None;
     failure_reason := None; metadata := None; updated_at := None |}.

(** One checkpoint row per source; the CSV cursor stands at row 2. *)
Definition seeded_database : database :=
  with_etl_checkpoints
    (fun _ => list_to_map [("coinpaprika", checkpoint_with None);
                           ("coingecko", checkpoint_with None);
                           ("csv", checkpoint_with (Some "2"))])
    empty_database.

Definition start_state (d : database) : state :=
  {| db := d; tick := 0; logs := []; locals := initial_frame |}.

Definition sample_coinpaprika_data : pydict :=
  list_to_map
    [("coin_id", VStr "btc-bitcoin"); ("symbol", VStr "BTC"); ("name", VStr "Bitcoin");
     ("rank", VInt 1);
     ("price_usd", VFloat (FFin false 432505 (-1)));
     ("volume_24h_usd", VFloat (FFin false 285 8));
     ("market_cap_usd", VFloat (FFin false 845 9))].

(** A top-level market cap of 0 next to a nested USD quote. *)
Definition zero_cap_with_quotes : pydict :=
  list_to_map
    [("coin_id", VStr "btc-bitcoin"); ("symbol", VStr "BTC"); ("name", VStr "Bitcoin");
     ("market_cap_usd", VInt 0);
     ("quotes", VDict (list_to_map
        [("USD", VDict (list_to_map [("market_cap", VInt 5)]))]))].

(* ===================================================================== *)
(** * [ingestion/checkpoint.py]: the timestamp cursor *)
(* ===================================================================== *)

Section Timestamps.

Variable ev : env.

(** [datetime.fromisoformat]; [None] stands for its [ValueError]. *)
Variable fromisoformat : string -> option datetime.

(** [get_last_timestamp]. As in [get_last_row_number], a missing
    [checkpoint["value"]] is raised again by the handler's log call; a value
    that is not a string has no [replace] and ends in the handler. *)
Definition get_last_timestamp (at_site : site) (src : string) : M (option datetime) :=
  checkpoint ← get_checkpoint ev at_site src;
  match checkpoint with
  | Some d =>
      if (size d =? 0)%nat then mret None
      else
        ty ← lift (getitem d "type");
        if is_str ty "timestamp" then
          match d !! "value" with
          | None => raise (KeyError "value")
          | Some (DbStr s) =>
              match fromisoformat
                      (replace_char "Z"%char (list_ascii_of_string "+00:00") s) with
              | Some t => mret (Some t)
              | None => log "Failed to parse timestamp checkpoint";; mret None
              end
          | Some _ => log "Failed to parse timestamp checkpoint";; mret None
          end
        else mret None
  | None => mret None
  end.

End Timestamps.


(* ===================================================================== *)
(** * [ingestion/schema_drift.py]: field matching *)
(* ===================================================================== *)

Section Fuzzy.

(** [fuzz.ratio], an integer score of similarity. *)
Variable ratio : string -> string -> Z.

(** One round of the loop of [fuzzy_match_field] over
    [self.expected_schema.keys()], on [(best_match, best_score)]. *)
Definition fuzzy_match_round (field_name : string) (threshold : Z)
    (best : option string * Z) (expected_field : string) : option string * Z :=
  let score := ratio (str_lower field_name) (str_lower expected_field) in
  if (best.2 <? score) && (threshold <=? score) then (Some expected_field, score) else best.

(** [fuzzy_match_field]: the best matching expected field, or [None]. *)
Definition fuzzy_match_field (expected_schema : option schema) (field_name : string)
    (threshold : Z) : option string :=
  match expected_schema with
  | None | Some [] => None
  | Some sch => (foldl (fuzzy_match_round field_name threshold) (None, 0) (fst <$> sch)).1
  end.

(** [suggest_field_mapping]: for every field of the record that the schema
    does not name, the match found with the default threshold of 80, when
    it is a true value ([if match:] drops the empty string). *)
Definition suggest_field_mapping (expected_schema : option schema) (data : pydict)
  : gmap string string :=
  match expected_schema with
  | None | Some [] => ∅
  | Some sch =>
      let actual_fields : gset string := dom data in
      let expected_fields : gset string := list_to_set (fst <$> sch) in
      let unknown_fields := actual_fields ∖ expected_fields in
      list_to_map
        (omap (fun field =>
                 match fuzzy_match_field (Some sch) field 80 with
                 | Some m => if String.eqb m "" then None else Some (field, m)
                 | None => None
                 end)
              (elements unknown_fields))
  end.

End Fuzzy.

(** A schema whose entries are classes, none a tuple of classes. *)
Definition single_typed (sch : schema) : Prop :=
  ∀ f e, (f, e) ∈ sch → ∃ t, e = Single t.

(** The record has the type the schema expects of every field that it
    holds with a value other than [None]. *)
Definition conforms (sch : schema) (data : pydict) : Prop :=
  ∀ f t v, (f, Single t) ∈ sch → data !! f = Some v → v ≠ VNone → type_of v = t.

(** The keys of the expected schema ([None] has none). *)
Definition schema_keys (expected_schema : option schema) : list string :=
  match expected_schema with Some sch => fst <$> sch | None => [] end.


(** A true value that [Decimal(str(v))] does not turn into a finite number:
    text that is no decimal literal, [nan], an infinity, [True], a list. *)
Definition not_a_finite_number (v : pyval) : bool :=
  truthy v && match Decimal_of_str v with
              | Ok d => negb (is_finite d)
              | Raise _ => true
              end.

(** What [fetch] of an HTTP adapter makes of the response: every item is
    transformed by [transform], or the exception of the request or of the
    first item that cannot be transformed is raised. *)
Definition fetched_by (transform : pyval -> res pydict) (response : res (list pyval))
    (outcome : res (list pydict)) : Prop :=
  match outcome with
  | Ok data =>
      ∃ items, response = Ok items
               ∧ Forall2 (fun item t => transform item = Ok t) items data
  | Raise e =>
      response = Raise e
      ∨ ∃ before item after,
          response = Ok (before ++ item :: after)%list
          ∧ Forall (fun i => ∃ t, transform i = Ok t) before
          ∧ transform item = Raise e
  end.


(** The records a source has archived, each with the timestamp of the call
    of [save_raw] that archived it. *)
Definition archived (src : source_kind) (d : database) : list (datetime * pydict) :=
  match src with
  | CoinPaprika => (fun r => (api_data_timestamp r, api_raw_data r)) <$> raw_coinpaprika d
  | CoinGecko => (fun r => (api_data_timestamp r, api_raw_data r)) <$> raw_coingecko d
  | CSV => (fun r => (csv_data_timestamp r, csv_raw_data r)) <$> raw_csv d
  end.

(** The driver does not fail while [save_raw] runs. *)
Definition archive_driver_works (ev : env) : Prop :=
  fault_save_connect ev = None ∧ fault_save_commit ev = None
  ∧ ∀ idx, fault_save_execute ev idx = None.

(** The records of a batch that [validate] accepts. *)
Definition valid_records (src : source_kind) (data : list pydict) : list pydict :=
  List.filter (validate src) data.


(** [clear_cache]: both class-level caches are emptied ([_master_coin_cache]
    is written nowhere else and read nowhere). *)
Definition clear_cache (rs : resolver_state) : resolver_state :=
  {| _source_mapping_cache := ∅; store := store rs |}.

(** The tables the resolver has no statement for. *)
Definition etl_tables (d : database) :=
  (etl_checkpoints d, etl_runs d, normalized_crypto_data d,
   raw_csv d, raw_coinpaprika d, raw_coingecko d).

(** The key has a mapping neither in the cache nor in the store. *)
Definition unmapped (rs : resolver_state) (key : string * string) : Prop :=
  _source_mapping_cache rs !! key = None ∧ coin_source_mappings (store rs) !! key = None.


(** The clock never reads the same time twice. *)
Definition clock_never_repeats (ev : env) : Prop :=
  ∀ i j, time_at ev i = time_at ev j → i = j.

(** The server rejects no upsert of the normalize loop. *)
Definition no_upsert_rejected (ev : env) : Prop :=
  ∀ idx e, fault_upsert ev idx ≠ Some (ServerError e).

(** No row of the table carries a time that the clock reads from [tick]
    on. *)
Definition timestamps_are_past (ev : env) (tick : nat) (tbl : list normalized_row) : Prop :=
  ∀ r i, r ∈ tbl → (tick ≤ i)%nat → col_data_timestamp r ≠ DbTime (time_at ev i).


(** A schema of classes only. *)
Definition text_schema : schema := [("symbol", Single TStr); ("name", Single TStr)].

(** A row of the file whose price cell is empty: the reader gives [nan]. *)
Definition empty_price_csv : pydict :=
  list_to_map [("symbol", VStr "DOGE"); ("name", VStr "Dogecoin"); ("price_usd", VFloat FNaN)].

(** An item of a response without an [id]. *)
Definition anonymous_coin : pydict :=
  list_to_map [("symbol", VStr "btc"); ("name", VStr "Bitcoin")].

(** A ticker whose symbol is [null]: its record cannot be normalized. *)
Definition null_symbol_ticker : pyval :=
  VDict (list_to_map [("id", VStr "x-coin"); ("symbol", VNone); ("name", VStr "X")]).

(** The quiet run, with a response that holds that ticker only. *)
Definition null_symbol_env : env :=
  {| run_id := run_id quiet_env;
     time_at := clock;
     http_items := fun _ => Ok [null_symbol_ticker];
     csv_data_path := csv_data_path quiet_env;
     csv_file := csv_file quiet_env;
     fault_run_start := None;
     fault_get_checkpoint := fun _ => None;
     fault_save_connect := None;
     fault_save_execute := fun _ => None;
     fault_save_commit := None;
     fault_norm_connect := None;
     fault_upsert := fun _ => None;
     fault_norm_commit := None;
     fault_checkpoint_success := NoFault;
     fault_checkpoint_failure := NoFault;
     fault_run_complete := None |}.

(** The quiet run, except that the start row cannot be inserted. *)
Definition lost_start_env : env :=
  {| run_id := run_id quiet_env;
     time_at := clock;
     http_items := http_items quiet_env;
     csv_data_path := csv_data_path quiet_env;
     csv_file := csv_file quiet_env;
     fault_run_start := Some connection_lost;
     fault_get_checkpoint := fun _ => None;
     fault_save_connect := None;
     fault_save_execute := fun _ => None;
     fault_save_commit := None;
     fault_norm_connect := None;
     fault_upsert := fun _ => None;
     fault_norm_commit := None;
     fault_checkpoint_success := NoFault;
     fault_checkpoint_failure := NoFault;
     fault_run_complete := None |}.

Definition eth_ticker : pyval :=
  VDict (list_to_map
    [("id", VStr "eth-ethereum"); ("symbol", VStr "ETH"); ("name", VStr "Ethereum");
     ("rank", VInt 2)]).

(** The quiet run over two tickers, except that the server rejects the
    second upsert. *)
Definition rejected_upsert_env : env :=
  {| run_id := run_id quiet_env;
     time_at := clock;
     http_items := fun _ => Ok [btc_ticker; eth_ticker];
     csv_data_path := csv_data_path quiet_env;
     csv_file := csv_file quiet_env;
     fault_run_start := None;
     fault_get_checkpoint := fun _ => None;
     fault_save_connect := None;
     fault_save_execute := fun _ => None;
     fault_save_commit := None;
     fault_norm_connect := None;
     fault_upsert := fun idx =>
       if (idx =? 1)%nat then Some (ServerError (DatabaseError "numeric field overflow"))
       else None;
     fault_norm_commit := None;
     fault_checkpoint_success := NoFault;
     fault_checkpoint_failure := NoFault;
     fault_run_complete := None |}.

(** A similarity that tells equal texts from all others. *)
Definition same_text (a b : string) : Qc := if String.eqb a b then 1%Qc else 0%Qc.

(** A resolver that has seen nothing, over an empty store. *)
Definition empty_resolver : resolver_state :=
  {| _source_mapping_cache := ∅; store := empty_database |}.

(** The resolver after Bitcoin has been resolved for CoinPaprika; the
    store hands out the id 7. *)
Definition bitcoin_resolver : resolver_state :=
  (resolve_entity same_text 7 "coinpaprika" "btc-bitcoin" "BTC" "Bitcoin" empty_resolver).2.
(** [returns_with P r]: the result [r] is a value, and [P] holds of it. *)
Definition returns_with {A} (P : A -> bool) (r : res A) : bool :=
  match r with
  | Ok a => P a
  | Raise _ => false
  end.


(* ===================================================================== *)
(** * Properties of the normalizers *)
(* ===================================================================== *)

Lemma res_bind_ok {A B} (m : res A) (f : A -> res B) (b : B) :
  m ≫= f = Ok b → ∃ a, m = Ok a ∧ f a = Ok b.
Proof. destruct m as [a|e]; simpl; [eauto | discriminate]. Qed.

Lemma res_bind_pair_ok {A B C} (m : res (A * B)) (f : A * B -> res C) (c : C) :
  m ≫= f = Ok c → ∃ a b, m = Ok (a, b) ∧ f (a, b) = Ok c.
Proof. destruct m as [[a b]|e]; simpl; [eauto | discriminate]. Qed.

Lemma res_bind_raises {A B} (m : res A) (f : A -> res B) :
  (∀ a, ∃ e, f a = Raise e) → ∃ e, m ≫= f = Raise e.
Proof. destruct m as [a|e]; simpl; eauto. Qed.

(** Peel every successful bind of a hypothesis [H : m ≫= f = Ok b]. *)
Ltac res_inv H :=
  repeat first
    [ apply res_bind_pair_ok in H; destruct H as (? & ? & ? & H)
    | apply res_bind_ok in H; destruct H as (? & ? & H) ].

Lemma decimal_if_truthy_falsy (v : pyval) :
  truthy v = false → decimal_if_truthy v = Ok None.
Proof. unfold decimal_if_truthy. intros ->. reflexivity. Qed.

Lemma is_zero_falsy (v : pyval) : is_zero v = true → truthy v = false.
Proof.
  destruct v as [| |z|f| | |]; simpl; try discriminate.
  - intros ->. reflexivity.
  - destruct f; try discriminate. intros ->. reflexivity.
Qed.

Lemma is_zero_not_none (v : pyval) : is_zero v = true → is_none v = false.
Proof. destruct v; simpl; try discriminate; reflexivity. Qed.

Lemma zero_facts (raw_data : pydict) (k : string) (v : pyval) :
  raw_data !! k = Some v → is_zero v = true →
  dict_get raw_data k = v ∧ is_none v = false ∧ decimal_if_truthy v = Ok None.
Proof.
  intros Hv Hz. unfold dict_get. rewrite Hv. simpl.
  split; [done |]. split; [by apply is_zero_not_none |].
  by apply decimal_if_truthy_falsy, is_zero_falsy.
Qed.

(** What a successful construction tells about its keywords. *)
Lemma NormalizedCryptoData_init_ok a_source a_source_id a_symbol a_name
    a_price a_cap a_vol a_rank a_circ a_total a_max a_pct a_add ts n :
  NormalizedCryptoData_init a_source a_source_id a_symbol a_name a_price a_cap a_vol
    a_rank a_circ a_total a_max a_pct a_add ts = Ok n →
  source n = a_source ∧ a_source_id = VStr (source_id n) ∧ symbol n = a_symbol
  ∧ a_name = VStr (name n)
  ∧ price_usd n = a_price ∧ market_cap_usd n = a_cap ∧ volume_24h_usd n = a_vol
  ∧ circulating_supply n = a_circ ∧ total_supply n = a_total ∧ max_supply n = a_max
  ∧ percent_change_24h n = a_pct ∧ data_timestamp n = ts.
Proof.
  unfold NormalizedCryptoData_init.
  generalize (forallb validate_opt_decimal_instance
                [a_price; a_cap; a_vol; a_circ; a_total; a_max; a_pct]).
  intros ok.
  destruct a_source_id; simpl; try discriminate.
  destruct a_name; simpl; try discriminate.
  destruct (validate_opt_int a_rank); simpl; try discriminate.
  destruct ok; simpl; try discriminate.
  intros [= <-]. simpl. repeat split; reflexivity.
Qed.

(** Reading a key that an update did not touch. *)
Lemma dict_get_insert_ne (d : pydict) (k k' : string) (v : pyval) :
  k ≠ k' → dict_get (<[k := v]> d) k' = dict_get d k'.
Proof. intros H. unfold dict_get. by rewrite lookup_insert_ne. Qed.

Lemma dict_get_default_insert_ne (d : pydict) (k k' : string) (v dflt : pyval) :
  k ≠ k' → dict_get_default (<[k := v]> d) k' dflt = dict_get_default d k' dflt.
Proof. intros H. unfold dict_get_default. by rewrite lookup_insert_ne. Qed.

Lemma has_key_insert_ne (d : pydict) (k k' : string) (v : pyval) :
  k ≠ k' → has_key (<[k := v]> d) k' = has_key d k'.
Proof. intros H. unfold has_key. by rewrite lookup_insert_ne. Qed.

Lemma dict_get_default_absent (d : pydict) (k : string) (dflt : pyval) :
  d !! k = None → dict_get_default d k dflt = dflt.
Proof. intros H. unfold dict_get_default. by rewrite H. Qed.

Lemma dict_get_default_insert (d : pydict) (k : string) (v dflt : pyval) :
  dict_get_default (<[k := v]> d) k dflt = v.
Proof. unfold dict_get_default. by rewrite lookup_insert_eq. Qed.

Ltac other_keys :=
  repeat match goal with
  | |- context [dict_get (<[?k := ?v]> ?d) ?k'] =>
      rewrite (dict_get_insert_ne d k k' v) by discriminate
  | |- context [dict_get_default (<[?k := ?v]> ?d) ?k' ?dflt] =>
      rewrite (dict_get_default_insert_ne d k k' v dflt) by discriminate
  | |- context [has_key (<[?k := ?v]> ?d) ?k'] =>
      rewrite (has_key_insert_ne d k k' v) by discriminate
  end.

(** A record without the key and the record with the key set to the empty
    string normalize alike. *)
Lemma absent_text_is_empty_string (src : source_kind) (f : text_field)
    (raw_data : pydict) (ts : datetime) :
  raw_data !! text_key f = None →
  normalizer src raw_data ts = normalizer src (<[text_key f := VStr ""]> raw_data) ts.
Proof.
  intros Habs.
  destruct src, f; simpl in *;
    unfold normalize_coinpaprika, normalize_coingecko, normalize_csv,
      usd_quote_of, coin_id_or_id;
    other_keys;
    rewrite ?dict_get_default_insert, ?(dict_get_default_absent _ _ _ Habs);
    reflexivity.
Qed.

Lemma upper_of_empty (s : string) : upper_of (VStr "") = Ok s → s = "".
Proof. by intros [= <-]. Qed.

(** A symbol that is present but is not a string makes every normalizer
    raise: [None.upper()] is an [AttributeError]. *)
Lemma null_symbol_raises (src : source_kind) (raw_data : pydict) (ts : datetime) :
  raw_data !! "symbol" = Some VNone →
  ∃ e, normalizer src raw_data ts = Raise e.
Proof.
  intros Hsym.
  destruct src; simpl;
    unfold normalize_coinpaprika, normalize_coingecko, normalize_csv, dict_get_default;
    rewrite Hsym; simpl.
  - apply res_bind_raises. intros p. apply res_bind_raises. intros [v c]. simpl. eauto.
  - eauto.
  - eauto.
Qed.

(** C8, as stated, fails: a record with no [symbol] key is normalized by
    all three normalizers, with the empty string as its symbol. *)
Lemma absent_symbol_does_not_raise :
  let raw_data : pydict := {[ "name" := VStr "Bitcoin" ]} in
  raw_data !! "symbol" = None
  ∧ (∃ n, normalize_coinpaprika raw_data (clock 0) = Ok n ∧ symbol n = "")
  ∧ (∃ n, normalize_coingecko raw_data (clock 0) = Ok n ∧ symbol n = "")
  ∧ (∃ n, normalize_csv raw_data (clock 0) = Ok n ∧ symbol n = "").
Proof.
  cbv zeta. split; [reflexivity |].
  repeat split; eexists; (split; [vm_compute; reflexivity | reflexivity]).
Qed.

(** C8, amended: when the [symbol] key (or the [name] key) is absent, every
    normalizer takes the empty string for it: the outcome is the outcome
    for the record that holds the empty string under that key, and a
    record that is produced carries the empty string in that field. *)
Theorem absent_text_defaults_to_empty_string (src : source_kind) (f : text_field)
    (raw_data : pydict) (ts : datetime) :
  raw_data !! text_key f = None →
  normalizer src raw_data ts = normalizer src (<[text_key f := VStr ""]> raw_data) ts
  ∧ ∀ n, normalizer src raw_data ts = Ok n → text_of f n = "".
Proof.
  intros Habs. split; [by apply absent_text_is_empty_string |].
  intros n Hn.
  destruct src, f; simpl in *;
    unfold normalize_coinpaprika, normalize_coingecko, normalize_csv in Hn;
    rewrite (dict_get_default_absent _ _ _ Habs) in Hn;
    res_inv Hn;
    apply NormalizedCryptoData_init_ok in Hn; destruct_and!;
    first [ match goal with H : upper_of (VStr "") = Ok _ |- _ =>
              apply upper_of_empty in H end; congruence
          | congruence ].
Qed.

Lemma absent_text_defaults_to_empty_string_witness :
  sol_csv !! text_key FSymbol = Some (VStr "SOL")
  ∧ delete "symbol" sol_csv !! text_key FSymbol = None
  ∧ (normalizer CSV (delete "symbol" sol_csv) (clock 0)
     = normalizer CSV (<[text_key FSymbol := VStr ""]> (delete "symbol" sol_csv)) (clock 0)
     ∧ ∀ n, normalizer CSV (delete "symbol" sol_csv) (clock 0) = Ok n → text_of FSymbol n = "").
Proof.
  split; [reflexivity |]. split; [reflexivity |].
  apply (absent_text_defaults_to_empty_string CSV FSymbol (delete "symbol" sol_csv) (clock 0)).
  reflexivity.
Defined.

(** C10, as stated, fails for the market cap of [normalize_coinpaprika]: a
    top-level [market_cap_usd] of 0 is replaced by the nested USD quote
    when the top-level volume is absent, and the output is not null. *)
Lemma zero_market_cap_replaced_by_quote :
  zero_cap_with_quotes !! "market_cap_usd" = Some (VInt 0)
  ∧ ∃ n, normalize_coinpaprika zero_cap_with_quotes (clock 0) = Ok n
         ∧ market_cap_usd n = Some (DFin false 5 0).
Proof.
  split; [reflexivity |].
  eexists. split; [vm_compute; reflexivity | reflexivity].
Qed.

(** C10, amended: a numeric input that is present with the exact value 0
    comes out as null in the record the normalizer produces; for the market
    cap of [normalize_coinpaprika] this is stated when the nested-quote
    fallback is not taken. *)
Theorem zero_numeric_field_is_null (src : source_kind) (f : numeric_field) (k : string)
    (raw_data : pydict) (ts : datetime) (n : NormalizedCryptoData) :
  raw_key src f = Some k →
  (∃ v, raw_data !! k = Some v ∧ is_zero v = true) →
  (src = CoinPaprika → f = FMarketCapUsd → quotes_fallback raw_data = false) →
  normalizer src raw_data ts = Ok n →
  numeric_of f n = None.
Proof.
  intros Hkey (v & Hv & Hz) Hfb Hn.
  destruct (zero_facts _ _ _ Hv Hz) as (Hget & Hnone & Hdec).
  destruct src, f; simpl in Hkey; try discriminate; injection Hkey as <-;
    simpl in Hn;
    unfold normalize_coinpaprika, normalize_coingecko, normalize_csv in Hn;
    try (specialize (Hfb eq_refl eq_refl); unfold quotes_fallback in Hfb;
         rewrite Hfb in Hn);
    rewrite ?Hget, ?Hnone in Hn; simpl andb in Hn; cbv iota in Hn;
    res_inv Hn;
    apply NormalizedCryptoData_init_ok in Hn; destruct_and!;
    simplify_eq; simpl; congruence.
Qed.

Lemma zero_numeric_field_is_null_witness :
  ∃ n, raw_key CSV FPriceUsd = Some "price_usd"
       ∧ (∃ v, eth_csv !! "price_usd" = Some v ∧ is_zero v = true)
       ∧ normalizer CSV eth_csv (clock 0) = Ok n
       ∧ numeric_of FPriceUsd n = None.
Proof.
  destruct (normalizer CSV eth_csv (clock 0)) as [n|e] eqn:Hn; [| vm_compute in Hn; discriminate Hn].
  exists n.
  assert (Hz : ∃ v, eth_csv !! "price_usd" = Some v ∧ is_zero v = true)
    by (exists (VInt 0); split; reflexivity).
  split; [reflexivity |]. split; [exact Hz |]. split; [reflexivity |].
  apply (zero_numeric_field_is_null CSV FPriceUsd "price_usd" eth_csv (clock 0) n);
    [reflexivity | exact Hz | discriminate | exact Hn].
Defined.

(* ===================================================================== *)
(** * Properties of the drift detector *)
(* ===================================================================== *)

(** Whatever the runtime type, it differs from a tuple of allowed types,
    even when it is one of them. *)
Lemma type_differs_tuple (t : pytype) (ts : list pytype) :
  type_differs t (Tuple ts) = true.
Proof. reflexivity. Qed.

(** C9: on a record whose three prices are floats, as the schema allows,
    [detect_drift] takes the first of them for a mismatch and raises while
    it formats the message; it reports neither [has_drift = False] nor a
    confidence. *)
Theorem detect_drift_rejects_allowed_tuple_member :
  type_of (dict_get sample_coinpaprika_data "price_usd") = TFloat
  ∧ detect_drift (Some COINPAPRIKA_SCHEMA) sample_coinpaprika_data
    = Raise (AttributeError "'tuple' object has no attribute '__name__'").
Proof. split; [reflexivity | vm_compute; reflexivity]. Qed.

(* ===================================================================== *)
(** * Properties of the checkpoint manager and of the CSV adapter *)
(* ===================================================================== *)

Lemma bind_run {A B} (m : M A) (f : A -> M B) (st : state) :
  (m ≫= f) st = match m st with
                | (Ok a, st') => f a st'
                | (Raise e, st') => (Raise e, st')
                end.
Proof. reflexivity. Qed.


(** The dict built from a checkpoint row has five keys, and [type] is not
    one of them. *)
Lemma checkpoint_dict_has_no_type (r : checkpoint_row) :
  checkpoint_dict r !! "type" = None ∧ size (checkpoint_dict r) = 5%nat.
Proof. split; reflexivity. Qed.

Lemma get_checkpoint_of_row (ev : env) (s : site) (src : string) (st : state) :
  fault_get_checkpoint ev s = None →
  get_checkpoint ev s src st = (Ok (checkpoint_dict <$> etl_checkpoints (db st) !! src), st).
Proof. intros Hf. unfold get_checkpoint. rewrite Hf. reflexivity. Qed.

(** With a checkpoint row in the store, [get_last_row_number] raises. *)
Lemma get_last_row_number_of_row (ev : env) (s : site) (src : string) (st : state)
    (r : checkpoint_row) :
  fault_get_checkpoint ev s = None →
  etl_checkpoints (db st) !! src = Some r →
  get_last_row_number ev s src st = (Raise (KeyError "type"), st).
Proof.
  intros Hf Hr. unfold get_last_row_number.
  rewrite bind_run, (get_checkpoint_of_row _ _ _ _ Hf), Hr. reflexivity.
Qed.

(** Without one, it returns 0. *)
Lemma get_last_row_number_no_row (ev : env) (s : site) (src : string) (st : state) :
  fault_get_checkpoint ev s = None →
  etl_checkpoints (db st) !! src = None →
  get_last_row_number ev s src st = (Ok 0, st).
Proof.
  intros Hf Hr. unfold get_last_row_number.
  rewrite bind_run, (get_checkpoint_of_row _ _ _ _ Hf), Hr. reflexivity.
Qed.

(** The CSV [fetch]: an absent file gives the empty list; without a
    checkpoint row every row of the file is returned; with one, [fetch]
    raises. *)
Lemma csv_fetch_absent_file (ev : env) (st : state) :
  csv_file ev = None → (fetch ev CSV st).1 = Ok [].
Proof. intros Hf. unfold fetch, try_except. rewrite Hf. reflexivity. Qed.

Lemma csv_fetch_without_checkpoint_row (ev : env) (st : state) (rows : list pydict) :
  csv_file ev = Some (Ok rows) →
  fault_get_checkpoint ev InFetch = None →
  etl_checkpoints (db st) !! "csv" = None →
  (fetch ev CSV st).1 = Ok rows.
Proof.
  intros Hf Hg Hr. unfold fetch, try_except. rewrite Hf.
  rewrite bind_run. simpl. rewrite bind_run, (get_last_row_number_no_row _ _ _ _ Hg Hr).
  reflexivity.
Qed.

Lemma csv_fetch_with_checkpoint_row (ev : env) (st : state) (rows : list pydict)
    (r : checkpoint_row) :
  csv_file ev = Some (Ok rows) →
  fault_get_checkpoint ev InFetch = None →
  etl_checkpoints (db st) !! "csv" = Some r →
  (fetch ev CSV st).1 = Raise (KeyError "type").
Proof.
  intros Hf Hg Hr. unfold fetch, try_except. rewrite Hf.
  rewrite bind_run. simpl. rewrite bind_run, (get_last_row_number_of_row _ _ _ _ _ Hg Hr).
  reflexivity.
Qed.

(** C5: with a checkpoint row for [csv] whose value is 2 and a file of
    three rows, [fetch] does not return the third row: it raises
    [KeyError('type')], because [get_last_row_number] reads a key that
    [get_checkpoint] never stores. *)
Theorem csv_fetch_raises_when_checkpoint_row_exists :
  (checkpoint_value <$> etl_checkpoints seeded_database !! "csv") = Some (Some "2")
  ∧ csv_file quiet_env = Some (Ok [btc_csv; eth_csv; sol_csv])
  ∧ (fetch quiet_env CSV (start_state seeded_database)).1 = Raise (KeyError "type").
Proof.
  split; [reflexivity |]. split; [reflexivity |].
  eapply csv_fetch_with_checkpoint_row; reflexivity.
Qed.

(** C7: a second [save_raw] of the same CSV record meets the unique key
    [(source_file, row_number)] of the first; the archive is unchanged,
    and the call returns 1, not 0: [saved_count] counts every statement
    that does not raise, the skipped ones included. *)
Theorem save_raw_counts_rows_skipped_on_conflict :
  let first := save_raw quiet_env CSV [btc_csv] (start_state empty_database) in
  let second := save_raw quiet_env CSV [btc_csv] first.2 in
  first.1 = Ok 1%nat
  ∧ List.length (raw_csv (db first.2)) = 1%nat
  ∧ second.1 = Ok 1%nat
  ∧ raw_csv (db second.2) = raw_csv (db first.2).
Proof. vm_compute. repeat split; reflexivity. Qed.

(** The same within one call of the CoinPaprika adapter: a coin listed
    twice is archived once and counted twice. *)
Lemma save_raw_counts_duplicate_coin :
  ∃ item, transform_coinpaprika btc_ticker = Ok item
  ∧ let out := save_raw quiet_env CoinPaprika [item; item] (start_state empty_database) in
    out.1 = Ok 2%nat ∧ List.length (raw_coinpaprika (db out.2)) = 1%nat.
Proof. eexists. split; [reflexivity |]. vm_compute. split; reflexivity. Qed.

(* ===================================================================== *)
(** * Reasoning about runs *)
(* ===================================================================== *)


(** Rules for [wp]. *)
Lemma wp_bind {A B} (m : M A) (f : A -> M B) (st : state) (Q : res B -> state -> Prop) :
  wp m st (fun r st1 => match r with
                        | Ok a => wp (f a) st1 Q
                        | Raise e => Q (Raise e) st1
                        end) →
  wp (m ≫= f) st Q.
Proof. unfold wp. rewrite bind_run. destruct (m st) as [[a|e] st1]; simpl; auto. Qed.

Lemma wp_try {A} (m : M A) (h : exn -> M A) (st : state) (Q : res A -> state -> Prop) :
  wp m st (fun r st1 => match r with
                        | Ok a => Q (Ok a) st1
                        | Raise e => wp (h e) st1 Q
                        end) →
  wp (try_except m h) st Q.
Proof. unfold wp, try_except. destruct (m st) as [[a|e] st1]; simpl; auto. Qed.

Lemma wp_mono {A} (m : M A) (st : state) (Q Q' : res A -> state -> Prop) :
  wp m st Q → (∀ r st', Q r st' → Q' r st') → wp m st Q'.
Proof. unfold wp. auto. Qed.

Lemma wp_ret {A} (a : A) (st : state) (Q : res A -> state -> Prop) :
  Q (Ok a) st → wp (mret a) st Q.
Proof. auto. Qed.

Lemma wp_raise {A} (e : exn) (st : state) (Q : res A -> state -> Prop) :
  Q (Raise e) st → wp (raise e) st Q.
Proof. auto. Qed.

Lemma wp_lift {A} (r : res A) (st : state) (Q : res A -> state -> Prop) :
  Q r st → wp (lift r) st Q.
Proof. auto. Qed.

Lemma wp_fail_if (f : option exn) (st : state) (Q : res unit -> state -> Prop) :
  match f with Some e => Q (Raise e) st | None => Q (Ok tt) st end →
  wp (fail_if f) st Q.
Proof. destruct f; auto. Qed.

Lemma wp_log (msg : string) (st : state) (Q : res unit -> state -> Prop) :
  Q (Ok tt) {| db := db st; tick := tick st; logs := (logs st ++ [msg])%list;
               locals := locals st |} →
  wp (log msg) st Q.
Proof. auto. Qed.

Lemma wp_utcnow (ev : env) (st : state) (Q : res datetime -> state -> Prop) :
  Q (Ok (time_at ev (tick st)))
    {| db := db st; tick := S (tick st); logs := logs st; locals := locals st |} →
  wp (utcnow ev) st Q.
Proof. auto. Qed.

Lemma wp_get_db (st : state) (Q : res database -> state -> Prop) :
  Q (Ok (db st)) st → wp get_db st Q.
Proof. auto. Qed.

Lemma wp_get_locals (st : state) (Q : res frame -> state -> Prop) :
  Q (Ok (locals st)) st → wp get_locals st Q.
Proof. auto. Qed.

Lemma wp_modify_db (f : database -> database) (st : state) (Q : res unit -> state -> Prop) :
  Q (Ok tt) {| db := f (db st); tick := tick st; logs := logs st; locals := locals st |} →
  wp (modify_db f) st Q.
Proof. auto. Qed.

Lemma wp_modify_locals (f : frame -> frame) (st : state) (Q : res unit -> state -> Prop) :
  Q (Ok tt) {| db := db st; tick := tick st; logs := logs st; locals := f (locals st) |} →
  wp (modify_locals f) st Q.
Proof. auto. Qed.

(** A statement returns only in a transaction that is not aborted, and
    leaves it so. *)
Lemma execute_ok (aborted : bool) (flt : option statement_fault) (u : unit) (a : bool) :
  execute aborted flt = (Ok u, a) → aborted = false ∧ flt = None ∧ a = false.
Proof.
  unfold execute. destruct aborted; [discriminate |].
  destruct flt as [[e|e]|]; [discriminate | discriminate |]. by intros [= <- <-].
Qed.

Lemma execute_not_rejected (flt : option statement_fault) (r : res unit) (a : bool) :
  (∀ e, flt ≠ Some (ServerError e)) → execute false flt = (r, a) → a = false.
Proof.
  intros Hflt. unfold execute. destruct flt as [[e|e]|]; intros [= <- <-]; try reflexivity.
  by destruct (Hflt e).
Qed.

Lemma execute_works (flt : option statement_fault) :
  flt = None → execute false flt = (Ok tt, false).
Proof. by intros ->. Qed.

(** Once aborted, always aborted. *)
Lemma execute_aborted (flt : option statement_fault) :
  execute true flt = (Raise in_failed_transaction, true).
Proof. reflexivity. Qed.

Lemma wp_commit (flt : option exn) (aborted : bool) (write : database -> database)
    (st : state) (Q : res unit -> state -> Prop) :
  match flt with
  | Some e => Q (Raise e) st
  | None =>
      Q (Ok tt) (if aborted then st
                 else {| db := write (db st); tick := tick st; logs := logs st;
                         locals := locals st |})
  end →
  wp (commit flt aborted write) st Q.
Proof. unfold commit. destruct flt, aborted; auto. Qed.

(** One step of symbolic execution. *)
Ltac wp_step :=
  lazymatch goal with
  | |- wp (mbind _ _) _ _ => apply wp_bind
  | |- wp (try_except _ _) _ _ => apply wp_try
  | |- wp (mret _) _ _ => apply wp_ret
  | |- wp (raise _) _ _ => apply wp_raise
  | |- wp (lift _) _ _ => apply wp_lift
  | |- wp (fail_if _) _ _ => apply wp_fail_if
  | |- wp (commit _ _ _) _ _ => apply wp_commit
  | |- wp (log _) _ _ => apply wp_log
  | |- wp (utcnow _) _ _ => apply wp_utcnow
  | |- wp get_db _ _ => apply wp_get_db
  | |- wp get_locals _ _ => apply wp_get_locals
  | |- wp (modify_db _) _ _ => apply wp_modify_db
  | |- wp (modify_locals _) _ _ => apply wp_modify_locals
  end.

Ltac wp_steps := repeat (wp_step; cbn beta iota).

(** Reading the checkpoint only logs. *)
Lemma get_checkpoint_spec (ev : env) (s : site) (src : string) (st : state) :
  wp (get_checkpoint ev s src) st (fun r st' =>
    db st' = db st ∧ tick st' = tick st ∧ locals st' = locals st).
Proof.
  unfold get_checkpoint. destruct (fault_get_checkpoint ev s); wp_steps; auto.
Qed.

Lemma get_last_row_number_spec (ev : env) (s : site) (src : string) (st : state) :
  wp (get_last_row_number ev s src) st (fun r st' =>
    db st' = db st ∧ tick st' = tick st ∧ locals st' = locals st).
Proof.
  unfold get_last_row_number. wp_step.
  eapply wp_mono; [apply get_checkpoint_spec |].
  intros [[d|]|e] st1 (Hdb & Htick & Hloc); cbn beta iota; [| wp_steps; auto | auto].
  destruct (size d =? 0)%nat; [wp_steps; auto |].
  wp_step. wp_step. destruct (getitem d "type") as [ty|e]; cbn beta iota; [| auto].
  destruct (is_str ty "row_number"); [| wp_steps; auto].
  destruct (d !! "value") as [v|]; [| wp_steps; auto].
  destruct (py_int v); wp_steps; auto.
Qed.

(** [fetch] changes neither the store, nor the clock, nor the counters. *)
Lemma fetch_spec (ev : env) (src : source_kind) (st : state) :
  wp (fetch ev src) st (fun r st' =>
    db st' = db st ∧ tick st' = tick st ∧ locals st' = locals st).
Proof.
  destruct src; unfold fetch.
  - wp_step. wp_step. wp_step. destruct (http_items ev CoinPaprika) as [d|e]; cbn beta iota.
    + wp_step. destruct (transform_all _ d); cbn beta iota; [auto | wp_steps; auto].
    + wp_steps; auto.
  - wp_step. wp_step. wp_step. destruct (http_items ev CoinGecko) as [d|e]; cbn beta iota.
    + wp_step. destruct (transform_all _ d); cbn beta iota; [auto | wp_steps; auto].
    + wp_steps; auto.
  - wp_step. destruct (csv_file ev) as [[df|e]|].
    + wp_step. wp_step. cbn beta iota. wp_step.
      eapply wp_mono; [apply get_last_row_number_spec |].
      intros [n|e] st1 (Hdb & Htick & Hloc); cbn beta iota; wp_steps; simpl; auto.
    + wp_steps; simpl; auto.
    + wp_steps; simpl; auto.
Qed.

(** The archive loops never raise and only log. *)
Lemma save_raw_csv_loop_spec (ev : env) (ts : datetime) (last : Z) (data : list pydict) :
  ∀ (idx : nat) (tbl : list raw_csv_row) (aborted : bool) (count : nat) (st : state),
  wp (save_raw_csv_loop ev ts last data idx tbl aborted count) st (fun r st' =>
    (∃ out, r = Ok out) ∧ db st' = db st ∧ tick st' = tick st ∧ locals st' = locals st).
Proof.
  induction data as [|item rest IH]; intros idx tbl aborted count st; simpl.
  - wp_steps. eauto.
  - destruct (negb _); [apply IH |].
    wp_step. wp_step. wp_step.
    destruct (execute aborted (fault_save_execute ev idx)) as [[[]|e] a]; cbn [fst snd];
      wp_steps.
    + eapply wp_mono; [apply IH |]. simpl. auto.
    + eapply wp_mono; [apply IH |]. simpl. auto.
Qed.

Lemma save_raw_api_loop_spec (ev : env) (src : source_kind) (ts : datetime)
    (data : list pydict) :
  ∀ (idx : nat) (tbl : list raw_api_row) (aborted : bool) (count : nat) (st : state),
  wp (save_raw_api_loop ev src ts data idx tbl aborted count) st (fun r st' =>
    (∃ out, r = Ok out) ∧ db st' = db st ∧ tick st' = tick st ∧ locals st' = locals st).
Proof.
  induction data as [|item rest IH]; intros idx tbl aborted count st; simpl.
  - wp_steps. eauto.
  - destruct (negb _); [apply IH |].
    wp_step. wp_step. wp_step.
    destruct (execute aborted (fault_save_execute ev idx)) as [[[]|e] a]; cbn [fst snd];
      wp_steps.
    + eapply wp_mono; [apply IH |]. simpl. auto.
    + eapply wp_mono; [apply IH |]. simpl. auto.
Qed.

(** [save_raw] writes to the raw archives only, and reads the clock once
    for a batch that is not empty. *)
Lemma save_raw_spec (ev : env) (src : source_kind) (data : list pydict) (st : state) :
  wp (save_raw ev src data) st (fun r st' =>
    core_tables (db st') = core_tables (db st) ∧ locals st' = locals st
    ∧ tick st' = match data with [] => tick st | _ => S (tick st) end).
Proof.
  unfold save_raw. destruct data as [|item rest]; [wp_steps; auto |].
  wp_step. wp_step. cbn beta iota.
  destruct src.
  - wp_step. wp_step. wp_step. destruct (fault_save_connect ev); wp_steps; [simpl; auto |].
    eapply wp_mono; [apply save_raw_api_loop_spec |].
    intros r st1 ((out & ->) & Hdb & Htick & Hloc). destruct out as [[tbl a] n].
    cbn beta iota.
    wp_step. wp_step. destruct (fault_save_commit ev), a; wp_steps; simpl in *;
      rewrite Hdb; auto.
  - wp_step. wp_step. wp_step. destruct (fault_save_connect ev); wp_steps; [simpl; auto |].
    eapply wp_mono; [apply save_raw_api_loop_spec |].
    intros r st1 ((out & ->) & Hdb & Htick & Hloc). destruct out as [[tbl a] n].
    cbn beta iota.
    wp_step. wp_step. destruct (fault_save_commit ev), a; wp_steps; simpl in *;
      rewrite Hdb; auto.
  - wp_step. eapply wp_mono; [apply get_last_row_number_spec |].
    intros [last|e] st0 (Hdb0 & Htick0 & Hloc0); cbn beta iota; [| simpl in *; rewrite Hdb0; auto].
    wp_step. wp_step. wp_step. destruct (fault_save_connect ev); wp_steps;
      [simpl in *; rewrite Hdb0; auto |].
    eapply wp_mono; [apply save_raw_csv_loop_spec |].
    intros r st1 ((out & ->) & Hdb & Htick & Hloc). destruct out as [[tbl a] n].
    cbn beta iota.
    wp_step. wp_step. destruct (fault_save_commit ev), a; wp_steps; simpl in *;
      rewrite Hdb, Hdb0; rewrite Htick, Htick0, Hloc, Hloc0; auto.
Qed.


(** [model_dump()] has no [master_coin_id] key, so the orchestrator's
    [normalized.get("master_coin_id")] is [None]. *)
Lemma model_dump_has_no_master_coin_id (n : NormalizedCryptoData) :
  model_dump n !! "master_coin_id" = None.
Proof. reflexivity. Qed.

Lemma normalize_spec (ev : env) (src : source_kind) (item : pydict) (st : state) :
  wp (normalize ev src item) st (fun r st' =>
    db st' = db st ∧ locals st' = locals st ∧ tick st' = S (tick st)
    ∧ ∀ d, r = Ok d → d !! "master_coin_id" = None).
Proof.
  unfold normalize. wp_step. wp_step. cbn beta iota.
  destruct (normalizer src item _) as [n|e]; wp_steps; simpl.
  - repeat split; try reflexivity. intros d [= <-]. apply model_dump_has_no_master_coin_id.
  - repeat split; try reflexivity. intros d [=].
Qed.

Lemma upsert_params_unresolved (d : gmap string dbval) (row : normalized_row) :
  d !! "master_coin_id" = None → upsert_params d = Ok row → unresolved row.
Proof.
  intros Hd H. unfold upsert_params in H. rewrite Hd in H.
  repeat (apply res_bind_ok in H; destruct H as (? & ? & H)).
  injection H as <-. reflexivity.
Qed.

Lemma upsert_normalized_unresolved (new : normalized_row) (tbl : list normalized_row) :
  unresolved new → Forall unresolved tbl → Forall unresolved (upsert_normalized new tbl).
Proof.
  intros Hnew Htbl. unfold upsert_normalized.
  destruct (existsb _ tbl).
  - apply Forall_fmap. eapply Forall_impl; [exact Htbl |].
    intros old Hold. simpl. destruct (same_natural_key new old); [exact Hnew | exact Hold].
  - apply Forall_app. split; [exact Htbl | by constructor].
Qed.

(** The loop never raises; every record adds one to exactly one of the two
    counters and reads the clock once; no row it writes has a master coin. *)
Lemma normalize_loop_spec (ev : env) (src : source_kind) (items : list pydict) :
  ∀ (idx : nat) (tbl : list normalized_row) (aborted : bool) (st : state),
  wp (normalize_loop ev src items idx tbl aborted) st (fun r st' =>
    db st' = db st
    ∧ tick st' = (tick st + List.length items)%nat
    ∧ records_fetched (locals st') = records_fetched (locals st)
    ∧ status (locals st') = status (locals st)
    ∧ error_message (locals st') = error_message (locals st)
    ∧ (records_processed (locals st') + records_failed (locals st')
       = records_processed (locals st) + records_failed (locals st) + List.length items)%nat
    ∧ ∃ tbl' aborted', r = Ok (tbl', aborted')
                       ∧ (Forall unresolved tbl → Forall unresolved tbl')).
Proof.
  induction items as [|item rest IH]; intros idx tbl aborted st; simpl.
  - wp_steps. repeat split; try lia. eauto.
  - wp_step. wp_step. wp_step.
    eapply wp_mono; [apply normalize_spec |].
    intros [d|e] st1 (Hdb & Hloc & Htick & Hd); cbn beta iota.
    + wp_step. wp_step. destruct (upsert_params d) as [row|e] eqn:Hrow; cbn beta iota.
      * cbv zeta.
        destruct (execute aborted (fault_upsert ev idx)) as [[[]|e] a]; cbn [fst snd];
          unfold record_failed; wp_steps.
        -- eapply wp_mono; [apply IH |]. simpl.
           intros r st' (-> & -> & -> & -> & -> & Hc & tbl' & a' & -> & Hu).
           rewrite Hdb, Htick; rewrite Hloc in *. repeat split; try lia.
           exists tbl', a'. split; [reflexivity |]. intros Htbl. apply Hu.
           apply upsert_normalized_unresolved; [| exact Htbl].
           eapply upsert_params_unresolved; [| exact Hrow]. by apply Hd.
        -- eapply wp_mono; [apply IH |]. simpl.
           intros r st' (-> & -> & -> & -> & -> & Hc & tbl' & a' & -> & Hu).
           rewrite Hdb, Htick; rewrite Hloc in *. repeat split; try lia. eauto.
      * unfold record_failed. wp_steps. eapply wp_mono; [apply IH |]. simpl.
        intros r st' (-> & -> & -> & -> & -> & Hc & tbl' & a' & -> & Hu).
        rewrite Hdb, Htick; rewrite Hloc in *. repeat split; try lia. eauto.
    + unfold record_failed. wp_steps. eapply wp_mono; [apply IH |]. simpl.
      intros r st' (-> & -> & -> & -> & -> & Hc & tbl' & a' & -> & Hu).
      rewrite Hdb, Htick; rewrite Hloc in *. repeat split; try lia. eauto.
Qed.

Lemma side_tables_inv (d d' : database) :
  side_tables d' = side_tables d →
  etl_runs d' = etl_runs d ∧ normalized_crypto_data d' = normalized_crypto_data d
  ∧ master_coins d' = master_coins d ∧ coin_source_mappings d' = coin_source_mappings d.
Proof. unfold side_tables. intros H. repeat split; congruence. Qed.

Lemma core_tables_inv (d d' : database) :
  core_tables d' = core_tables d →
  etl_checkpoints d' = etl_checkpoints d ∧ side_tables d' = side_tables d.
Proof. unfold core_tables. intros H. split; congruence. Qed.

(** The row count read back depends on the store only. *)
Lemma get_last_row_number_db (ev : env) (s : site) (src : string) (st1 st2 : state) :
  etl_checkpoints (db st1) = etl_checkpoints (db st2) →
  (get_last_row_number ev s src st1).1 = (get_last_row_number ev s src st2).1.
Proof.
  intros Hdb. unfold get_last_row_number, get_checkpoint.
  rewrite !bind_run.
  destruct (fault_get_checkpoint ev s); simpl; [reflexivity |].
  rewrite Hdb. destruct (etl_checkpoints (db st2) !! src); simpl; reflexivity.
Qed.

(** The marks: what [update_checkpoint] writes, and that it writes nothing
    when it raises. *)
Lemma update_checkpoint_spec (ev : env) (src value : string) (success : bool)
    (msg : option string) (md : option pydict) (st : state) :
  wp (update_checkpoint ev src value success msg md) st (fun r st' =>
    locals st' = locals st ∧ side_tables (db st') = side_tables (db st)
    ∧ match r with
      | Ok _ =>
          (if success then fault_checkpoint_success ev else fault_checkpoint_failure ev)
          = NoFault
          ∧ tick st' = S (tick st)
          ∧ etl_checkpoints (db st')
            = alter (if success then mark_success value md (time_at ev (tick st))
                     else mark_failure msg (time_at ev (tick st)))
                src (etl_checkpoints (db st))
      | Raise e =>
          etl_checkpoints (db st') = etl_checkpoints (db st)
          ∧ (if success then fault_checkpoint_success ev else fault_checkpoint_failure ev)
            ≠ NoFault
          ∧ "Failed to update checkpoint" ∈ logs st'
      end).
Proof.
  unfold update_checkpoint. wp_step.
  destruct (if success then _ else _) as [|e|e] eqn:Hflt.
  - wp_step. wp_step. cbn beta iota. destruct success; wp_steps; simpl; auto.
  - wp_steps. simpl. repeat split; try done. set_solver.
  - wp_steps. simpl. repeat split; try done. set_solver.
Qed.

Lemma update_checkpoint_no_fault (ev : env) (src value : string) (success : bool)
    (msg : option string) (md : option pydict) (st : state) :
  (if success then fault_checkpoint_success ev else fault_checkpoint_failure ev) = NoFault →
  (update_checkpoint ev src value success msg md st).1 = Ok tt.
Proof.
  intros Hflt. unfold update_checkpoint, try_except. rewrite Hflt.
  destruct success; reflexivity.
Qed.

Lemma archive_and_upsert_spec (ev : env) (src : source_kind) (data : list pydict)
    (st : state) :
  data ≠ [] →
  wp (archive_and_upsert ev src data) st (fun r st' =>
    etl_checkpoints (db st') = etl_checkpoints (db st)
    ∧ etl_runs (db st') = etl_runs (db st)
    ∧ master_coins (db st') = master_coins (db st)
    ∧ coin_source_mappings (db st') = coin_source_mappings (db st)
    ∧ (Forall unresolved (normalized_crypto_data (db st)) →
       Forall unresolved (normalized_crypto_data (db st')))
    ∧ records_fetched (locals st') = records_fetched (locals st)
    ∧ status (locals st') = status (locals st)
    ∧ error_message (locals st') = error_message (locals st)
    ∧ match r with
      | Ok _ =>
          tick st' = (tick st + 1 + List.length data)%nat
          ∧ (records_processed (locals st') + records_failed (locals st')
             = records_processed (locals st) + records_failed (locals st)
               + List.length data)%nat
      | Raise _ =>
          (records_processed (locals st') + records_failed (locals st')
           ≤ records_processed (locals st) + records_failed (locals st)
             + List.length data)%nat
      end).
Proof.
  intros Hne. unfold archive_and_upsert. wp_step.
  eapply wp_mono; [apply save_raw_spec |].
  intros [saved|e] st1 (Hcore & Hloc & Htick); cbn beta iota;
    apply core_tables_inv in Hcore; destruct Hcore as (Hc & Hside);
    apply side_tables_inv in Hside; destruct Hside as (Hr & Hn & Hm & Hs);
    [| rewrite Hc, Hr, Hn, Hm, Hs, Hloc; repeat split; auto; lia].
  assert (Htick1 : tick st1 = S (tick st)) by (destruct data; [done | exact Htick]).
  wp_step. wp_step.
  destruct (fault_norm_connect ev); cbn beta iota;
    [rewrite Hc, Hr, Hn, Hm, Hs, Hloc; repeat split; auto; lia |].
  wp_step. wp_step. cbn beta iota. wp_step.
  eapply wp_mono; [apply normalize_loop_spec |].
  intros r st2 (Hdb & Htick2 & Hf & Hst & Hem & Hcnt & tbl' & a' & -> & Hu).
  cbn beta iota.
  wp_step.
  destruct (fault_norm_commit ev); cbn beta iota.
  - rewrite Hdb, Hc, Hr, Hn, Hm, Hs, Hf, Hst, Hem, Hcnt, Hloc. repeat split; auto; lia.
  - destruct a'; simpl.
    + rewrite Hdb, Hc, Hr, Hn, Hm, Hs, Hf, Hst, Hem, Hcnt, Htick2, Htick1, Hloc.
      repeat split; auto; lia.
    + rewrite Hdb, Hc, Hr, Hm, Hs, Hf, Hst, Hem, Hcnt, Htick2, Htick1, Hloc.
      repeat split; auto; try lia. intros Hall. apply Hu. by rewrite Hn.
Qed.

Lemma next_checkpoint_spec (ev : env) (src : source_kind) (st : state) :
  wp (next_checkpoint ev src) st (fun r st' =>
    db st' = db st ∧ locals st' = locals st ∧ tick st' = S (tick st)
    ∧ ∀ v md, r = Ok (v, md) →
        md = Some (run_metadata ev (records_processed (locals st)))
        ∧ (src ≠ CSV → v = isoformat (time_at ev (tick st)))
        ∧ (src = CSV → ∃ last_row,
             (get_last_row_number ev InOrchestrator "csv" st).1 = Ok last_row
             ∧ v = pretty (last_row + Z.of_nat (records_fetched (locals st))))).
Proof.
  unfold next_checkpoint. wp_step. wp_step. cbn beta iota. wp_step.
  destruct src; simpl.
  - wp_steps. simpl. repeat split; try done; intros; by simplify_eq.
  - wp_steps. simpl. repeat split; try done; intros; by simplify_eq.
  - wp_step.
    set (st1 := {| db := db st; tick := S (tick st); logs := logs st; locals := locals st |}).
    pose proof (get_last_row_number_spec ev InOrchestrator "csv" st1) as Hspec.
    pose proof (get_last_row_number_db ev InOrchestrator "csv" st1 st eq_refl) as Hsame.
    unfold wp in Hspec |- *.
    destruct (get_last_row_number ev InOrchestrator "csv" st1) as [[last|e] st2];
      simpl in *; destruct Hspec as (Hdb & Htick & Hloc).
    + rewrite Hloc. repeat split; try done; intros; simplify_eq; try done.
      exists last. by rewrite <- Hsame.
    + repeat split; try done.
Qed.


Ltac absurd_ex :=
  repeat match goal with H : ∃ _, _ |- _ => destruct H end; simplify_eq.

(** The [try] block up to the mark, started with fresh counters. *)
Lemma before_mark_spec (ev : env) (src : source_kind) (st : state) :
  locals st = initial_frame →
  wp (before_mark ev src) st (fun r st' =>
    let n := records_fetched (locals st') in
    let p := records_processed (locals st') in
    let f := records_failed (locals st') in
    etl_checkpoints (db st') = etl_checkpoints (db st)
    ∧ etl_runs (db st') = etl_runs (db st)
    ∧ master_coins (db st') = master_coins (db st)
    ∧ coin_source_mappings (db st') = coin_source_mappings (db st)
    ∧ (Forall unresolved (normalized_crypto_data (db st)) →
       Forall unresolved (normalized_crypto_data (db st')))
    ∧ status (locals st') = "success"
    ∧ error_message (locals st') = None
    ∧ ((∃ e', (fetch ev src st).1 = Raise e') →
       (∃ e, r = Raise e) ∧ n = 0%nat ∧ p = 0%nat ∧ f = 0%nat)
    ∧ match r with
      | Ok None => n = 0%nat ∧ p = 0%nat ∧ f = 0%nat
      | Ok (Some (v, md)) =>
          n ≠ 0%nat ∧ (p + f = n)%nat
          ∧ tick st' = (tick st + 2 + n)%nat
          ∧ md = Some (run_metadata ev p)
          ∧ (src ≠ CSV → v = isoformat (time_at ev (tick st + 1 + n)))
          ∧ (src = CSV → ∃ last_row,
               (get_last_row_number ev InOrchestrator "csv" st).1 = Ok last_row
               ∧ v = pretty (last_row + Z.of_nat n))
      | Raise e => (p + f ≤ n)%nat
      end).
Proof.
  intros Hinit. unfold before_mark. apply wp_bind.
  pose proof (fetch_spec ev src st) as Hf. unfold wp at 1 in Hf. unfold wp at 1.
  destruct (fetch ev src st) as [[raw|e] st1] eqn:Hfetch; simpl in Hf |- *;
    destruct Hf as (Hdb & Htick & Hloc).
  2: { rewrite Hdb, Hloc, Hinit. simpl. repeat split; eauto. }
  wp_step. wp_step. cbn beta iota.
  destruct raw as [|item rest].
  { wp_steps. simpl. rewrite Hdb, Hloc, Hinit. simpl. repeat split; auto; by absurd_ex. }
  set (raw := item :: rest) in *.
  wp_step. eapply wp_mono; [apply archive_and_upsert_spec; done |].
  simpl. intros r st2 (Hc & Hr & Hm & Hs & Hn & Hfe & Hst & Hem & Hres).
  rewrite Hloc, Hinit in *. simpl in *.
  destruct r as [[]|e]; cbn beta iota.
  all: rewrite Hdb in *.
  2: { rewrite Hc, Hr, Hm, Hs, Hfe, Hst, Hem. repeat split; auto; try lia; by absurd_ex. }
  destruct Hres as (Htick2 & Hcnt).
  wp_step. eapply wp_mono; [apply next_checkpoint_spec |].
  intros [[v md]|e] st3 (Hdb3 & Hloc3 & Htick3 & Hval); cbn beta iota.
  - wp_step. rewrite Hdb3, Hloc3, Hc, Hr, Hm, Hs, Hfe, Hst, Hem, Htick3, Htick2, Htick.
    destruct (Hval v md eq_refl) as (Hmd & Hiso & Hcsv).
    repeat split; auto; try lia; try (by absurd_ex).
    + intros Hne. rewrite (Hiso Hne). do 3 f_equal. rewrite Htick2, Htick. simpl. lia.
    + intros Heq. destruct (Hcsv Heq) as (last & Hlast & ->). exists last.
      rewrite Hfe. split; [| done].
      rewrite <- Hlast. apply get_last_row_number_db. congruence.
  - rewrite Hdb3, Hloc3, Hc, Hr, Hm, Hs, Hfe, Hst, Hem.
    repeat split; auto; try lia; by absurd_ex.
Qed.

(** The [except] block records the failure in the counters' frame and
    marks it; it raises exactly when the failure mark does. *)
Lemma except_block_spec (ev : env) (src : source_kind) (e : exn) (st : state) :
  wp (except_block ev src e) st (fun r st' =>
    locals st' = set_failed_status (exn_str e) (locals st)
    ∧ side_tables (db st') = side_tables (db st)
    ∧ match r with
      | Ok _ =>
          fault_checkpoint_failure ev = NoFault
          ∧ tick st' = S (tick st)
          ∧ etl_checkpoints (db st')
            = alter (mark_failure (Some (exn_str e)) (time_at ev (tick st)))
                (source_name src) (etl_checkpoints (db st))
      | Raise _ =>
          etl_checkpoints (db st') = etl_checkpoints (db st)
          ∧ fault_checkpoint_failure ev ≠ NoFault
      end).
Proof.
  unfold except_block. wp_steps.
  eapply wp_mono; [apply update_checkpoint_spec |].
  simpl. intros [[]|e'] st' (Hloc & Hside & Hres); (split; [exact Hloc |]); (split; [exact Hside |]).
  - exact Hres.
  - destruct Hres as (? & ? & ?). auto.
Qed.

Lemma run_prelude_spec (ev : env) (src : source_kind) (st : state) :
  wp (run_prelude ev src) st (fun r st' =>
    r = Ok (time_at ev (tick st))
    ∧ tick st' = S (tick st)
    ∧ locals st' = initial_frame
    ∧ etl_checkpoints (db st') = etl_checkpoints (db st)
    ∧ normalized_crypto_data (db st') = normalized_crypto_data (db st)
    ∧ master_coins (db st') = master_coins (db st)
    ∧ coin_source_mappings (db st') = coin_source_mappings (db st)
    ∧ etl_runs (db st')
      = match fault_run_start ev with
        | None => (etl_runs (db st) ++ [running_row ev src (time_at ev (tick st))])%list
        | Some _ => etl_runs (db st)
        end).
Proof.
  unfold run_prelude, insert_run_start. wp_step. wp_step. cbn beta iota.
  wp_step. wp_step. wp_step. wp_step.
  destruct (fault_run_start ev); wp_steps; simpl; repeat split; reflexivity.
Qed.

Lemma run_epilogue_spec (ev : env) (started_at : datetime) (st : state) :
  wp (run_epilogue ev started_at) st (fun r st' =>
    r = Ok tt
    ∧ locals st' = locals st
    ∧ etl_checkpoints (db st') = etl_checkpoints (db st)
    ∧ normalized_crypto_data (db st') = normalized_crypto_data (db st)
    ∧ master_coins (db st') = master_coins (db st)
    ∧ coin_source_mappings (db st') = coin_source_mappings (db st)
    ∧ etl_runs (db st')
      = match fault_run_complete ev with
        | None =>
            complete_run ev (time_at ev (tick st))
              (duration_seconds_between started_at (time_at ev (tick st))) (locals st)
            <$> etl_runs (db st)
        | Some _ => etl_runs (db st)
        end).
Proof.
  unfold run_epilogue, update_run_completion. wp_step. wp_step. cbn beta iota zeta.
  wp_step. wp_step. wp_step. cbn beta iota. wp_step. wp_step.
  destruct (fault_run_complete ev); wp_steps; simpl; repeat split; reflexivity.
Qed.

(** The [try] block is the part before the mark followed by the mark. *)
Lemma try_block_split (ev : env) (src : source_kind) (st : state) :
  try_block ev src st
  = match before_mark ev src st with
    | (Ok None, st1) => (Ok tt, st1)
    | (Ok (Some (v, md)), st1) => update_checkpoint ev (source_name src) v true None md st1
    | (Raise e, st1) => (Raise e, st1)
    end.
Proof.
  unfold try_block, before_mark. rewrite !bind_run.
  destruct (fetch ev src st) as [[raw|e] st1]; [| reflexivity].
  rewrite !bind_run. simpl.
  destruct raw as [|item rest]; [reflexivity |].
  rewrite !bind_run.
  destruct (archive_and_upsert ev src (item :: rest) _) as [[[]|e] st2]; [| reflexivity].
  rewrite !bind_run.
  destruct (next_checkpoint ev src st2) as [[[v md]|e] st3]; reflexivity.
Qed.

(** A run, by cases on the [try] block. *)
Lemma run_etl_for_source_cases (ev : env) (src : source_kind) (st : state) :
  run_etl_for_source ev src st
  = let st1 := (run_prelude ev src st).2 in
    let started_at := time_at ev (tick st) in
    match try_block ev src st1 with
    | (Ok _, st2) => run_epilogue ev started_at st2
    | (Raise e, st2) =>
        match except_block ev src e st2 with
        | (Ok _, st3) => run_epilogue ev started_at st3
        | (Raise e', st3) => (Raise e', st3)
        end
    end.
Proof.
  unfold run_etl_for_source. rewrite bind_run.
  pose proof (run_prelude_spec ev src st) as Hp. unfold wp in Hp.
  destruct (run_prelude ev src st) as [r st1]. simpl in Hp. destruct Hp as (-> & _).
  simpl. rewrite bind_run. unfold try_except.
  destruct (try_block ev src st1) as [[[]|e] st2]; [reflexivity |].
  destruct (except_block ev src e st2) as [[[]|e'] st3]; reflexivity.
Qed.

(** What [fetch] returns depends on the checkpoint table only. *)
Lemma fetch_db (ev : env) (src : source_kind) (st1 st2 : state) :
  etl_checkpoints (db st1) = etl_checkpoints (db st2) →
  (fetch ev src st1).1 = (fetch ev src st2).1.
Proof.
  intros Hc. destruct src; unfold fetch, try_except; rewrite ?bind_run; unfold lift.
  - destruct (http_items ev CoinPaprika) as [d|e]; [| reflexivity].
    destruct (transform_all _ d); reflexivity.
  - destruct (http_items ev CoinGecko) as [d|e]; [| reflexivity].
    destruct (transform_all _ d); reflexivity.
  - destruct (csv_file ev) as [[df|e]|]; [| reflexivity | reflexivity].
    rewrite ?bind_run. cbn beta iota. rewrite ?bind_run.
    pose proof (get_last_row_number_db ev InFetch "csv" st1 st2 Hc) as Hsame.
    destruct (get_last_row_number ev InFetch "csv" st1) as [[n1|e1] s1],
             (get_last_row_number ev InFetch "csv" st2) as [[n2|e2] s2];
      simpl in Hsame; simplify_eq; reflexivity.
Qed.

(** The clock only moves forward. *)
Lemma update_checkpoint_tick (ev : env) (src value : string) (success : bool)
    (msg : option string) (md : option pydict) (st : state) :
  wp (update_checkpoint ev src value success msg md) st (fun _ st' =>
    (tick st ≤ tick st')%nat).
Proof.
  unfold update_checkpoint. wp_step.
  destruct (if success then _ else _) as [|e|e].
  - wp_step. wp_step. cbn beta iota. destruct success; wp_steps; simpl; lia.
  - wp_steps. simpl. lia.
  - wp_steps. simpl. lia.
Qed.

Lemma archive_and_upsert_tick (ev : env) (src : source_kind) (data : list pydict)
    (st : state) :
  wp (archive_and_upsert ev src data) st (fun _ st' => (tick st ≤ tick st')%nat).
Proof.
  unfold archive_and_upsert. wp_step.
  eapply wp_mono; [apply save_raw_spec |].
  intros r st1 (_ & _ & Htick).
  assert (Hle : (tick st ≤ tick st1)%nat) by (destruct data; lia).
  destruct r as [saved|e]; cbn beta iota; [| exact Hle].
  wp_step. wp_step. destruct (fault_norm_connect ev); cbn beta iota; [exact Hle |].
  wp_step. wp_step. cbn beta iota. wp_step.
  eapply wp_mono; [apply normalize_loop_spec |].
  intros r st2 (_ & Htick2 & _ & _ & _ & _ & tbl' & a' & -> & _). cbn beta iota.
  wp_step. destruct (fault_norm_commit ev); [| destruct a']; simpl; lia.
Qed.

Lemma try_block_tick (ev : env) (src : source_kind) (st : state) :
  wp (try_block ev src) st (fun _ st' => (tick st ≤ tick st')%nat).
Proof.
  unfold try_block. wp_step.
  eapply wp_mono; [apply fetch_spec |].
  intros r st0 (_ & Htick0 & _).
  destruct r as [data|e]; cbn beta iota; [| lia].
  wp_step. wp_step. cbn beta iota.
  destruct data as [|item rest]; [wp_steps; simpl; lia |].
  wp_step. eapply wp_mono; [apply archive_and_upsert_tick |].
  intros r st1 Htick1. simpl in Htick1.
  destruct r as [[]|e]; cbn beta iota; [| lia].
  wp_step. eapply wp_mono; [apply next_checkpoint_spec |].
  intros r st2 (_ & _ & Htick2 & _).
  destruct r as [[v md]|e]; cbn beta iota; [| lia].
  eapply wp_mono; [apply update_checkpoint_tick |].
  intros r st3 Htick3. simpl in *. lia.
Qed.

Ltac use_zeros Hz :=
  edestruct Hz as (? & ? & ? & ?); [eassumption |]; absurd_ex.

(** The [try] block, started with fresh counters. *)
Lemma try_block_spec (ev : env) (src : source_kind) (st : state) :
  locals st = initial_frame →
  wp (try_block ev src) st (fun r st' =>
    let n := records_fetched (locals st') in
    let p := records_processed (locals st') in
    let f := records_failed (locals st') in
    etl_runs (db st') = etl_runs (db st)
    ∧ master_coins (db st') = master_coins (db st)
    ∧ coin_source_mappings (db st') = coin_source_mappings (db st)
    ∧ (Forall unresolved (normalized_crypto_data (db st)) →
       Forall unresolved (normalized_crypto_data (db st')))
    ∧ status (locals st') = "success"
    ∧ error_message (locals st') = None
    ∧ ((∃ e', (fetch ev src st).1 = Raise e') →
       (∃ e, r = Raise e) ∧ n = 0%nat ∧ p = 0%nat ∧ f = 0%nat)
    ∧ match r with
      | Ok _ =>
          (p + f = n)%nat
          ∧ (n = 0%nat → etl_checkpoints (db st') = etl_checkpoints (db st))
          ∧ (n ≠ 0%nat →
             fault_checkpoint_success ev = NoFault
             ∧ ∃ v,
                 etl_checkpoints (db st')
                 = alter (mark_success v (Some (run_metadata ev p))
                            (time_at ev (tick st + 2 + n)))
                     (source_name src) (etl_checkpoints (db st))
                 ∧ (src ≠ CSV → v = isoformat (time_at ev (tick st + 1 + n)))
                 ∧ (src = CSV → ∃ last_row,
                      (get_last_row_number ev InOrchestrator "csv" st).1 = Ok last_row
                      ∧ v = pretty (last_row + Z.of_nat n)))
      | Raise e =>
          (p + f ≤ n)%nat
          ∧ etl_checkpoints (db st') = etl_checkpoints (db st)
      end).
Proof.
  intros Hinit. unfold wp. rewrite try_block_split.
  pose proof (before_mark_spec ev src st Hinit) as Hb. unfold wp in Hb.
  destruct (before_mark ev src st) as [[[[v md]|]|e] st1]; simpl in Hb;
    destruct Hb as (Hc & Hr & Hm & Hs & Hn & Hst & Hem & Hz & Hres).
  - destruct Hres as (Hne & Hcnt & Htick & -> & Hiso & Hcsv).
    pose proof (update_checkpoint_spec ev (source_name src) v true None
                  (Some (run_metadata ev (records_processed (locals st1)))) st1) as Hu.
    unfold wp in Hu.
    destruct (update_checkpoint _ _ _ _ _ _ st1) as [[[]|e] st2]; simpl in Hu |- *;
      destruct Hu as (Hloc & Hside & Hu);
      apply side_tables_inv in Hside; destruct Hside as (Hr2 & Hn2 & Hm2 & Hs2);
      rewrite Hloc, Hr2, Hn2, Hm2, Hs2.
    + destruct Hu as (Hflt & Htick2 & Halter).
      repeat split; auto; try lia; try by use_zeros Hz.
      exists v. rewrite Halter, Hc, Htick. auto.
    + destruct Hu as (Hsame & _). rewrite Hsame.
      repeat split; auto; try lia; by use_zeros Hz.
  - simpl. destruct Hres as (H1 & H2 & H3). rewrite H1, H2, H3 in *.
    repeat split; auto; try done; by use_zeros Hz.
  - simpl. repeat split; auto; try (by use_zeros Hz). eauto.
Qed.

(** A run, from start to end. *)
Lemma run_etl_for_source_spec (ev : env) (src : source_kind) (st : state) :
  let out := run_etl_for_source ev src st in
  let fr := locals out.2 in
  let n := records_fetched fr in
  let p := records_processed fr in
  let f := records_failed fr in
  let C := etl_checkpoints (db st) in
  let C' := etl_checkpoints (db out.2) in
  let runs1 := match fault_run_start ev with
               | None => (etl_runs (db st) ++ [running_row ev src (time_at ev (tick st))])%list
               | Some _ => etl_runs (db st)
               end in
  master_coins (db out.2) = master_coins (db st)
  ∧ coin_source_mappings (db out.2) = coin_source_mappings (db st)
  ∧ (Forall unresolved (normalized_crypto_data (db st)) →
     Forall unresolved (normalized_crypto_data (db out.2)))
  ∧ (p + f ≤ n)%nat
  ∧ ((∃ e', (fetch ev src st).1 = Raise e') →
     status fr = "failed" ∧ n = 0%nat ∧ p = 0%nat ∧ f = 0%nat)
  ∧ match out.1 with
    | Ok _ =>
        ∃ completed,
          etl_runs (db out.2)
          = match fault_run_complete ev with
            | None =>
                complete_run ev completed
                  (duration_seconds_between (time_at ev (tick st)) completed) fr
                <$> runs1
            | Some _ => runs1
            end
    | Raise _ => etl_runs (db out.2) = runs1
    end
  ∧ ((out.1 = Ok tt ∧ status fr = "success" ∧ error_message fr = None
      ∧ (p + f = n)%nat
      ∧ (n = 0%nat → C' = C)
      ∧ (n ≠ 0%nat →
         fault_checkpoint_success ev = NoFault
         ∧ ∃ v,
             C' = alter (mark_success v (Some (run_metadata ev p))
                           (time_at ev (tick st + 3 + n)))
                    (source_name src) C
             ∧ (src ≠ CSV → v = isoformat (time_at ev (tick st + 2 + n)))
             ∧ (src = CSV → ∃ last_row,
                  (get_last_row_number ev InOrchestrator "csv" st).1 = Ok last_row
                  ∧ v = pretty (last_row + Z.of_nat n))))
     ∨ (status fr = "failed"
        ∧ ∃ e, error_message fr = Some (exn_str e)
          ∧ match out.1 with
            | Ok _ =>
                fault_checkpoint_failure ev = NoFault
                ∧ ∃ i, (tick st < i)%nat
                       ∧ C' = alter (mark_failure (Some (exn_str e)) (time_at ev i))
                                (source_name src) C
            | Raise _ => fault_checkpoint_failure ev ≠ NoFault ∧ C' = C
            end)).
Proof.
  cbv zeta. rewrite run_etl_for_source_cases. cbv zeta.
  pose proof (run_prelude_spec ev src st) as Hp. unfold wp in Hp.
  destruct (run_prelude ev src st) as [r0 st1]. simpl in Hp |- *.
  destruct Hp as (_ & Htick1 & Hloc1 & Hc1 & Hn1 & Hm1 & Hs1 & Hr1).
  pose proof (try_block_spec ev src st1 Hloc1) as Ht. unfold wp in Ht.
  pose proof (try_block_tick ev src st1) as Htk. unfold wp in Htk.
  rewrite (fetch_db ev src st st1) by done.
  rewrite (get_last_row_number_db ev InOrchestrator "csv" st st1) by done.
  destruct (try_block ev src st1) as [[[]|e] st2]; simpl in Ht;
    destruct Ht as (Hr2 & Hm2 & Hs2 & Hn2 & Hst2 & Hem2 & Hz2 & Hres2).
  - pose proof (run_epilogue_spec ev (time_at ev (tick st)) st2) as He. unfold wp in He.
    destruct (run_epilogue ev _ st2) as [r3 st3]. simpl in He |- *.
    destruct He as (-> & Hloc3 & Hc3 & Hn3 & Hm3 & Hs3 & Hr3).
    rewrite Hloc3, Hc3, Hn3, Hm3, Hs3, Hr3, Hm2, Hs2, Hr2, Hm1, Hs1, Hr1.
    destruct Hres2 as (Hcnt & Hzero & Hmark).
    split; [done |]. split; [done |]. split; [rewrite <- Hn1; done |].
    split; [lia |]. split; [intros Hraise; by use_zeros Hz2 |]. split; [eauto |].
    left. repeat split; auto.
    + intros Hn0. rewrite <- Hc1. auto.
    + by apply Hmark.
    + destruct Hmark as (_ & v & Halter & Hiso & Hcsv); [assumption |].
      exists v.
      replace (tick st + 3 + records_fetched (locals st2))%nat
        with (tick st1 + 2 + records_fetched (locals st2))%nat by lia.
      replace (tick st + 2 + records_fetched (locals st2))%nat
        with (tick st1 + 1 + records_fetched (locals st2))%nat by lia.
      rewrite Halter, Hc1. repeat split; auto.
  - pose proof (except_block_spec ev src e st2) as Hx. unfold wp in Hx.
    destruct (except_block ev src e st2) as [[[]|e'] st3]; simpl in Hx;
      destruct Hx as (Hloc3 & Hside3 & Hres3);
      apply side_tables_inv in Hside3; destruct Hside3 as (Hr3 & Hn3 & Hm3 & Hs3);
      destruct Hres2 as (Hle & Hc2).
    + pose proof (run_epilogue_spec ev (time_at ev (tick st)) st3) as He. unfold wp in He.
      destruct (run_epilogue ev _ st3) as [r4 st4]. simpl in He |- *.
      destruct He as (-> & Hloc4 & Hc4 & Hn4 & Hm4 & Hs4 & Hr4).
      destruct Hres3 as (Hflt & Htick3 & Halter).
      rewrite Hloc4, Hc4, Hn4, Hm4, Hs4, Hr4, Hloc3, Hn3, Hm3, Hs3, Hr3, Hm2, Hs2, Hr2,
        Hm1, Hs1, Hr1. simpl.
      split; [done |]. split; [done |]. split; [rewrite <- Hn1; done |].
      split; [lia |]. split; [intros Hraise; by destruct (Hz2 Hraise) as (_ & ? & ? & ?) |].
      split; [eauto |].
      right. split; [done |]. exists e. split; [done |]. split; [done |].
      exists (tick st2). split; [simpl in Htk; lia |]. rewrite Halter, Hc2, Hc1.
      reflexivity.
    + simpl. destruct Hres3 as (Hsame & Hflt).
      rewrite Hloc3, Hn3, Hm3, Hs3, Hr3, Hm2, Hs2, Hr2, Hm1, Hs1, Hr1, Hsame, Hc2, Hc1. simpl.
      split; [done |]. split; [done |]. split; [rewrite <- Hn1; done |].
      split; [lia |]. split; [intros Hraise; by destruct (Hz2 Hraise) as (_ & ? & ? & ?) |].
      split; [done |].
      right. split; [done |]. exists e. auto.
Qed.

(* ===================================================================== *)
(** * Properties of [run_etl_for_source] *)
(* ===================================================================== *)

(** Two computations that agree step by step agree. *)
Lemma bind_ext {A B} (m m' : M A) (f f' : A -> M B) (st : state) :
  m st = m' st → (∀ a st1, f a st1 = f' a st1) → (m ≫= f) st = (m' ≫= f') st.
Proof. intros H Hf. rewrite !bind_run, H. destruct (m' st) as [[a|e] st1]; auto. Qed.

Lemma try_ext {A} (m m' : M A) (h h' : exn -> M A) (st : state) :
  m st = m' st → (∀ e st1, h e st1 = h' e st1) →
  try_except m h st = try_except m' h' st.
Proof. intros H Hh. unfold try_except. rewrite H. destruct (m' st) as [[a|e] st1]; auto. Qed.

(** The run up to the success mark does not depend on how that mark fares. *)
Section SuccessFault.

Variables (flt : fault) (ev : env).

Let ev' := with_success_fault flt ev.

Lemma save_raw_csv_loop_indep ts last data :
  ∀ idx tbl aborted count st,
  save_raw_csv_loop ev' ts last data idx tbl aborted count st
  = save_raw_csv_loop ev ts last data idx tbl aborted count st.
Proof.
  induction data as [|item rest IH]; intros idx tbl aborted count st; simpl; [reflexivity |].
  destruct (negb _); [apply IH |].
  apply bind_ext; [reflexivity |]. intros [tbl' c'] st1. apply IH.
Qed.

Lemma save_raw_api_loop_indep src ts data :
  ∀ idx tbl aborted count st,
  save_raw_api_loop ev' src ts data idx tbl aborted count st
  = save_raw_api_loop ev src ts data idx tbl aborted count st.
Proof.
  induction data as [|item rest IH]; intros idx tbl aborted count st; simpl; [reflexivity |].
  destruct (negb _); [apply IH |].
  apply bind_ext; [reflexivity |]. intros [tbl' c'] st1. apply IH.
Qed.

Lemma normalize_loop_indep src items :
  ∀ idx tbl aborted st,
  normalize_loop ev' src items idx tbl aborted st
  = normalize_loop ev src items idx tbl aborted st.
Proof.
  induction items as [|item rest IH]; intros idx tbl aborted st; simpl; [reflexivity |].
  apply bind_ext; [reflexivity |]. intros [tbl' a'] st1. apply IH.
Qed.

Lemma save_raw_indep src data st :
  save_raw ev' src data st = save_raw ev src data st.
Proof.
  destruct data as [|item rest]; [reflexivity |].
  unfold save_raw. apply bind_ext; [reflexivity |]. intros ts st1.
  destruct src.
  - apply try_ext; [| reflexivity].
    apply bind_ext; [reflexivity |]. intros [] st2.
    apply bind_ext; [reflexivity |]. intros d st3.
    apply bind_ext; [apply save_raw_api_loop_indep | reflexivity].
  - apply try_ext; [| reflexivity].
    apply bind_ext; [reflexivity |]. intros [] st2.
    apply bind_ext; [reflexivity |]. intros d st3.
    apply bind_ext; [apply save_raw_api_loop_indep | reflexivity].
  - apply bind_ext; [reflexivity |]. intros last st2.
    apply try_ext; [| reflexivity].
    apply bind_ext; [reflexivity |]. intros [] st3.
    apply bind_ext; [reflexivity |]. intros d st4.
    apply bind_ext; [apply save_raw_csv_loop_indep | reflexivity].
Qed.

Lemma archive_and_upsert_indep src data st :
  archive_and_upsert ev' src data st = archive_and_upsert ev src data st.
Proof.
  unfold archive_and_upsert.
  apply bind_ext; [apply save_raw_indep |]. intros saved st1.
  apply bind_ext; [reflexivity |]. intros [] st2.
  apply bind_ext; [reflexivity |]. intros d st3.
  apply bind_ext; [apply normalize_loop_indep | reflexivity].
Qed.

Lemma before_mark_indep src st :
  before_mark ev' src st = before_mark ev src st.
Proof.
  unfold before_mark.
  apply bind_ext; [by destruct src |]. intros raw st1.
  apply bind_ext; [reflexivity |]. intros [] st2.
  destruct raw as [|item rest]; [reflexivity |].
  apply bind_ext; [apply archive_and_upsert_indep |]. intros [] st3.
  apply bind_ext; [by destruct src | reflexivity].
Qed.

End SuccessFault.

Lemma fmap_alter_frame {A B} (g : A -> B) (h : A -> A) (k s : string) (m : gmap string A) :
  (∀ a, g (h a) = g a) → g <$> (alter h k m !! s) = g <$> (m !! s).
Proof.
  intros Hg. destruct (decide (k = s)) as [->|Hne].
  - rewrite lookup_alter_eq. destruct (m !! s); simpl; [by rewrite Hg | done].
  - by rewrite lookup_alter_ne.
Qed.

(** What [fetch] of an HTTP adapter returns does not depend on the store:
    it never reads the checkpoint. *)
Lemma http_fetch_ignores_store (ev : env) (src : source_kind) (st1 st2 : state) :
  src ≠ CSV → (fetch ev src st1).1 = (fetch ev src st2).1.
Proof.
  intros Hsrc. destruct src; [| | contradiction];
    unfold fetch, try_except; rewrite ?bind_run; unfold lift.
  - destruct (http_items ev CoinPaprika) as [d|e]; [| reflexivity].
    destruct (transform_all _ d); reflexivity.
  - destruct (http_items ev CoinGecko) as [d|e]; [| reflexivity].
    destruct (transform_all _ d); reflexivity.
Qed.

(** C3, amended: a run that ends in status failed leaves, in every row of
    [etl_checkpoints], the value, the success timestamp and the metadata as
    they were, creates and deletes no row, and touches no row of another
    source; when the failure mark itself does not raise, the row of the
    source gets a reading of the clock taken during the run as its failure
    timestamp (and as [updated_at]) and the text of the exception as its
    failure reason. The next run of an HTTP source does not resume from the
    row: from the store this run leaves it fetches what it fetches from any
    store. *)
Theorem failed_run_keeps_checkpoint_value (ev : env) (src : source_kind) (st : state) :
  let out := run_etl_for_source ev src st in
  let C := etl_checkpoints (db st) in
  let C' := etl_checkpoints (db out.2) in
  status (locals out.2) = "failed" →
  (∀ s, checkpoint_value <$> (C' !! s) = checkpoint_value <$> (C !! s))
  ∧ (∀ s, last_success_at <$> (C' !! s) = last_success_at <$> (C !! s))
  ∧ (∀ s, metadata <$> (C' !! s) = metadata <$> (C !! s))
  ∧ (∀ s, s ≠ source_name src → C' !! s = C !! s)
  ∧ dom C' = dom C
  ∧ (out.1 = Ok tt →
     ∀ r, C !! source_name src = Some r →
          ∃ r' i, C' !! source_name src = Some r'
                  ∧ (tick st < i)%nat
                  ∧ last_failure_at r' = Some (time_at ev i)
                  ∧ updated_at r' = Some (time_at ev i)
                  ∧ failure_reason r' = error_message (locals out.2)
                  ∧ is_Some (error_message (locals out.2)))
  ∧ (src ≠ CSV → ∀ ev' st', (fetch ev' src out.2).1 = (fetch ev' src st').1).
Proof.
  cbv zeta. intros Hfailed.
  destruct (run_etl_for_source_spec ev src st) as (_ & _ & _ & _ & _ & _ & Hcases).
  cbv zeta in Hcases.
  destruct Hcases as [(_ & Hs & _) | (_ & e & Hmsg & Hout)];
    [rewrite Hs in Hfailed; discriminate |].
  assert (Hnext : src ≠ CSV → ∀ ev' st',
            (fetch ev' src (run_etl_for_source ev src st).2).1 = (fetch ev' src st').1)
    by (intros Hsrc ev' st'; by apply http_fetch_ignores_store).
  destruct (run_etl_for_source ev src st) as [[[]|e'] st']; simpl in *.
  - destruct Hout as (_ & i & Hi & ->).
    repeat split; intros; try done.
    + by apply fmap_alter_frame.
    + by apply fmap_alter_frame.
    + by apply fmap_alter_frame.
    + by rewrite lookup_alter_ne.
    + apply dom_alter_L.
    + match goal with H : _ !! source_name src = Some ?r |- _ =>
        exists (mark_failure (Some (exn_str e)) (time_at ev i) r), i;
        rewrite lookup_alter_eq, H, Hmsg
      end.
      repeat split; eauto.
    + by apply Hnext.
  - destruct Hout as (_ & ->). repeat split; intros; try done. by apply Hnext.
Qed.




(** C2, amended: a run of one of the two HTTP sources that succeeds with
    at least one record marks its checkpoint with the ISO-8601 text of the
    clock reading taken after the normalize loop has committed (the reading
    number 2 + fetched after the one that gave [started_at]): the row of the
    source gets that value, the time of the mark as its success timestamp
    and the metadata of the run, and keeps its failure columns; no other
    row is touched and no row is created. *)
Theorem success_checkpoint_value (ev : env) (src : source_kind) (st : state) :
  let out := run_etl_for_source ev src st in
  let n := records_fetched (locals out.2) in
  let p := records_processed (locals out.2) in
  let C := etl_checkpoints (db st) in
  let C' := etl_checkpoints (db out.2) in
  src ≠ CSV →
  status (locals out.2) = "success" →
  n ≠ 0%nat →
  (∀ r, C !! source_name src = Some r →
        ∃ r', C' !! source_name src = Some r'
              ∧ checkpoint_value r' = Some (isoformat (time_at ev (tick st + 2 + n)))
              ∧ last_success_at r' = Some (time_at ev (tick st + 3 + n))
              ∧ metadata r' = Some (run_metadata ev p)
              ∧ last_failure_at r' = last_failure_at r
              ∧ failure_reason r' = failure_reason r)
  ∧ (∀ s, s ≠ source_name src → C' !! s = C !! s)
  ∧ dom C' = dom C.
Proof.
  cbv zeta. intros Hsrc Hs Hn.
  destruct (run_etl_for_source_spec ev src st) as (_ & _ & _ & _ & _ & _ & Hcases).
  cbv zeta in Hcases.
  destruct Hcases as [(_ & _ & _ & _ & _ & Hmark) | (Hf & _)];
    [| rewrite Hf in Hs; discriminate].
  destruct (Hmark Hn) as (_ & v & -> & Hiso & _). rewrite (Hiso Hsrc).
  split; [| split].
  - intros r Hr. eexists. rewrite lookup_alter_eq, Hr. split; [reflexivity |].
    repeat split; reflexivity.
  - intros s Hne. by rewrite lookup_alter_ne.
  - apply dom_alter_L.
Qed.

(** No run writes to [master_coins] or [coin_source_mappings], and a run
    adds only rows without a master coin. *)
Lemma run_never_resolves (ev : env) (src : source_kind) (st : state) :
  let out := run_etl_for_source ev src st in
  master_coins (db out.2) = master_coins (db st)
  ∧ coin_source_mappings (db out.2) = coin_source_mappings (db st)
  ∧ (Forall unresolved (normalized_crypto_data (db st)) →
     Forall unresolved (normalized_crypto_data (db out.2))).
Proof.
  destruct (run_etl_for_source_spec ev src st) as (H1 & H2 & H3 & _). auto.
Qed.

Lemma update_checkpoint_success_fault (ev : env) (src value : string)
    (md : option pydict) (st : state) (e : exn) :
  fault_checkpoint_success ev = FailAtConnect e ∨ fault_checkpoint_success ev = FailAtExecute e →
  ∃ st', update_checkpoint ev src value true None md st = (Raise e, st')
         ∧ locals st' = locals st ∧ db st' = db st
         ∧ "Failed to update checkpoint" ∈ logs st'.
Proof.
  intros [H|H]; unfold update_checkpoint, try_except; simpl; rewrite H; simpl;
    eexists; (split; [reflexivity |]); simpl; repeat split; set_solver.
Qed.

Lemma logs_grow_epilogue (ev : env) (t : datetime) (st : state) (msg : string) :
  msg ∈ logs st → msg ∈ logs (run_epilogue ev t st).2.
Proof.
  intros H. unfold run_epilogue, update_run_completion, try_except.
  rewrite !bind_run. simpl. rewrite !bind_run. simpl.
  destruct (fault_run_complete ev); simpl; set_solver.
Qed.

Lemma logs_grow_except (ev : env) (src : source_kind) (e : exn) (st : state) (msg : string) :
  msg ∈ logs st → msg ∈ logs (except_block ev src e st).2.
Proof.
  intros H. unfold except_block, update_checkpoint, try_except.
  rewrite !bind_run. simpl.
  destruct (fault_checkpoint_failure ev); simpl; set_solver.
Qed.

(** The run whose success mark raises, against the same run with a working
    checkpoint store: the frame, the log and the run row. *)
Lemma failed_success_mark_outcome
    (ev : env) (src : source_kind) (st : state) (e : exn) (flt : fault) :
  let good := run_etl_for_source (with_success_fault NoFault ev) src st in
  let bad := run_etl_for_source (with_success_fault flt ev) src st in
  flt = FailAtConnect e ∨ flt = FailAtExecute e →
  fault_checkpoint_failure ev = NoFault →
  status (locals good.2) = "success" →
  records_fetched (locals good.2) ≠ 0%nat →
  bad.1 = Ok tt
  ∧ status (locals bad.2) = "failed"
  ∧ error_message (locals bad.2) = Some (exn_str e)
  ∧ records_fetched (locals bad.2) = records_fetched (locals good.2)
  ∧ records_processed (locals bad.2) = records_processed (locals good.2)
  ∧ records_failed (locals bad.2) = records_failed (locals good.2)
  ∧ "Failed to update checkpoint" ∈ logs bad.2
  ∧ ∃ completed,
      etl_runs (db bad.2)
      = match fault_run_complete ev with
        | None =>
            complete_run ev completed
              (duration_seconds_between (time_at ev (tick st)) completed) (locals bad.2)
            <$> match fault_run_start ev with
                | None =>
                    (etl_runs (db st) ++ [running_row ev src (time_at ev (tick st))])%list
                | Some _ => etl_runs (db st)
                end
        | Some _ =>
            match fault_run_start ev with
            | None => (etl_runs (db st) ++ [running_row ev src (time_at ev (tick st))])%list
            | Some _ => etl_runs (db st)
            end
        end.
Proof.
  cbv zeta. intros Hflt Hfail.
  set (evg := with_success_fault NoFault ev). set (evb := with_success_fault flt ev).
  remember (run_etl_for_source evg src st) as good eqn:Hgood.
  remember (run_etl_for_source evb src st) as bad eqn:Hbad.
  rewrite run_etl_for_source_cases in Hgood, Hbad. cbv zeta in Hgood, Hbad.
  change (run_prelude evg src st) with (run_prelude ev src st) in Hgood.
  change (run_prelude evb src st) with (run_prelude ev src st) in Hbad.
  change (time_at evg) with (time_at ev) in Hgood.
  change (time_at evb) with (time_at ev) in Hbad.
  pose proof (run_prelude_spec ev src st) as Hp. unfold wp in Hp.
  destruct (run_prelude ev src st) as [r0 st1]. simpl in Hp, Hgood, Hbad.
  destruct Hp as (_ & Htick1 & Hloc1 & Hc1 & Hn1 & Hm1 & Hs1 & Hr1).
  rewrite try_block_split in Hgood, Hbad.
  unfold evg in Hgood at 1. unfold evb in Hbad at 1.
  rewrite before_mark_indep in Hgood, Hbad.
  pose proof (before_mark_spec ev src st1 Hloc1) as Hb. unfold wp in Hb.
  destruct (before_mark ev src st1) as [[[[v md]|]|e0] st2]; simpl in Hb;
    destruct Hb as (Hc2 & Hr2 & Hm2 & Hs2 & Hn2 & Hst2 & Hem2 & Hz2 & Hres2).
  - (* the mark is reached *)
    pose proof (update_checkpoint_spec evg (source_name src) v true None md st2) as Hg.
    unfold wp in Hg.
    destruct (update_checkpoint evg _ _ _ _ _ st2) as [[[]|eg] stg]; simpl in Hg;
      destruct Hg as (Hlocg & _ & Hg); [| by destruct Hg as (_ & ? & _)].
    destruct (update_checkpoint_success_fault evb (source_name src) v md st2 e)
      as (stb & Hupd & Hlocb & Hdbb & Hlogb); [exact Hflt |].
    rewrite Hupd in Hbad.
    pose proof (run_epilogue_spec evg (time_at ev (tick st)) stg) as Heg. unfold wp in Heg.
    destruct (run_epilogue evg _ stg) as [rg stg']. simpl in Heg.
    destruct Heg as (_ & Hlocg' & _).
    pose proof (except_block_spec evb src e stb) as Hx. unfold wp in Hx.
    pose proof (logs_grow_except evb src e stb _ Hlogb) as Hlogx.
    destruct (except_block evb src e stb) as [[[]|ex] stx]; simpl in Hx, Hlogx;
      destruct Hx as (Hlocx & Hsidex & Hx); [| by destruct Hx as (_ & ?)].
    apply side_tables_inv in Hsidex. destruct Hsidex as (Hrx & _).
    pose proof (run_epilogue_spec evb (time_at ev (tick st)) stx) as Heb. unfold wp in Heb.
    pose proof (logs_grow_epilogue evb (time_at ev (tick st)) stx _ Hlogx) as Hloge.
    destruct (run_epilogue evb _ stx) as [rb stb']. simpl in Heb, Hloge.
    destruct Heb as (-> & Hlocb' & _ & _ & _ & _ & Hrb).
    subst good bad. simpl. intros _ _.
    rewrite Hlocb', Hlocx, Hlocb, Hlocg', Hlocg. simpl.
    repeat split; auto.
    eexists. rewrite Hrb. simpl. rewrite Hrx, Hdbb, Hr2, Hr1, Hlocx, Hlocb.
    reflexivity.
  - (* empty batch: the run under the working store has fetched nothing *)
    pose proof (run_epilogue_spec evg (time_at ev (tick st)) st2) as Heg. unfold wp in Heg.
    destruct (run_epilogue evg _ st2) as [rg stg']. simpl in Heg.
    destruct Heg as (_ & Hlocg' & _).
    subst good. simpl. rewrite Hlocg'.
    destruct Hres2 as (Hn0 & _). intros _ Hne. by rewrite Hn0 in Hne.
  - (* the run under the working store fails before the mark *)
    pose proof (except_block_spec evg src e0 st2) as Hx. unfold wp in Hx.
    destruct (except_block evg src e0 st2) as [[[]|ex] stx]; simpl in Hx;
      destruct Hx as (Hlocx & _).
    + pose proof (run_epilogue_spec evg (time_at ev (tick st)) stx) as Heg. unfold wp in Heg.
      destruct (run_epilogue evg _ stx) as [rg stg']. simpl in Heg.
      destruct Heg as (_ & Hlocg' & _).
      subst good. simpl. rewrite Hlocg', Hlocx. simpl. discriminate.
    + subst good. simpl. rewrite Hlocx. simpl. discriminate.
Qed.

(** C4, amended: take a run that, with a working checkpoint store, succeeds
    with at least one record. If instead its success mark raises [e] (and
    the failure mark works), the exception is logged, the run ends normally
    with status failed and [str(e)] as its error message, with the same
    three counters; the failure mark is made: the row of the source gets a
    reading of the clock taken during the run as its failure timestamp and
    [str(e)] as its failure reason, its value, success timestamp and
    metadata as they were; and the completion statement is still issued on
    [etl_runs] with these values. *)
Theorem failed_success_mark_is_recorded_as_failure
    (ev : env) (src : source_kind) (st : state) (e : exn) (flt : fault) :
  let good := run_etl_for_source (with_success_fault NoFault ev) src st in
  let bad := run_etl_for_source (with_success_fault flt ev) src st in
  flt = FailAtConnect e ∨ flt = FailAtExecute e →
  fault_checkpoint_failure ev = NoFault →
  status (locals good.2) = "success" →
  records_fetched (locals good.2) ≠ 0%nat →
  bad.1 = Ok tt
  ∧ status (locals bad.2) = "failed"
  ∧ error_message (locals bad.2) = Some (exn_str e)
  ∧ records_fetched (locals bad.2) = records_fetched (locals good.2)
  ∧ records_processed (locals bad.2) = records_processed (locals good.2)
  ∧ records_failed (locals bad.2) = records_failed (locals good.2)
  ∧ "Failed to update checkpoint" ∈ logs bad.2
  ∧ (∀ r, etl_checkpoints (db st) !! source_name src = Some r →
          ∃ r' i, etl_checkpoints (db bad.2) !! source_name src = Some r'
                  ∧ (tick st < i)%nat
                  ∧ last_failure_at r' = Some (time_at ev i)
                  ∧ failure_reason r' = Some (exn_str e)
                  ∧ checkpoint_value r' = checkpoint_value r
                  ∧ last_success_at r' = last_success_at r
                  ∧ metadata r' = metadata r)
  ∧ (∀ s, s ≠ source_name src →
          etl_checkpoints (db bad.2) !! s = etl_checkpoints (db st) !! s)
  ∧ ∃ completed,
      etl_runs (db bad.2)
      = match fault_run_complete ev with
        | None =>
            complete_run ev completed
              (duration_seconds_between (time_at ev (tick st)) completed) (locals bad.2)
            <$> match fault_run_start ev with
                | None =>
                    (etl_runs (db st) ++ [running_row ev src (time_at ev (tick st))])%list
                | Some _ => etl_runs (db st)
                end
        | Some _ =>
            match fault_run_start ev with
            | None => (etl_runs (db st) ++ [running_row ev src (time_at ev (tick st))])%list
            | Some _ => etl_runs (db st)
            end
        end.
Proof.
  cbv zeta. intros Hflt Hfail Hgood Hn.
  destruct (failed_success_mark_outcome ev src st e flt Hflt Hfail Hgood Hn)
    as (Hok & Hst & Hmsg & Hf & Hp & Hfa & Hlog & Hruns).
  do 7 (split; [assumption |]).
  destruct (run_etl_for_source_spec (with_success_fault flt ev) src st)
    as (_ & _ & _ & _ & _ & _ & Hcases).
  cbv zeta in Hcases.
  destruct Hcases as [(_ & Hs & _) | (_ & e' & Hmsg' & Hout)];
    [rewrite Hs in Hst; discriminate |].
  rewrite Hok in Hout. destruct Hout as (_ & i & Hi & Hc).
  rewrite Hmsg in Hmsg'. injection Hmsg' as Hmsg'.
  change (time_at (with_success_fault flt ev)) with (time_at ev) in Hc.
  rewrite Hc, <- Hmsg'.
  split; [| split; [| exact Hruns]].
  - intros r Hr. eexists _, i. rewrite lookup_alter_eq, Hr.
    split; [reflexivity |]. repeat split; auto.
  - intros s Hne. by rewrite lookup_alter_ne.
Qed.

(* ===================================================================== *)
(** * The entity resolver *)
(* ===================================================================== *)

(** [_create_master_coin] leaves the mappings alone. *)
Lemma _create_master_coin_mappings (new_id : Z) (symbol name : string) (d : database) :
  coin_source_mappings (_create_master_coin new_id symbol name d).2 = coin_source_mappings d.
Proof. unfold _create_master_coin. destruct (master_coins d !! _); reflexivity. Qed.

(** After [resolve_entity], the key is mapped, in the store and in the
    cache, to the id that is returned. *)
Lemma resolve_entity_maps (sim : string -> string -> Qc) (new_id : Z)
    (source source_id symbol name : string) (rs : resolver_state) :
  let out := resolve_entity sim new_id source source_id symbol name rs in
  cache_consistent rs →
  coin_source_mappings (store out.2) !! (source, source_id) = Some out.1
  ∧ _source_mapping_cache out.2 !! (source, source_id) = Some out.1
  ∧ cache_consistent out.2.
Proof.
  cbv zeta. intros Hcons. unfold resolve_entity, get_or_create_master_coin.
  destruct (_source_mapping_cache rs !! (source, source_id)) as [cached|] eqn:Hcache.
  { simpl. auto. }
  destruct (coin_source_mappings (store rs) !! (source, source_id)) as [mapped|] eqn:Hmap.
  { simpl. split; [exact Hmap |]. split; [apply lookup_insert_eq |].
    intros k v. simpl. destruct (decide ((source, source_id) = k)) as [<-|Hne].
    - rewrite lookup_insert_eq. by intros [= <-].
    - rewrite lookup_insert_ne by done. apply Hcons. }
  set (found := match _find_master_coin_by_symbol sim symbol name (store rs) with
                | Some f => if f =? 0 then _create_master_coin new_id symbol name (store rs)
                            else (f, store rs)
                | None => _create_master_coin new_id symbol name (store rs)
                end).
  assert (Hsame : coin_source_mappings found.2 = coin_source_mappings (store rs)).
  { unfold found. destruct (_find_master_coin_by_symbol _ _ _ _) as [f|];
      [destruct (f =? 0) |]; simpl; auto using _create_master_coin_mappings. }
  destruct found as [id d] eqn:Hfound. simpl in Hsame |- *.
  rewrite Hsame, Hmap.
  split; [apply lookup_insert_eq |]. split; [apply lookup_insert_eq |].
  intros k v. simpl. rewrite Hsame, Hmap.
  destruct (decide ((source, source_id) = k)) as [<-|Hne].
  - rewrite !lookup_insert_eq. done.
  - rewrite !lookup_insert_ne by done. apply Hcons.
Qed.

(** Resolver stability: a second call for the same key returns the same id
    and changes nothing. *)
Lemma resolve_entity_stable (sim sim' : string -> string -> Qc) (new_id new_id' : Z)
    (source source_id symbol name symbol' name' : string) (rs : resolver_state) :
  let first := resolve_entity sim new_id source source_id symbol name rs in
  cache_consistent rs →
  resolve_entity sim' new_id' source source_id symbol' name' first.2 = (first.1, first.2).
Proof.
  cbv zeta. intros Hcons.
  destruct (resolve_entity_maps sim new_id source source_id symbol name rs Hcons)
    as (_ & Hcache & _).
  unfold resolve_entity at 1, get_or_create_master_coin at 1. by rewrite Hcache.
Qed.

(* ===================================================================== *)
(** * The runs of the scenarios *)
(* ===================================================================== *)

(** C1: the quiet CoinPaprika run upserts its record with a null
    [master_coin_id], and leaves [coin_source_mappings] and [master_coins]
    empty: the key [(coinpaprika, btc-bitcoin)] of the persisted row maps to
    no master coin. The orchestrator never calls the entity resolver; had
    [resolve_entity] been called on the store the run leaves, the key would
    map to the id it returns. *)
Theorem orchestrator_persists_null_master_coin_id :
  let out := run_etl_for_source quiet_env CoinPaprika (start_state seeded_database) in
  out.1 = Ok tt
  ∧ status (locals out.2) = "success"
  ∧ (fun r => (col_source r, col_source_id r, col_master_coin_id r))
      <$> normalized_crypto_data (db out.2)
    = [(DbStr "coinpaprika", DbStr "btc-bitcoin", DbNull)]
  ∧ coin_source_mappings (db out.2) !! ("coinpaprika", "btc-bitcoin") = None
  ∧ coin_source_mappings (db out.2) = ∅
  ∧ master_coins (db out.2) = ∅
  ∧ ∀ (sim : string -> string -> Qc) (new_id : Z),
      let resolved :=
        resolve_entity sim new_id "coinpaprika" "btc-bitcoin" "BTC" "Bitcoin"
          {| _source_mapping_cache := ∅; store := db out.2 |} in
      coin_source_mappings (store resolved.2) !! ("coinpaprika", "btc-bitcoin")
      = Some resolved.1.
Proof.
  cbv zeta. do 6 (split; [vm_compute; reflexivity |]).
  intros sim new_id.
  refine (proj1 (resolve_entity_maps sim new_id "coinpaprika" "btc-bitcoin" "BTC" "Bitcoin"
                   {| _source_mapping_cache := ∅; store := _ |} _)).
  intros k v. simpl. rewrite lookup_empty. discriminate.
Qed.

(** C2, as stated, fails for the HTTP sources: the quiet CoinPaprika run
    starts at 01:02:00 and marks its checkpoint with 01:02:03, the time
    read after the loop. *)
Lemma http_checkpoint_is_not_the_start_time :
  let out := run_etl_for_source quiet_env CoinPaprika (start_state seeded_database) in
  status (locals out.2) = "success"
  ∧ records_fetched (locals out.2) = 1%nat
  ∧ ∃ (started_at : datetime) (v : string),
      (fun r => (run_status r, run_started_at r)) <$> etl_runs (db out.2)
      = [("success", started_at)]
      ∧ checkpoint_value <$> (etl_checkpoints (db out.2) !! "coinpaprika") = Some (Some v)
      ∧ isoformat started_at = "2026-11-04T01:02:00"
      ∧ v = "2026-11-04T01:02:03"
      ∧ v ≠ isoformat started_at.
Proof.
  cbv zeta. split; [vm_compute; reflexivity |]. split; [vm_compute; reflexivity |].
  eexists _, _. split; [vm_compute; reflexivity |]. split; [vm_compute; reflexivity |].
  split; [vm_compute; reflexivity |]. split; [reflexivity |]. vm_compute. discriminate.
Qed.

Lemma success_checkpoint_value_witness :
  let st := start_state seeded_database in
  let marked src :=
    let out := run_etl_for_source quiet_env src st in
    src ≠ CSV
    ∧ status (locals out.2) = "success"
    ∧ records_fetched (locals out.2) ≠ 0%nat
    ∧ checkpoint_value <$> (etl_checkpoints (db out.2) !! source_name src)
      = Some (Some (isoformat
                      (time_at quiet_env (tick st + 2 + records_fetched (locals out.2))))) in
  marked CoinPaprika ∧ marked CoinGecko.
Proof.
  cbv zeta. split.
  - assert (Hsrc : CoinPaprika ≠ CSV) by discriminate.
    assert (Hs : status (locals (run_etl_for_source quiet_env CoinPaprika
                                   (start_state seeded_database)).2) = "success")
      by (vm_compute; reflexivity).
    assert (Hn : records_fetched (locals (run_etl_for_source quiet_env CoinPaprika
                                            (start_state seeded_database)).2) ≠ 0%nat)
      by (vm_compute; discriminate).
    destruct (success_checkpoint_value quiet_env CoinPaprika (start_state seeded_database)
                Hsrc Hs Hn) as (Hrow & _).
    destruct (Hrow (checkpoint_with None) eq_refl) as (r' & Hr' & Hv & _).
    split; [exact Hsrc |]. split; [exact Hs |]. split; [exact Hn |].
    rewrite Hr'. exact (f_equal Some Hv).
  - assert (Hsrc : CoinGecko ≠ CSV) by discriminate.
    assert (Hs : status (locals (run_etl_for_source quiet_env CoinGecko
                                   (start_state seeded_database)).2) = "success")
      by (vm_compute; reflexivity).
    assert (Hn : records_fetched (locals (run_etl_for_source quiet_env CoinGecko
                                            (start_state seeded_database)).2) ≠ 0%nat)
      by (vm_compute; discriminate).
    destruct (success_checkpoint_value quiet_env CoinGecko (start_state seeded_database)
                Hsrc Hs Hn) as (Hrow & _).
    destruct (Hrow (checkpoint_with None) eq_refl) as (r' & Hr' & Hv & _).
    split; [exact Hsrc |]. split; [exact Hs |]. split; [exact Hn |].
    rewrite Hr'. exact (f_equal Some Hv).
Defined.

(** The row count read back is 0 whenever it is read back at all, so the
    CSV value of a successful run is the number of records it fetched. *)
Lemma get_last_row_number_is_zero (ev : env) (s : site) (src : string) (st : state) (n : Z) :
  (get_last_row_number ev s src st).1 = Ok n → n = 0.
Proof.
  intros H. destruct (fault_get_checkpoint ev s) as [e|] eqn:Hf.
  - unfold get_last_row_number, get_checkpoint in H. rewrite Hf in H.
    rewrite !bind_run in H. injection H as <-. reflexivity.
  - destruct (etl_checkpoints (db st) !! src) as [r|] eqn:Hr.
    + rewrite (get_last_row_number_of_row ev s src st r Hf Hr) in H. discriminate H.
    + rewrite (get_last_row_number_no_row ev s src st Hf Hr) in H. by injection H as <-.
Qed.

(** C3, as stated, fails in its last clause. A CoinPaprika run succeeds
    and advances the checkpoint to 01:02:03; the next run fails at its
    success mark and leaves that value; the run after it does not resume
    from the value: it fetches the record of the first run again, as it
    does from a store that holds no checkpoint at all, and processes it
    again. *)
Lemma next_run_starts_over :
  let prior := run_etl_for_source quiet_env CoinPaprika (start_state seeded_database) in
  let failed := run_etl_for_source lost_success_mark_env CoinPaprika prior.2 in
  let next := run_etl_for_source quiet_env CoinPaprika failed.2 in
  status (locals prior.2) = "success"
  ∧ status (locals failed.2) = "failed"
  ∧ checkpoint_value <$> (etl_checkpoints (db prior.2) !! "coinpaprika")
    = Some (Some "2026-11-04T01:02:03")
  ∧ checkpoint_value <$> (etl_checkpoints (db failed.2) !! "coinpaprika")
    = Some (Some "2026-11-04T01:02:03")
  ∧ (fetch quiet_env CoinPaprika failed.2).1
    = (fetch quiet_env CoinPaprika (start_state empty_database)).1
  ∧ (fetch quiet_env CoinPaprika failed.2).1
    = (fetch quiet_env CoinPaprika (start_state seeded_database)).1
  ∧ status (locals next.2) = "success"
  ∧ records_fetched (locals next.2) = records_fetched (locals prior.2)
  ∧ records_processed (locals next.2) = 1%nat.
Proof. cbv zeta. repeat split; vm_compute; reflexivity. Qed.

Lemma failed_run_keeps_checkpoint_value_witness :
  let st := start_state seeded_database in
  let out := run_etl_for_source lost_success_mark_env CoinPaprika st in
  let C := etl_checkpoints (db st) in
  let C' := etl_checkpoints (db out.2) in
  status (locals out.2) = "failed"
  ∧ (∀ s, checkpoint_value <$> (C' !! s) = checkpoint_value <$> (C !! s))
  ∧ (∃ r' i, C' !! "coinpaprika" = Some r'
             ∧ last_failure_at r' = Some (clock i)
             ∧ failure_reason r' = Some "connection lost")
  ∧ (∀ ev' st', (fetch ev' CoinPaprika out.2).1 = (fetch ev' CoinPaprika st').1).
Proof.
  cbv zeta.
  assert (Hs : status (locals (run_etl_for_source lost_success_mark_env CoinPaprika
                                 (start_state seeded_database)).2) = "failed")
    by (vm_compute; reflexivity).
  assert (Hok : (run_etl_for_source lost_success_mark_env CoinPaprika
                   (start_state seeded_database)).1 = Ok tt)
    by (vm_compute; reflexivity).
  assert (Hmsg : error_message (locals (run_etl_for_source lost_success_mark_env CoinPaprika
                                          (start_state seeded_database)).2)
                 = Some "connection lost")
    by (vm_compute; reflexivity).
  assert (Hsrc : CoinPaprika ≠ CSV) by discriminate.
  destruct (failed_run_keeps_checkpoint_value lost_success_mark_env CoinPaprika
              (start_state seeded_database) Hs) as (H1 & _ & _ & _ & _ & H6 & H7).
  destruct (H6 Hok (checkpoint_with None) eq_refl) as (r' & i & Hr' & _ & Hat & _ & Hwhy & _).
  split; [exact Hs |]. split; [exact H1 |]. split; [| exact (H7 Hsrc)].
  exists r', i. split; [exact Hr' |]. split; [exact Hat |]. by rewrite Hwhy, Hmsg.
Defined.

(** The failed CSV run of the witness, column by column: the cursor still
    stands at 2 and the failure is recorded. *)
Lemma failed_csv_run_row :
  let out := run_etl_for_source quiet_env CSV (start_state seeded_database) in
  (fun r => (checkpoint_value r, failure_reason r, isoformat <$> last_failure_at r))
    <$> (etl_checkpoints (db out.2) !! "csv")
  = Some (Some "2", Some "'type'", Some "2026-11-04T01:02:01").
Proof. vm_compute. reflexivity. Qed.

(** C4, as stated, fails: in this run the record is fetched, archived,
    normalized and upserted, the success mark raises, and the run is
    recorded as failed with the mark's exception as its error. *)
Lemma ingested_run_recorded_as_failed :
  let out := run_etl_for_source lost_success_mark_env CoinPaprika
               (start_state seeded_database) in
  fault_checkpoint_success lost_success_mark_env = FailAtExecute connection_lost
  ∧ (records_fetched (locals out.2), records_processed (locals out.2),
     records_failed (locals out.2)) = (1, 1, 0)%nat
  ∧ List.length (normalized_crypto_data (db out.2)) = 1%nat
  ∧ (fun r => (run_status r, run_error_message r)) <$> etl_runs (db out.2)
    = [("failed", Some "connection lost")].
Proof. vm_compute. repeat split; reflexivity. Qed.

(** When the failure mark raises too, the exception leaves
    [run_etl_for_source] and the run row stays [running]. *)
Lemma failure_mark_exception_escapes :
  let out := run_etl_for_source outage_env CoinPaprika (start_state seeded_database) in
  out.1 = Raise connection_lost
  ∧ run_status <$> etl_runs (db out.2) = ["running"].
Proof. vm_compute. split; reflexivity. Qed.

Lemma failed_success_mark_is_recorded_as_failure_witness :
  let st := start_state seeded_database in
  let flt := FailAtExecute connection_lost in
  let good := run_etl_for_source (with_success_fault NoFault quiet_env) CoinPaprika st in
  let bad := run_etl_for_source (with_success_fault flt quiet_env) CoinPaprika st in
  (flt = FailAtConnect connection_lost ∨ flt = FailAtExecute connection_lost)
  ∧ fault_checkpoint_failure quiet_env = NoFault
  ∧ status (locals good.2) = "success"
  ∧ records_fetched (locals good.2) ≠ 0%nat
  ∧ bad.1 = Ok tt
  ∧ status (locals bad.2) = "failed"
  ∧ error_message (locals bad.2) = Some (exn_str connection_lost)
  ∧ "Failed to update checkpoint" ∈ logs bad.2.
Proof.
  cbv zeta.
  assert (Hflt : FailAtExecute connection_lost = FailAtConnect connection_lost
                 ∨ FailAtExecute connection_lost = FailAtExecute connection_lost)
    by (right; reflexivity).
  assert (Hs : status (locals (run_etl_for_source (with_success_fault NoFault quiet_env)
                                 CoinPaprika (start_state seeded_database)).2) = "success")
    by (vm_compute; reflexivity).
  assert (Hn : records_fetched (locals (run_etl_for_source
                  (with_success_fault NoFault quiet_env) CoinPaprika
                  (start_state seeded_database)).2) ≠ 0%nat)
    by (vm_compute; discriminate).
  destruct (failed_success_mark_is_recorded_as_failure quiet_env CoinPaprika
              (start_state seeded_database) connection_lost (FailAtExecute connection_lost)
              Hflt eq_refl Hs Hn) as (H1 & H2 & H3 & _ & _ & _ & H7 & _).
  repeat split; assumption.
Defined.


(* ===================================================================== *)
(** * More on the drift detector *)
(* ===================================================================== *)

(** The loop of [fuzzy_match_field]: after any number of rounds the pair
    holds nothing and the score 0, or the first of the keys seen whose
    score is the highest. *)
Lemma fuzzy_match_rounds (ratio : string -> string -> Z) (field_name : string)
    (threshold : Z) (keys : list string) :
  match foldl (fuzzy_match_round ratio field_name threshold) (None, 0) keys with
  | (None, best_score) =>
      best_score = 0
      ∧ ∀ g, g ∈ keys →
          ratio (str_lower field_name) (str_lower g) < threshold
          ∨ ratio (str_lower field_name) (str_lower g) ≤ 0
  | (Some f, best_score) =>
      best_score = ratio (str_lower field_name) (str_lower f)
      ∧ threshold ≤ best_score ∧ 0 < best_score
      ∧ ∃ before after, keys = (before ++ f :: after)%list
          ∧ (∀ g, g ∈ before → ratio (str_lower field_name) (str_lower g) < best_score)
          ∧ (∀ g, g ∈ after → ratio (str_lower field_name) (str_lower g) ≤ best_score)
  end.
Proof.
  induction keys as [|k keys IH] using rev_ind.
  - simpl. split; [reflexivity |]. intros g Hg. by apply elem_of_nil in Hg.
  - rewrite foldl_snoc.
    destruct (foldl _ _ keys) as [[f|] s]; unfold fuzzy_match_round; simpl.
    + destruct IH as (-> & Hthr & Hpos & before & after & -> & Hb & Ha).
      destruct (Z.ltb_spec (ratio (str_lower field_name) (str_lower f))
                  (ratio (str_lower field_name) (str_lower k)));
        destruct (Z.leb_spec threshold (ratio (str_lower field_name) (str_lower k)));
        simpl.
      * split; [reflexivity |]. split; [lia |]. split; [lia |].
        exists (before ++ f :: after)%list, []. split; [reflexivity |].
        split; [| intros g Hg; by apply elem_of_nil in Hg].
        intros g Hg. apply elem_of_app in Hg as [Hg|Hg]; [specialize (Hb g Hg); lia |].
        apply elem_of_cons in Hg as [->|Hg]; [lia | specialize (Ha g Hg); lia].
      * lia.
      * split; [reflexivity |]. split; [lia |]. split; [lia |].
        exists before, (after ++ [k])%list. split; [by rewrite <- app_assoc |].
        split; [exact Hb |]. intros g Hg. apply elem_of_app in Hg as [Hg|Hg]; [by apply Ha |].
        apply list_elem_of_singleton in Hg as ->. lia.
      * split; [reflexivity |]. split; [lia |]. split; [lia |].
        exists before, (after ++ [k])%list. split; [by rewrite <- app_assoc |].
        split; [exact Hb |]. intros g Hg. apply elem_of_app in Hg as [Hg|Hg]; [by apply Ha |].
        apply list_elem_of_singleton in Hg as ->. lia.
    + destruct IH as (-> & Hall).
      destruct (Z.ltb_spec 0 (ratio (str_lower field_name) (str_lower k)));
        destruct (Z.leb_spec threshold (ratio (str_lower field_name) (str_lower k)));
        simpl.
      * split; [reflexivity |]. split; [lia |]. split; [lia |].
        exists keys, []. split; [reflexivity |].
        split; [| intros g Hg; by apply elem_of_nil in Hg].
        intros g Hg. destruct (Hall g Hg); lia.
      * split; [reflexivity |]. intros g Hg. apply elem_of_app in Hg as [Hg|Hg]; [by apply Hall |].
        apply list_elem_of_singleton in Hg as ->. lia.
      * split; [reflexivity |]. intros g Hg. apply elem_of_app in Hg as [Hg|Hg]; [by apply Hall |].
        apply list_elem_of_singleton in Hg as ->. lia.
      * split; [reflexivity |]. intros g Hg. apply elem_of_app in Hg as [Hg|Hg]; [by apply Hall |].
        apply list_elem_of_singleton in Hg as ->. lia.
Qed.

Lemma fuzzy_match_field_fold (ratio : string -> string -> Z) (expected_schema : option schema)
    (field_name : string) (threshold : Z) :
  fuzzy_match_field ratio expected_schema field_name threshold
  = (foldl (fuzzy_match_round ratio field_name threshold) (None, 0)
       (schema_keys expected_schema)).1.
Proof. destruct expected_schema as [[|entry sch]|]; reflexivity. Qed.

(** [fuzzy_match_field] returns the first of the expected fields whose
    score is the highest, provided that score reaches the threshold and is
    positive; it returns [None] exactly when no expected field has such a
    score, and always when no schema is set. *)
Theorem fuzzy_match_field_best (ratio : string -> string -> Z)
    (expected_schema : option schema) (field_name : string) (threshold : Z) :
  let score g := ratio (str_lower field_name) (str_lower g) in
  let keys := schema_keys expected_schema in
  match fuzzy_match_field ratio expected_schema field_name threshold with
  | Some f =>
      threshold ≤ score f ∧ 0 < score f
      ∧ ∃ before after, keys = (before ++ f :: after)%list
          ∧ (∀ g, g ∈ before → score g < score f)
          ∧ (∀ g, g ∈ after → score g ≤ score f)
  | None => ∀ g, g ∈ keys → score g < threshold ∨ score g ≤ 0
  end.
Proof.
  cbv zeta. rewrite fuzzy_match_field_fold.
  pose proof (fuzzy_match_rounds ratio field_name threshold (schema_keys expected_schema)) as H.
  destruct (foldl _ _ _) as [[f|] s]; simpl.
  - destruct H as (-> & Hthr & Hpos & Hrest). auto.
  - destruct H as (_ & Hall). exact Hall.
Qed.

Lemma omap_keys_NoDup {A B} (f : A -> option (A * B)) (l : list A) :
  (∀ x p, f x = Some p → p.1 = x) → NoDup l → NoDup ((omap f l).*1).
Proof.
  intros Hf. induction 1 as [|x l Hx Hl IH]; simpl; [constructor |].
  destruct (f x) as [p|] eqn:Hp; [| exact IH].
  simpl. constructor; [| exact IH].
  rewrite (Hf _ _ Hp). intros Hin. apply Hx.
  apply list_elem_of_fmap in Hin as (q & -> & Hq).
  apply list_elem_of_omap in Hq as (y & Hy & Hfy).
  by rewrite (Hf _ _ Hfy).
Qed.

Lemma suggest_field_mapping_unfold (ratio : string -> string -> Z)
    (expected_schema : option schema) (data : pydict) :
  suggest_field_mapping ratio expected_schema data
  = list_to_map
      (omap (fun field =>
               match fuzzy_match_field ratio expected_schema field 80 with
               | Some m => if String.eqb m "" then None else Some (field, m)
               | None => None
               end)
            (elements (dom data ∖ list_to_set (schema_keys expected_schema) : gset string))).
Proof.
  destruct expected_schema as [[|entry sch]|]; [| reflexivity |]; simpl;
    induction (elements _) as [|x l IH]; simpl; auto.
Qed.

(** [suggest_field_mapping] maps a field to a suggestion exactly when the
    record holds the field, the schema does not name it, and
    [fuzzy_match_field] finds a match for it that is not the empty string:
    no expected field is ever given a suggestion, and nothing is suggested
    when no schema is set. *)
Theorem suggest_field_mapping_spec (ratio : string -> string -> Z)
    (expected_schema : option schema) (data : pydict) (field m : string) :
  suggest_field_mapping ratio expected_schema data !! field = Some m
  ↔ (is_Some (data !! field)
     ∧ (field ∉ schema_keys expected_schema)
     ∧ fuzzy_match_field ratio expected_schema field 80 = Some m
     ∧ m ≠ "").
Proof.
  rewrite suggest_field_mapping_unfold, <- elem_of_list_to_map.
  - rewrite list_elem_of_omap. split.
    + intros (x & Hx & Hfx). apply elem_of_elements, elem_of_difference in Hx as [Hd Hk].
      cbn beta in Hfx. revert Hfx.
      destruct (fuzzy_match_field ratio expected_schema x 80) as [m'|] eqn:Hm;
        [| intros [=]].
      destruct (String.eqb_spec m' ""); [intros [=] |].
      intros Hfx. injection Hfx as Hx Hm'. subst x m'.
      split; [by apply elem_of_dom |].
      split; [intros Hin; apply Hk; by apply elem_of_list_to_set |].
      split; [exact Hm | assumption].
    + intros (Hd & Hk & Hm & Hne). exists field. split.
      * apply elem_of_elements, elem_of_difference. split; [by apply elem_of_dom |].
        intros Hin. apply Hk. by apply elem_of_list_to_set in Hin.
      * cbn beta. rewrite Hm. by destruct (String.eqb_spec m "").
  - apply omap_keys_NoDup; [| apply NoDup_elements].
    intros x p. cbn beta. destruct (fuzzy_match_field _ _ x 80); [| intros [=]].
    destruct (String.eqb _ _); [intros [=] |]. by intros [= <-].
Qed.


Lemma Qc_of_nat_nonneg (n : nat) : (0 ≤ Qc_of_nat n)%Qc.
Proof. unfold Qc_of_nat. rewrite <- Z2Qc_inj_0. apply (proj1 (Z2Qc_inj_le _ _)). lia. Qed.

Lemma Qc_of_nat_pos (n : nat) : (0 < n)%nat → (0 < Qc_of_nat n)%Qc.
Proof.
  intros H. unfold Qc_of_nat. rewrite <- Z2Qc_inj_0. apply (proj1 (Z2Qc_inj_lt _ _)). lia.
Qed.

Lemma Qc_of_nat_le (n m : nat) : (n ≤ m)%nat → (Qc_of_nat n ≤ Qc_of_nat m)%Qc.
Proof. intros H. unfold Qc_of_nat. apply (proj1 (Z2Qc_inj_le _ _)). lia. Qed.

Lemma Qc_of_nat_ne_0 (n : nat) : (0 < n)%nat → Qc_of_nat n ≠ 0%Qc.
Proof.
  intros H. unfold Qc_of_nat. rewrite <- Z2Qc_inj_0. intros H0. apply Z2Qc_inj in H0. lia.
Qed.

(** A part of a whole is a ratio between 0 and 1. *)
Lemma Qc_ratio_bounds (n m : nat) :
  (n ≤ m)%nat → (0 < m)%nat →
  (0 ≤ Qc_of_nat n / Qc_of_nat m)%Qc ∧ (Qc_of_nat n / Qc_of_nat m ≤ 1)%Qc.
Proof.
  intros Hle Hpos.
  assert (Hinv : (0 < / Qc_of_nat m)%Qc) by (apply Qcinv_pos, Qc_of_nat_pos, Hpos).
  split.
  - apply Qcmult_nonneg_nonneg; [apply Qc_of_nat_nonneg | by apply Qclt_le_weak].
  - rewrite <- (Qcmult_inv_r (Qc_of_nat m)).
    + apply Qcmult_le_mono_nonneg_r; [by apply Qclt_le_weak | by apply Qc_of_nat_le].
    + by apply Qc_of_nat_ne_0.
Qed.

Lemma type_penalty_nonneg (n : nat) : (0 ≤ Qc_of_nat n * (1 / Qc_of_Z 10))%Qc.
Proof. apply Qcmult_nonneg_nonneg; [apply Qc_of_nat_nonneg | done]. Qed.

(** With every expected field present and no mismatch the confidence is 1. *)
Lemma confidence_of_full_match (expected_fields actual_fields : gset string) :
  expected_fields ⊆ actual_fields →
  _calculate_confidence expected_fields actual_fields [] = 1%Qc.
Proof.
  intros Hall. unfold _calculate_confidence.
  case_bool_decide as He; [reflexivity |].
  assert (Hpos : (0 < size expected_fields)%nat).
  { destruct (size expected_fields) eqn:Hs; [| lia].
    apply size_empty_inv in Hs. apply leibniz_equiv in Hs. contradiction. }
  replace (expected_fields ∩ actual_fields) with expected_fields.
  2:{ apply set_eq. intros x. rewrite elem_of_intersection. split; [auto | tauto]. }
  assert (Hne : Qc_of_nat (size expected_fields) ≠ 0%Qc) by (by apply Qc_of_nat_ne_0).
  replace (Qc_of_nat (size expected_fields) / Qc_of_nat (size expected_fields)
           - Qc_of_nat (List.length (@nil warning)) * (1 / Qc_of_Z 10))%Qc with 1%Qc.
  - reflexivity.
  - simpl. replace (Qc_of_nat 0) with 0%Qc by (symmetry; apply Z2Qc_inj_0).
    unfold Qcdiv. rewrite Qcmult_inv_r by exact Hne. ring.
Qed.

(** [_calculate_confidence] is a score between 0 and 1, whatever the
    fields and however many mismatches; it is 1 when every expected field
    is present and no type differs. *)
Theorem _calculate_confidence_bounds (expected_fields actual_fields : gset string)
    (type_mismatches : list warning) :
  (0 ≤ _calculate_confidence expected_fields actual_fields type_mismatches)%Qc
  ∧ (_calculate_confidence expected_fields actual_fields type_mismatches ≤ 1)%Qc
  ∧ (expected_fields ⊆ actual_fields → type_mismatches = [] →
     _calculate_confidence expected_fields actual_fields type_mismatches = 1%Qc).
Proof.
  split; [| split]; [| | intros Hall ->; by apply confidence_of_full_match].
  - unfold _calculate_confidence. case_bool_decide; [done |].
    case_bool_decide; [assumption | done].
  - unfold _calculate_confidence. case_bool_decide as He; [done |].
    assert (Hpos : (0 < size expected_fields)%nat).
    { destruct (size expected_fields) eqn:Hs; [| lia].
      apply size_empty_inv in Hs. apply leibniz_equiv in Hs. contradiction. }
    assert (Hsub : (size (expected_fields ∩ actual_fields) ≤ size expected_fields)%nat).
    { apply subseteq_size. intros x Hx. by apply elem_of_intersection in Hx as [Hx _]. }
    destruct (Qc_ratio_bounds _ _ Hsub Hpos) as [Hlo Hhi].
    pose proof (type_penalty_nonneg (List.length type_mismatches)) as Hpen.
    case_bool_decide; [| done].
    eapply Qcle_trans; [| exact Hhi].
    apply Qcle_minus_iff.
    match goal with |- (0 ≤ ?a + - (?a - ?b))%Qc => replace (a + - (a - b))%Qc with b by ring end.
    exact Hpen.
Qed.

Lemma difference_self_empty (X : gset string) : X ∖ X = ∅.
Proof.
  apply set_eq. intros x. rewrite elem_of_difference. split; [tauto |].
  intros H. by apply elem_of_empty in H.
Qed.

Lemma difference_empty_subseteq (X Y : gset string) : X ∖ Y = ∅ → X ⊆ Y.
Proof.
  intros H x Hx. destruct (decide (x ∈ Y)) as [|Hn]; [assumption |].
  exfalso. apply (elem_of_empty (C:=gset string) x). rewrite <- H.
  by apply elem_of_difference.
Qed.

(** On a schema of classes the type loop never raises; it adds nothing
    exactly when the record conforms. *)
Lemma check_types_single_typed (sch : schema) (data : pydict) :
  single_typed sch →
  ∀ acc, ∃ ms, check_types sch data acc = Ok (acc ++ ms)%list
               ∧ (ms = [] ↔ conforms sch data).
Proof.
  induction sch as [|[g e] sch IH]; intros Hs acc.
  - exists []. simpl. rewrite app_nil_r. split; [reflexivity |].
    split; [| reflexivity]. intros _ f t v Hin. by apply elem_of_nil in Hin.
  - assert (Hs' : single_typed sch).
    { intros f e' Hin. apply (Hs f e'). by apply elem_of_cons; right. }
    destruct (Hs g e) as [t ->]; [by apply elem_of_cons; left |].
    simpl. destruct (data !! g) as [v|] eqn:Hv.
    + destruct (is_none v) eqn:Hnone; simpl.
      * destruct (IH Hs' acc) as (ms & -> & Hms). exists ms. split; [reflexivity |].
        rewrite Hms. split.
        -- intros Hc f t' v' Hin Hf Hne. apply elem_of_cons in Hin as [[= -> ->]|Hin];
             [| by eapply Hc].
           rewrite Hv in Hf. injection Hf as <-. by destruct v.
        -- intros Hc f t' v' Hin. apply Hc. by apply elem_of_cons; right.
      * destruct (bool_decide_reflect (type_of v = t)) as [Ht|Ht]; simpl.
        -- destruct (IH Hs' acc) as (ms & -> & Hms). exists ms. split; [reflexivity |].
           rewrite Hms. split.
           ++ intros Hc f t' v' Hin Hf Hne. apply elem_of_cons in Hin as [[= -> ->]|Hin];
                [| by eapply Hc].
              rewrite Hv in Hf. by injection Hf as <-.
           ++ intros Hc f t' v' Hin. apply Hc. by apply elem_of_cons; right.
        -- destruct (IH Hs' (acc ++ [TypeMismatch g (type_name t) (type_name (type_of v))])%list)
             as (ms & -> & _).
           exists (TypeMismatch g (type_name t) (type_name (type_of v)) :: ms).
           split; [by rewrite <- app_assoc |].
           split; [discriminate |].
           intros Hc. exfalso. apply Ht. apply (Hc g t v); [by apply elem_of_cons; left | done |].
           intros ->. discriminate Hnone.
    + destruct (IH Hs' acc) as (ms & -> & Hms). exists ms. split; [reflexivity |].
      rewrite Hms. split.
      * intros Hc f t' v' Hin Hf Hne. apply elem_of_cons in Hin as [[= -> ->]|Hin];
          [| by eapply Hc].
        rewrite Hv in Hf. discriminate Hf.
      * intros Hc f t' v' Hin. apply Hc. by apply elem_of_cons; right.
Qed.

(** On a schema of classes, [detect_drift] returns; it reports no drift
    exactly when the record has the expected fields, no other, and the
    expected type for every value other than [None]; the confidence is
    then 1 and there is no warning. *)
Theorem detect_drift_single_typed (sch : schema) (data : pydict) :
  sch ≠ [] → single_typed sch →
  ∃ has_drift confidence warnings,
    detect_drift (Some sch) data = Ok (has_drift, confidence, warnings)
    ∧ (has_drift = false
       ↔ dom data = list_to_set (fst <$> sch) ∧ conforms sch data)
    ∧ (has_drift = false → confidence = 1%Qc ∧ warnings = []).
Proof.
  intros Hne Hs. unfold detect_drift.
  destruct sch as [|entry sch]; [done |]. set (sch' := entry :: sch) in *.
  destruct (check_types_single_typed sch' data Hs []) as (ms & Hck & Hms).
  rewrite Hck. simpl.
  set (expected_fields := list_to_set (fst <$> sch') : gset string).
  eexists _, _, _. split; [reflexivity |].
  case_bool_decide as Hmiss; [case_bool_decide as Hextra; [destruct ms as [|m ms] |] |]; simpl.
  - split.
    + split; [| reflexivity]. intros _. split; [| by apply Hms].
      apply difference_empty_subseteq in Hmiss, Hextra.
      apply set_eq. intros x. split; [apply Hextra | apply Hmiss].
    + intros _. split; [| reflexivity].
      apply confidence_of_full_match. by apply difference_empty_subseteq.
  - split; [split; [intros [=] |] | intros [=]].
    intros [_ Hc]. apply Hms in Hc. discriminate Hc.
  - split; [split; [intros [=] |] | intros [=]].
    intros [Hd _]. exfalso. apply Hextra. rewrite Hd. apply difference_self_empty.
  - split; [split; [intros [=] |] | intros [=]].
    intros [Hd _]. exfalso. apply Hmiss. rewrite Hd. apply difference_self_empty.
Qed.

(** The type loop raises at the first field that the schema gives a tuple
    and the record a value. *)
Lemma check_types_tuple_field (sch : schema) (data : pydict) (f : string)
    (ts : list pytype) (v : pyval) :
  (f, Tuple ts) ∈ sch → data !! f = Some v → v ≠ VNone →
  ∀ acc, check_types sch data acc
         = Raise (AttributeError "'tuple' object has no attribute '__name__'").
Proof.
  intros Hin Hv Hne. induction sch as [|[g e] sch IH]; intros acc.
  - by apply elem_of_nil in Hin.
  - simpl. apply elem_of_cons in Hin as [[= <- <-]|Hin].
    + rewrite Hv. destruct v; try done.
    + destruct (data !! g) as [w|]; [| by apply IH].
      destruct (negb (is_none w) && type_differs (type_of w) e); [| by apply IH].
      destruct e as [t|ts']; simpl; [by apply IH | reflexivity].
Qed.

(** Whenever the schema allows a tuple of types for a field and the record
    holds that field with a value other than [None], [detect_drift] raises
    [AttributeError] and returns no result, whatever the value's type. *)
Theorem detect_drift_tuple_field_raises (sch : schema) (data : pydict) (f : string)
    (ts : list pytype) (v : pyval) :
  (f, Tuple ts) ∈ sch → data !! f = Some v → v ≠ VNone →
  detect_drift (Some sch) data
  = Raise (AttributeError "'tuple' object has no attribute '__name__'").
Proof.
  intros Hin Hv Hne. unfold detect_drift.
  destruct sch as [|entry sch]; [by apply elem_of_nil in Hin |].
  by rewrite (check_types_tuple_field _ _ _ _ _ Hin Hv Hne).
Qed.


(* ===================================================================== *)
(** * More on the normalizers and on validation *)
(* ===================================================================== *)

Lemma upper_ascii_idemp (c : ascii) : upper_ascii (upper_ascii c) = upper_ascii c.
Proof. destruct c as [[] [] [] [] [] [] [] []]; reflexivity. Qed.

Lemma str_upper_idemp (s : string) : str_upper (str_upper s) = str_upper s.
Proof.
  unfold str_upper. rewrite list_ascii_of_string_of_list_ascii, map_map.
  f_equal. apply map_ext. intros c. apply upper_ascii_idemp.
Qed.

Lemma upper_of_ok (v : pyval) (s' : string) :
  upper_of v = Ok s' → ∃ s, v = VStr s ∧ s' = str_upper s.
Proof. destruct v; try discriminate. intros [= <-]. eauto. Qed.

(** A successful construction has validated its numbers and its rank. *)
Lemma NormalizedCryptoData_init_valid a_source a_source_id a_symbol a_name
    a_price a_cap a_vol a_rank a_circ a_total a_max a_pct a_add ts n :
  NormalizedCryptoData_init a_source a_source_id a_symbol a_name a_price a_cap a_vol
    a_rank a_circ a_total a_max a_pct a_add ts = Ok n →
  forallb validate_opt_decimal_instance [a_price; a_cap; a_vol; a_circ; a_total; a_max; a_pct]
  = true
  ∧ validate_opt_int a_rank = Some (rank n)
  ∧ additional_data n = a_add.
Proof.
  unfold NormalizedCryptoData_init.
  destruct (forallb validate_opt_decimal_instance
              [a_price; a_cap; a_vol; a_circ; a_total; a_max; a_pct]).
  - destruct a_source_id; simpl; try discriminate.
    destruct a_name; simpl; try discriminate.
    destruct (validate_opt_int a_rank); simpl; try discriminate.
    intros [= <-]. simpl. repeat split; reflexivity.
  - destruct (validate_str a_source_id), (validate_str a_name), (validate_opt_int a_rank);
      discriminate.
Qed.

Lemma validated_decimal_is_finite (l : list (option Decimal)) (d : Decimal) :
  forallb validate_opt_decimal_instance l = true → Some d ∈ l → is_finite d = true.
Proof.
  intros Hall Hin. rewrite forallb_forall in Hall.
  apply (Hall (Some d)). by apply list_elem_of_In.
Qed.
(** What every normalizer guarantees of a record it produces: the name of
    its source, the timestamp it was given, a symbol in upper case, every
    number finite, and for the CSV normalizer the identifier [csv_SYMBOL],
    no rank, no supply and no additional data. *)
Theorem normalizer_output (src : source_kind) (raw_data : pydict) (ts : datetime)
    (n : NormalizedCryptoData) :
  normalizer src raw_data ts = Ok n →
  source n = source_name src
  ∧ data_timestamp n = ts
  ∧ symbol n = str_upper (symbol n)
  ∧ (∀ f d, numeric_of f n = Some d → is_finite d = true)
  ∧ (src = CSV →
     source_id n = "csv_" +:+ symbol n ∧ rank n = None ∧ additional_data n = ∅
     ∧ circulating_supply n = None ∧ total_supply n = None ∧ max_supply n = None).
Proof.
  intros Hn.
  destruct src; simpl in Hn;
    unfold normalize_coinpaprika, normalize_coingecko, normalize_csv in Hn;
    res_inv Hn;
    pose proof (NormalizedCryptoData_init_ok _ _ _ _ _ _ _ _ _ _ _ _ _ _ _ Hn) as Hok;
    pose proof (NormalizedCryptoData_init_valid _ _ _ _ _ _ _ _ _ _ _ _ _ _ _ Hn) as Hval;
    destruct Hok as (Hsrc & Hsid & Hsym & Hname & Hp & Hc & Hv & Hci & Hto & Hma & Hpc & Hts);
    destruct Hval as (Hfin & Hrank & Hadd);
    match goal with H : upper_of _ = Ok _ |- _ =>
      apply upper_of_ok in H; destruct H as (s0 & _ & Hup) end;
    (split; [exact Hsrc |]); (split; [exact Hts |]);
    (split; [rewrite Hsym, Hup; symmetry; apply str_upper_idemp |]);
    (split; [intros f d Hd; apply (validated_decimal_is_finite _ d Hfin);
             destruct f; simpl in Hd;
             rewrite ?Hp, ?Hc, ?Hv, ?Hci, ?Hto, ?Hma, ?Hpc in Hd;
             first [ discriminate Hd
                   | rewrite <- Hd;
                     repeat first [apply list_elem_of_here | apply list_elem_of_further] ] |]);
    intros Hcsv; try discriminate Hcsv.
  injection Hsid as Hsid. simpl in Hrank. injection Hrank as Hrank.
  rewrite <- Hsid, Hsym. repeat split; congruence.
Qed.
Lemma not_a_finite_number_facts (raw_data : pydict) (k : string) (v : pyval) :
  raw_data !! k = Some v → not_a_finite_number v = true →
  dict_get raw_data k = v ∧ is_none v = false
  ∧ ∀ o, decimal_if_truthy v = Ok o → ∃ d, o = Some d ∧ is_finite d = false.
Proof.
  intros Hv Hbad. unfold dict_get. rewrite Hv. simpl.
  apply andb_prop in Hbad as [Ht Hd].
  split; [reflexivity |]. split; [by destruct v |].
  intros o. unfold decimal_if_truthy. rewrite Ht.
  destruct (Decimal_of_str v) as [d|e]; simpl; [| discriminate].
  intros [= <-]. exists d. split; [reflexivity |]. by apply negb_true_iff.
Qed.

(** A number that is not usable makes the normalizer raise: when the key a
    numeric field is read from holds a true value that is not a finite
    decimal (text such as [n/a], [nan], an infinity), no record is
    produced. For the market cap of [normalize_coinpaprika] this is stated
    when the nested-quote fallback is not taken. *)
Theorem non_finite_number_raises (src : source_kind) (f : numeric_field) (k : string)
    (raw_data : pydict) (ts : datetime) :
  raw_key src f = Some k →
  (∃ v, raw_data !! k = Some v ∧ not_a_finite_number v = true) →
  (src = CoinPaprika → f = FMarketCapUsd → quotes_fallback raw_data = false) →
  ∃ e, normalizer src raw_data ts = Raise e.
Proof.
  intros Hkey (v & Hv & Hbad) Hfb.
  destruct (normalizer src raw_data ts) as [n|e] eqn:Hn; [exfalso | by exists e].
  destruct (not_a_finite_number_facts _ _ _ Hv Hbad) as (Hget & Hnone & Hdec).
  destruct src, f; simpl in Hkey; try discriminate; injection Hkey as <-;
    simpl in Hn;
    unfold normalize_coinpaprika, normalize_coingecko, normalize_csv in Hn;
    try (specialize (Hfb eq_refl eq_refl); unfold quotes_fallback in Hfb;
         rewrite Hfb in Hn);
    rewrite ?Hget, ?Hnone in Hn; simpl andb in Hn; cbv iota in Hn;
    clear Hget Hv;
    res_inv Hn;
    apply NormalizedCryptoData_init_valid in Hn; destruct Hn as (Hfin & _);
    simplify_eq;
    match goal with
    | Hbad' : not_a_finite_number ?w = true, H : decimal_if_truthy ?w = Ok ?o |- _ =>
        destruct (Hdec o H) as (d & -> & Hd)
    end;
    assert (is_finite d = true)
      by (apply (validated_decimal_is_finite _ d Hfin);
          repeat first [apply list_elem_of_here | apply list_elem_of_further]);
    congruence.
Qed.
(** A value that an [Optional[Decimal]] field of a raw schema accepts is
    converted by the normalizers' guard into [None] or a finite decimal. *)
Lemma accepted_number_converts (v : pyval) :
  is_Some (validate_opt_decimal v) →
  ∃ o, decimal_if_truthy v = Ok o ∧ validate_opt_decimal_instance o = true.
Proof.
  intros [o Ho]. unfold decimal_if_truthy.
  destruct (truthy v) eqn:Ht; [| by exists None].
  destruct v as [| |z|f|s| |]; simpl in Ho; try discriminate.
  - exists (Some (DFin (z <? 0) (Z.to_N (Z.abs z)) 0)). split; reflexivity.
  - destruct f as [neg c e|neg|]; simpl in Ho; try discriminate.
    exists (Some (DFin neg c e)). split; reflexivity.
  - simpl. destruct (parse_decimal s) as [d|]; simpl in *; [| discriminate].
    exists (Some d). split; [reflexivity |]. simpl.
    unfold validate_decimal_value in Ho. by destruct (is_finite d).
Qed.

Lemma required_str_field (data : pydict) (k : string) :
  bool_decide (is_Some (data !! k ≫= validate_str)) = true →
  ∃ s, data !! k = Some (VStr s).
Proof.
  intros H. apply bool_decide_eq_true in H as [s Hs].
  destruct (data !! k) as [[]|]; simpl in Hs; try discriminate. eauto.
Qed.

(** Every CSV record that [validate] accepts is normalized, with its own
    name and its symbol in upper case: the records that [save_raw] archives
    never fail in the normalize loop. *)
Theorem valid_csv_record_normalizes (data : pydict) (ts : datetime) :
  validate CSV data = true →
  ∃ n s nm, normalize_csv data ts = Ok n
            ∧ data !! "symbol" = Some (VStr s) ∧ symbol n = str_upper s
            ∧ data !! "name" = Some (VStr nm) ∧ name n = nm.
Proof.
  unfold validate, RawCSVData_valid. intros H.
  apply andb_prop in H as [H Hnum]. apply andb_prop in H as [Hsym Hname].
  apply required_str_field in Hsym as [s Hs]. apply required_str_field in Hname as [nm Hnm].
  simpl in Hnum.
  repeat match goal with
         | H : _ && _ = true |- _ => apply andb_prop in H as [? ?]
         | H : bool_decide (is_Some (validate_opt_decimal ?v)) = true |- _ =>
             apply bool_decide_eq_true, accepted_number_converts in H as (? & ? & ?)
         end.
  unfold normalize_csv, dict_get_default. rewrite Hs, Hnm. simpl.
  repeat match goal with
         | H : decimal_if_truthy ?v = Ok _ |- _ => rewrite H; clear H; simpl
         end.
  unfold NormalizedCryptoData_init. simpl.
  repeat match goal with
         | H : validate_opt_decimal_instance _ = true |- _ => rewrite H; clear H; simpl
         end.
  eexists _, s, nm. repeat split; reflexivity.
Qed.
(* ===================================================================== *)
(** * More on the adapters *)
(* ===================================================================== *)

(** The keys an item of a response is mapped to: always [coin_id], never
    [id] nor [quotes]. *)
Lemma transform_coinpaprika_keys (item : pyval) (t : pydict) :
  transform_coinpaprika item = Ok t →
  ∃ d, item = VDict d ∧ t !! "coin_id" = Some (dict_get d "id")
       ∧ t !! "id" = None ∧ t !! "quotes" = None.
Proof.
  unfold transform_coinpaprika. intros H.
  destruct item as [| | | | | |d]; try discriminate. simpl in H.
  exists d. split; [reflexivity |].
  destruct (as_dict (dict_get_default d "quotes" (VDict ∅))) as [q|]; simpl in H;
    [| discriminate].
  destruct (truthy (dict_get_default q "USD" (VDict ∅))).
  - destruct (as_dict (dict_get_default q "USD" (VDict ∅))) as [u|]; simpl in H;
      [| discriminate].
    injection H as <-. repeat split; reflexivity.
  - injection H as <-. repeat split; reflexivity.
Qed.

Lemma transform_coingecko_keys (item : pyval) (t : pydict) :
  transform_coingecko item = Ok t →
  ∃ d, item = VDict d ∧ t !! "coin_id" = Some (dict_get d "id")
       ∧ t !! "id" = None ∧ t !! "quotes" = None.
Proof.
  unfold transform_coingecko. intros H.
  destruct item as [| | | | | |d]; try discriminate. simpl in H.
  exists d. split; [reflexivity |]. injection H as <-. repeat split; reflexivity.
Qed.

(** An item of a response that has no [id]: [fetch] keeps it with a
    [coin_id] of [None]; [validate] rejects it, so [save_raw] does not
    archive it; a record that the normalizer makes of it has the empty
    string as its [source_id]. *)
Theorem item_without_id (src : source_kind) (item t : pydict) (ts : datetime) :
  (src = CoinPaprika ∧ transform_coinpaprika (VDict item) = Ok t)
  ∨ (src = CoinGecko ∧ transform_coingecko (VDict item) = Ok t) →
  item !! "id" = None →
  t !! "coin_id" = Some VNone
  ∧ validate src t = false
  ∧ ∀ n, normalizer src t ts = Ok n → source_id n = "".
Proof.
  intros Hsrc Hid.
  assert (Hkeys : t !! "coin_id" = Some VNone ∧ t !! "id" = None).
  { destruct Hsrc as [[_ Ht]|[_ Ht]];
      [apply transform_coinpaprika_keys in Ht | apply transform_coingecko_keys in Ht];
      destruct Ht as (d & [= <-] & Hc & Hi & _);
      unfold dict_get in Hc; rewrite Hid in Hc; auto. }
  destruct Hkeys as [Hc Hi]. split; [exact Hc |].
  assert (Hsid : coin_id_or_id t = VStr "").
  { unfold coin_id_or_id, dict_get, dict_get_default. rewrite Hc, Hi. reflexivity. }
  split.
  - destruct Hsrc as [[-> _]|[-> _]]; simpl;
      unfold RawCoinPaprikaData_valid, RawCoinGeckoData_valid, aliased;
      rewrite Hi, Hc; reflexivity.
  - intros n Hn.
    destruct Hsrc as [[-> _]|[-> _]]; simpl in Hn;
      unfold normalize_coinpaprika, normalize_coingecko in Hn;
      rewrite Hsid in Hn; res_inv Hn;
      apply NormalizedCryptoData_init_ok in Hn; destruct Hn as (_ & Hs & _);
      by injection Hs as <-.
Qed.

Lemma transform_all_fetched_by (transform : pyval -> res pydict) (items : list pyval) :
  fetched_by transform (Ok items) (transform_all transform items).
Proof.
  induction items as [|item items IH]; simpl.
  - exists []. split; [reflexivity | constructor].
  - destruct (transform item) as [t|e] eqn:Ht; simpl.
    + destruct (transform_all transform items) as [ts|e]; simpl in *.
      * destruct IH as (items' & [= <-] & Hall). exists (item :: items).
        split; [reflexivity |]. by constructor.
      * right. destruct IH as [[=]|(before & bad & after & [= ->] & Hb & Hbad)].
        exists (item :: before), bad, after. split; [reflexivity |].
        split; [| exact Hbad]. constructor; [by exists t | exact Hb].
    + right. exists [], item, items. split; [reflexivity |]. split; [constructor | exact Ht].
Qed.

(** [fetch] of an HTTP adapter is all or nothing: it returns one
    transformed item for every item of the response, in order, or it raises
    the exception of the request or of the first item that cannot be
    transformed (for instance one that is not an object); it never drops an
    item. *)
Theorem http_fetch_all_or_nothing (ev : env) (st : state) :
  fetched_by transform_coinpaprika (http_items ev CoinPaprika) (fetch ev CoinPaprika st).1
  ∧ fetched_by transform_coingecko (http_items ev CoinGecko) (fetch ev CoinGecko st).1.
Proof.
  split; unfold fetch, try_except; rewrite bind_run; unfold lift;
    destruct (http_items ev _) as [items|e]; simpl; try (by left);
    match goal with |- context [transform_all ?f items] =>
      pose proof (transform_all_fetched_by f items) as H;
      destruct (transform_all f items) as [data|e]; simpl; exact H
    end.
Qed.


(* ===================================================================== *)
(** * More on the checkpoint manager *)
(* ===================================================================== *)

Lemma get_last_timestamp_of_row (ev : env) (fromisoformat : string -> option datetime)
    (s : site) (src : string) (st : state) (r : checkpoint_row) :
  fault_get_checkpoint ev s = None →
  etl_checkpoints (db st) !! src = Some r →
  get_last_timestamp ev fromisoformat s src st = (Raise (KeyError "type"), st).
Proof.
  intros Hf Hr. unfold get_last_timestamp.
  rewrite bind_run, (get_checkpoint_of_row _ _ _ _ Hf), Hr. reflexivity.
Qed.

Lemma get_last_timestamp_no_row (ev : env) (fromisoformat : string -> option datetime)
    (s : site) (src : string) (st : state) :
  fault_get_checkpoint ev s = None →
  etl_checkpoints (db st) !! src = None →
  get_last_timestamp ev fromisoformat s src st = (Ok None, st).
Proof.
  intros Hf Hr. unfold get_last_timestamp.
  rewrite bind_run, (get_checkpoint_of_row _ _ _ _ Hf), Hr. reflexivity.
Qed.

Lemma get_last_timestamp_read_fails (ev : env) (fromisoformat : string -> option datetime)
    (s : site) (src : string) (st : state) (e : exn) :
  fault_get_checkpoint ev s = Some e →
  (get_last_timestamp ev fromisoformat s src st).1 = Ok None.
Proof.
  intros Hf. unfold get_last_timestamp, get_checkpoint. rewrite Hf, !bind_run. reflexivity.
Qed.

(** [get_last_timestamp] never returns a timestamp: it returns [None] when
    the read fails or the source has no row, and raises [KeyError('type')]
    when the source has a row, whatever the row holds. *)
Theorem get_last_timestamp_never_returns_one (ev : env)
    (fromisoformat : string -> option datetime) (s : site) (src : string) (st : state) :
  match (get_last_timestamp ev fromisoformat s src st).1 with
  | Ok None =>
      is_Some (fault_get_checkpoint ev s) ∨ etl_checkpoints (db st) !! src = None
  | Ok (Some _) => False
  | Raise e =>
      e = KeyError "type" ∧ fault_get_checkpoint ev s = None
      ∧ is_Some (etl_checkpoints (db st) !! src)
  end.
Proof.
  destruct (fault_get_checkpoint ev s) as [e|] eqn:Hf.
  - rewrite (get_last_timestamp_read_fails _ _ _ _ _ _ Hf). left. eauto.
  - destruct (etl_checkpoints (db st) !! src) as [r|] eqn:Hr.
    + rewrite (get_last_timestamp_of_row _ _ _ _ _ _ Hf Hr). cbn [fst].
      split; [reflexivity |]. split; [reflexivity | eauto].
    + rewrite (get_last_timestamp_no_row _ _ _ _ _ Hf Hr). cbn [fst]. by right.
Qed.

(** A success mark followed by a read of the checkpoint: the dict that
    [get_checkpoint] builds holds the value, the time of the mark and the
    metadata that were passed ([{}] for no metadata), and the failure
    columns of the row as they were. *)
Theorem update_then_get_checkpoint (ev : env) (src value : string) (md : option pydict)
    (s : site) (st : state) (r : checkpoint_row) :
  let marked := update_checkpoint ev src value true None md st in
  fault_checkpoint_success ev = NoFault →
  fault_get_checkpoint ev s = None →
  etl_checkpoints (db st) !! src = Some r →
  marked.1 = Ok tt
  ∧ ∃ d, (get_checkpoint ev s src marked.2).1 = Ok (Some d)
         ∧ d !! "checkpoint_value" = Some (DbStr value)
         ∧ d !! "last_success_at" = Some (DbTime (time_at ev (tick st)))
         ∧ d !! "metadata" = Some (DbJson (default ∅ md))
         ∧ d !! "last_failure_at" = Some (db_opt DbTime (last_failure_at r))
         ∧ d !! "failure_reason" = Some (db_opt DbStr (failure_reason r)).
Proof.
  cbv zeta. intros Hs Hg Hr.
  pose proof (update_checkpoint_spec ev src value true None md st) as Hspec.
  pose proof (update_checkpoint_no_fault ev src value true None md st Hs) as Hok.
  unfold wp in Hspec. rewrite Hok in Hspec.
  destruct Hspec as (_ & _ & _ & _ & HC).
  split; [exact Hok |].
  rewrite (get_checkpoint_of_row _ _ _ _ Hg), HC, lookup_alter_eq, Hr. simpl.
  eexists. split; [reflexivity |]. repeat split; reflexivity.
Qed.

(** [update_checkpoint] only updates: it never creates or deletes a row of
    [etl_checkpoints], whatever the driver does; for a source that has no
    row it changes nothing and, when the driver does not fail, returns
    without an exception, so the mark is lost in silence. *)
Theorem update_checkpoint_never_creates_row (ev : env) (src value : string)
    (success : bool) (msg : option string) (md : option pydict) (st : state) :
  let marked := update_checkpoint ev src value success msg md st in
  dom (etl_checkpoints (db marked.2)) = dom (etl_checkpoints (db st))
  ∧ (etl_checkpoints (db st) !! src = None →
     etl_checkpoints (db marked.2) = etl_checkpoints (db st)
     ∧ ((if success then fault_checkpoint_success ev else fault_checkpoint_failure ev)
        = NoFault → marked.1 = Ok tt)).
Proof.
  cbv zeta.
  pose proof (update_checkpoint_spec ev src value success msg md st) as Hspec.
  unfold wp in Hspec. destruct Hspec as (_ & _ & Hspec).
  destruct (update_checkpoint ev src value success msg md st).1 as [[]|e] eqn:Hr.
  - destruct Hspec as (_ & _ & HC). rewrite HC. split; [apply dom_alter_L |].
    intros Hnone. split; [| reflexivity].
    apply map_eq. intros k. destruct (decide (k = src)) as [->|Hne].
    + rewrite lookup_alter_eq, Hnone. reflexivity.
    + by rewrite lookup_alter_ne.
  - destruct Hspec as (HC & Hflt & _). rewrite HC. split; [reflexivity |].
    intros _. split; [reflexivity |]. intros H. contradiction.
Qed.

(** A run writes to the checkpoint row of its own source only: it creates
    and deletes no row, and the rows of the other sources are untouched,
    whatever the outcome of the run. *)
Theorem run_touches_own_checkpoint_only (ev : env) (src : source_kind) (st : state) :
  let out := run_etl_for_source ev src st in
  dom (etl_checkpoints (db out.2)) = dom (etl_checkpoints (db st))
  ∧ ∀ s, s ≠ source_name src →
         etl_checkpoints (db out.2) !! s = etl_checkpoints (db st) !! s.
Proof.
  cbv zeta.
  pose proof (run_etl_for_source_spec ev src st) as Hspec. cbv zeta in Hspec.
  destruct Hspec as (_ & _ & _ & _ & _ & _ & Hcase).
  assert (Hshape : etl_checkpoints (db (run_etl_for_source ev src st).2)
                   = etl_checkpoints (db st)
                   ∨ ∃ h, etl_checkpoints (db (run_etl_for_source ev src st).2)
                          = alter h (source_name src) (etl_checkpoints (db st))).
  { destruct Hcase as [(_ & _ & _ & _ & H0 & Hn)|(_ & e & _ & Hf)].
    - destruct (decide (records_fetched (locals (run_etl_for_source ev src st).2) = 0%nat))
        as [Hz|Hnz]; [left; by apply H0 |].
      right. destruct (Hn Hnz) as (_ & v & -> & _). eauto.
    - destruct (run_etl_for_source ev src st).1.
      + right. destruct Hf as (_ & now & _ & ->). eauto.
      + left. by destruct Hf. }
  destruct Hshape as [->|[h ->]]; [done |].
  split; [apply dom_alter_L |]. intros s Hs. by rewrite lookup_alter_ne.
Qed.


(* ===================================================================== *)
(** * More on [save_raw] *)
(* ===================================================================== *)

Lemma valid_records_cons (src : source_kind) (item : pydict) (rest : list pydict) :
  valid_records src (item :: rest)
  = if validate src item then item :: valid_records src rest else valid_records src rest.
Proof. reflexivity. Qed.

Lemma save_raw_csv_loop_cons (ev : env) (ts : datetime) (last : Z) (item : pydict)
    (rest : list pydict) (idx : nat) (tbl : list raw_csv_row) (aborted : bool)
    (count : nat) :
  save_raw_csv_loop ev ts last (item :: rest) idx tbl aborted count
  = if negb (validate CSV item)
    then save_raw_csv_loop ev ts last rest (S idx) tbl aborted count
    else
      '(tbl', saved_count') ←
        try_except
          (lift (execute aborted (fault_save_execute ev idx)).1;;
           mret (insert_raw_csv
                   {| csv_source_file := csv_data_path ev;
                      csv_row_number := last + Z.of_nat idx + 1;
                      csv_data_timestamp := ts; csv_raw_data := item |} tbl,
                 S count))
          (fun e => log "Failed to save individual CSV record";; mret (tbl, count));
      save_raw_csv_loop ev ts last rest (S idx) tbl'
        (execute aborted (fault_save_execute ev idx)).2 saved_count'.
Proof. reflexivity. Qed.

Lemma save_raw_api_loop_cons (ev : env) (src : source_kind) (ts : datetime) (item : pydict)
    (rest : list pydict) (idx : nat) (tbl : list raw_api_row) (aborted : bool)
    (count : nat) :
  save_raw_api_loop ev src ts (item :: rest) idx tbl aborted count
  = if negb (validate src item)
    then save_raw_api_loop ev src ts rest (S idx) tbl aborted count
    else
      '(tbl', saved_count') ←
        try_except
          (lift (execute aborted (fault_save_execute ev idx)).1;;
           mret (insert_raw_api
                   {| api_coin_id := dict_get item "coin_id";
                      api_data_timestamp := ts; api_raw_data := item |} tbl,
                 S count))
          (fun e => log "Failed to save individual record";; mret (tbl, count));
      save_raw_api_loop ev src ts rest (S idx) tbl'
        (execute aborted (fault_save_execute ev idx)).2 saved_count'.
Proof. reflexivity. Qed.

(** The CSV loop: the rows it adds, after the rows of the table, and its
    count. *)
Lemma save_raw_csv_loop_rows (ev : env) (ts : datetime) (last : Z) (data : list pydict) :
  ∀ (idx : nat) (tbl : list raw_csv_row) (aborted : bool) (count : nat) (st : state),
  ∃ new aborted' count' st',
    save_raw_csv_loop ev ts last data idx tbl aborted count st
    = (Ok ((tbl ++ new)%list, aborted', count'), st')
    ∧ db st' = db st ∧ tick st' = tick st ∧ locals st' = locals st
    ∧ Forall (fun r => csv_source_file r = csv_data_path ev
                       ∧ csv_data_timestamp r = ts
                       ∧ validate CSV (csv_raw_data r) = true
                       ∧ ∃ i, data !! i = Some (csv_raw_data r)
                              ∧ csv_row_number r = last + Z.of_nat (idx + i) + 1) new
    ∧ (count' ≤ count + List.length (valid_records CSV data))%nat
    ∧ ((∀ i, fault_save_execute ev i = None) → aborted = false →
       count' = (count + List.length (valid_records CSV data))%nat).
Proof.
  induction data as [|item rest IH]; intros idx tbl aborted count st.
  - exists [], aborted, count, st. rewrite app_nil_r. simpl. repeat split; auto; lia.
  - rewrite save_raw_csv_loop_cons, valid_records_cons.
    destruct (validate CSV item) eqn:Hvalid; cbn [negb].
    + rewrite bind_run. unfold try_except. rewrite bind_run.
      destruct (execute aborted (fault_save_execute ev idx)) as [[[]|e] a] eqn:Hex;
        cbn [fst snd]; simpl.
      * apply execute_ok in Hex as (-> & _ & ->).
        set (row := {| csv_source_file := csv_data_path ev;
                       csv_row_number := last + Z.of_nat idx + 1;
                       csv_data_timestamp := ts; csv_raw_data := item |}).
        unfold insert_raw_csv. destruct (existsb _ tbl).
        -- destruct (IH (S idx) tbl false (S count) st)
             as (new & a' & count' & st' & -> & Hdb & Htick & Hloc & Hnew & Hle & Heq).
           exists new, a', count', st'. split; [reflexivity |]. repeat split; auto.
           ++ eapply Forall_impl; [exact Hnew |]. intros r (? & ? & ? & i & Hi & Hr).
              repeat split; auto. exists (S i). split; [exact Hi |]. rewrite Hr. lia.
           ++ simpl; lia.
           ++ intros Hall _. rewrite (Heq Hall eq_refl). simpl. lia.
        -- destruct (IH (S idx) (tbl ++ [row])%list false (S count) st)
             as (new & a' & count' & st' & -> & Hdb & Htick & Hloc & Hnew & Hle & Heq).
           exists (row :: new), a', count', st'.
           split; [by rewrite <- app_assoc |]. repeat split; auto.
           ++ constructor.
              ** repeat split; auto. exists 0%nat. split; [reflexivity |]. simpl. lia.
              ** eapply Forall_impl; [exact Hnew |]. intros r (? & ? & ? & i & Hi & Hr).
                 repeat split; auto. exists (S i). split; [exact Hi |]. rewrite Hr. lia.
           ++ simpl; lia.
           ++ intros Hall _. rewrite (Heq Hall eq_refl). simpl. lia.
      * destruct (IH (S idx) tbl a count
                    {| db := db st; tick := tick st;
                       logs := (logs st ++ ["Failed to save individual CSV record"])%list;
                       locals := locals st |})
          as (new & a' & count' & st' & -> & Hdb & Htick & Hloc & Hnew & Hle & Heq).
        exists new, a', count', st'. split; [reflexivity |]. repeat split; auto.
        -- eapply Forall_impl; [exact Hnew |]. intros r (? & ? & ? & i & Hi & Hr).
           repeat split; auto. exists (S i). split; [exact Hi |]. rewrite Hr. lia.
        -- simpl; lia.
        -- intros Hall ->. rewrite (execute_works _ (Hall idx)) in Hex. discriminate.
    + destruct (IH (S idx) tbl aborted count st)
        as (new & a' & count' & st' & -> & Hdb & Htick & Hloc & Hnew & Hle & Heq).
      exists new, a', count', st'. split; [reflexivity |]. repeat split; auto.
      eapply Forall_impl; [exact Hnew |]. intros r (? & ? & ? & i & Hi & Hr).
      repeat split; auto. exists (S i). split; [exact Hi |]. rewrite Hr. lia.
Qed.

(** The loop of the HTTP adapters, likewise. *)
Lemma save_raw_api_loop_rows (ev : env) (src : source_kind) (ts : datetime)
    (data : list pydict) :
  ∀ (idx : nat) (tbl : list raw_api_row) (aborted : bool) (count : nat) (st : state),
  ∃ new aborted' count' st',
    save_raw_api_loop ev src ts data idx tbl aborted count st
    = (Ok ((tbl ++ new)%list, aborted', count'), st')
    ∧ db st' = db st ∧ tick st' = tick st ∧ locals st' = locals st
    ∧ Forall (fun r => api_data_timestamp r = ts
                       ∧ validate src (api_raw_data r) = true
                       ∧ api_raw_data r ∈ data
                       ∧ api_coin_id r = dict_get (api_raw_data r) "coin_id") new
    ∧ (count' ≤ count + List.length (valid_records src data))%nat
    ∧ ((∀ i, fault_save_execute ev i = None) → aborted = false →
       count' = (count + List.length (valid_records src data))%nat).
Proof.
  induction data as [|item rest IH]; intros idx tbl aborted count st.
  - exists [], aborted, count, st. rewrite app_nil_r. simpl. repeat split; auto; lia.
  - rewrite save_raw_api_loop_cons, valid_records_cons.
    destruct (validate src item) eqn:Hvalid; cbn [negb].
    + rewrite bind_run. unfold try_except. rewrite bind_run.
      destruct (execute aborted (fault_save_execute ev idx)) as [[[]|e] a] eqn:Hex;
        cbn [fst snd]; simpl.
      * apply execute_ok in Hex as (-> & _ & ->).
        set (row := {| api_coin_id := dict_get item "coin_id";
                       api_data_timestamp := ts; api_raw_data := item |}).
        unfold insert_raw_api. destruct (existsb _ tbl).
        -- destruct (IH (S idx) tbl false (S count) st)
             as (new & a' & count' & st' & -> & Hdb & Htick & Hloc & Hnew & Hle & Heq).
           exists new, a', count', st'. split; [reflexivity |]. repeat split; auto.
           ++ eapply Forall_impl; [exact Hnew |]. intros r (? & ? & Hin & ?).
              repeat split; auto. by apply elem_of_cons; right.
           ++ simpl; lia.
           ++ intros Hall _. rewrite (Heq Hall eq_refl). simpl. lia.
        -- destruct (IH (S idx) (tbl ++ [row])%list false (S count) st)
             as (new & a' & count' & st' & -> & Hdb & Htick & Hloc & Hnew & Hle & Heq).
           exists (row :: new), a', count', st'.
           split; [by rewrite <- app_assoc |]. repeat split; auto.
           ++ constructor.
              ** repeat split; auto. by apply elem_of_cons; left.
              ** eapply Forall_impl; [exact Hnew |]. intros r (? & ? & Hin & ?).
                 repeat split; auto. by apply elem_of_cons; right.
           ++ simpl; lia.
           ++ intros Hall _. rewrite (Heq Hall eq_refl). simpl. lia.
      * destruct (IH (S idx) tbl a count
                    {| db := db st; tick := tick st;
                       logs := (logs st ++ ["Failed to save individual record"])%list;
                       locals := locals st |})
          as (new & a' & count' & st' & -> & Hdb & Htick & Hloc & Hnew & Hle & Heq).
        exists new, a', count', st'. split; [reflexivity |]. repeat split; auto.
        -- eapply Forall_impl; [exact Hnew |]. intros r (? & ? & Hin & ?).
           repeat split; auto. by apply elem_of_cons; right.
        -- simpl; lia.
        -- intros Hall ->. rewrite (execute_works _ (Hall idx)) in Hex. discriminate.
    + destruct (IH (S idx) tbl aborted count st)
        as (new & a' & count' & st' & -> & Hdb & Htick & Hloc & Hnew & Hle & Heq).
      exists new, a', count', st'. split; [reflexivity |]. repeat split; auto.
      eapply Forall_impl; [exact Hnew |]. intros r (? & ? & Hin & ?).
      repeat split; auto. by apply elem_of_cons; right.
Qed.
(** The loops as steps of a run. *)
Lemma wp_save_raw_csv_loop (ev : env) (ts : datetime) (last : Z) (data : list pydict)
    (idx : nat) (tbl : list raw_csv_row) (aborted : bool) (count : nat) (st : state)
    (Q : res (list raw_csv_row * bool * nat) -> state -> Prop) :
  (∀ new aborted' count' st',
     db st' = db st → tick st' = tick st → locals st' = locals st →
     Forall (fun r => csv_source_file r = csv_data_path ev
                      ∧ csv_data_timestamp r = ts
                      ∧ validate CSV (csv_raw_data r) = true
                      ∧ ∃ i, data !! i = Some (csv_raw_data r)
                             ∧ csv_row_number r = last + Z.of_nat (idx + i) + 1) new →
     (count' ≤ count + List.length (valid_records CSV data))%nat →
     ((∀ i, fault_save_execute ev i = None) → aborted = false →
      count' = (count + List.length (valid_records CSV data))%nat) →
     Q (Ok ((tbl ++ new)%list, aborted', count')) st') →
  wp (save_raw_csv_loop ev ts last data idx tbl aborted count) st Q.
Proof.
  intros HQ. unfold wp.
  destruct (save_raw_csv_loop_rows ev ts last data idx tbl aborted count st)
    as (new & a' & count' & st' & -> & Hdb & Htick & Hloc & Hnew & Hle & Heq).
  simpl. by apply HQ.
Qed.

Lemma wp_save_raw_api_loop (ev : env) (src : source_kind) (ts : datetime)
    (data : list pydict) (idx : nat) (tbl : list raw_api_row) (aborted : bool)
    (count : nat) (st : state)
    (Q : res (list raw_api_row * bool * nat) -> state -> Prop) :
  (∀ new aborted' count' st',
     db st' = db st → tick st' = tick st → locals st' = locals st →
     Forall (fun r => api_data_timestamp r = ts
                      ∧ validate src (api_raw_data r) = true
                      ∧ api_raw_data r ∈ data
                      ∧ api_coin_id r = dict_get (api_raw_data r) "coin_id") new →
     (count' ≤ count + List.length (valid_records src data))%nat →
     ((∀ i, fault_save_execute ev i = None) → aborted = false →
      count' = (count + List.length (valid_records src data))%nat) →
     Q (Ok ((tbl ++ new)%list, aborted', count')) st') →
  wp (save_raw_api_loop ev src ts data idx tbl aborted count) st Q.
Proof.
  intros HQ. unfold wp.
  destruct (save_raw_api_loop_rows ev src ts data idx tbl aborted count st)
    as (new & a' & count' & st' & -> & Hdb & Htick & Hloc & Hnew & Hle & Heq).
  simpl. by apply HQ.
Qed.

Lemma archived_unchanged (src : source_kind) (d : database) (new : list (datetime * pydict)) :
  new = [] → archived src d = (archived src d ++ new)%list.
Proof. intros ->. by rewrite app_nil_r. Qed.

(** What [save_raw] does to the archives: it adds rows after those the
    archive of its source holds, each with the time read at the start of
    the call and a record of the batch that [validate] accepts; it leaves
    the archives of the other sources as they are; and when it raises, the
    store is as it was. *)
Theorem save_raw_archives_valid_records (ev : env) (src : source_kind)
    (data : list pydict) (st : state) :
  let out := save_raw ev src data st in
  (∃ new, archived src (db out.2) = (archived src (db st) ++ new)%list
          ∧ Forall (fun p => p.1 = time_at ev (tick st) ∧ p.2 ∈ data
                             ∧ validate src p.2 = true) new)
  ∧ (∀ src', src' ≠ src → archived src' (db out.2) = archived src' (db st))
  ∧ (∀ e, out.1 = Raise e → db out.2 = db st).
Proof.
  cbv zeta. change (wp (save_raw ev src data) st (fun r st' =>
    (∃ new, archived src (db st') = (archived src (db st) ++ new)%list
            ∧ Forall (fun p => p.1 = time_at ev (tick st) ∧ p.2 ∈ data
                               ∧ validate src p.2 = true) new)
    ∧ (∀ src', src' ≠ src → archived src' (db st') = archived src' (db st))
    ∧ (∀ e, r = Raise e → db st' = db st))).
  assert (Hsame : ∀ st', db st' = db st →
            (∃ new, archived src (db st') = (archived src (db st) ++ new)%list
                    ∧ Forall (fun p => p.1 = time_at ev (tick st) ∧ p.2 ∈ data
                                       ∧ validate src p.2 = true) new)
            ∧ (∀ src', src' ≠ src → archived src' (db st') = archived src' (db st))
            ∧ (∀ e : exn, db st' = db st)).
  { intros st' ->. split; [exists []; split; [by rewrite app_nil_r | constructor] |].
    split; auto. }
  unfold save_raw. destruct data as [|item rest].
  { wp_steps. destruct (Hsame st eq_refl) as (H1 & H2 & H3). repeat split; auto. }
  wp_step. wp_step. cbn beta iota.
  destruct src.
  - wp_step. wp_step. wp_step.
    destruct (fault_save_connect ev); wp_steps;
      [cbn [db]; destruct (Hsame st eq_refl) as (H1 & H2 & H3); repeat split; auto |].
    apply wp_save_raw_api_loop. intros new a' count' st' Hdb _ _ Hnew _ _. cbn beta iota.
    wp_step. wp_step. destruct (fault_save_commit ev); [| destruct a']; wp_steps.
    + cbn [db] in *. rewrite Hdb. destruct (Hsame st eq_refl) as (H1 & H2 & H3).
      repeat split; auto.
    + cbn [db] in *. rewrite Hdb. destruct (Hsame st eq_refl) as (H1 & H2 & H3).
      repeat split; auto.
    + cbn [db] in *. rewrite Hdb. split; [| split].
      * exists ((fun r => (api_data_timestamp r, api_raw_data r)) <$> new).
        split; [unfold archived, with_raw_coinpaprika, with_raw_coingecko, with_raw_csv;
                cbn [raw_coinpaprika raw_coingecko raw_csv]; by rewrite fmap_app |].
        apply Forall_fmap. eapply Forall_impl; [exact Hnew |].
        intros r (? & ? & ? & ?). simpl. auto.
      * intros [] Hne; try reflexivity. contradiction.
      * intros e [=].
  - wp_step. wp_step. wp_step.
    destruct (fault_save_connect ev); wp_steps;
      [cbn [db]; destruct (Hsame st eq_refl) as (H1 & H2 & H3); repeat split; auto |].
    apply wp_save_raw_api_loop. intros new a' count' st' Hdb _ _ Hnew _ _. cbn beta iota.
    wp_step. wp_step. destruct (fault_save_commit ev); [| destruct a']; wp_steps.
    + cbn [db] in *. rewrite Hdb. destruct (Hsame st eq_refl) as (H1 & H2 & H3).
      repeat split; auto.
    + cbn [db] in *. rewrite Hdb. destruct (Hsame st eq_refl) as (H1 & H2 & H3).
      repeat split; auto.
    + cbn [db] in *. rewrite Hdb. split; [| split].
      * exists ((fun r => (api_data_timestamp r, api_raw_data r)) <$> new).
        split; [unfold archived, with_raw_coinpaprika, with_raw_coingecko, with_raw_csv;
                cbn [raw_coinpaprika raw_coingecko raw_csv]; by rewrite fmap_app |].
        apply Forall_fmap. eapply Forall_impl; [exact Hnew |].
        intros r (? & ? & ? & ?). simpl. auto.
      * intros [] Hne; try reflexivity. contradiction.
      * intros e [=].
  - wp_step. eapply wp_mono; [apply get_last_row_number_spec |].
    intros [last|e] st0 (Hdb0 & Htick0 & Hloc0); cbn beta iota;
      [| cbn [db] in *; destruct (Hsame st0 Hdb0) as (H1 & H2 & H3); repeat split; auto].
    wp_step. wp_step. wp_step.
    destruct (fault_save_connect ev); wp_steps;
      [cbn [db] in *; destruct (Hsame st0 Hdb0) as (H1 & H2 & H3); repeat split; auto |].
    apply wp_save_raw_csv_loop. intros new a' count' st' Hdb _ _ Hnew _ _. cbn beta iota.
    wp_step. wp_step. destruct (fault_save_commit ev); [| destruct a']; wp_steps;
      cbn [db] in *.
    + rewrite Hdb, Hdb0. destruct (Hsame st eq_refl) as (H1 & H2 & H3). repeat split; auto.
    + rewrite Hdb, Hdb0. destruct (Hsame st eq_refl) as (H1 & H2 & H3). repeat split; auto.
    + rewrite Hdb, Hdb0. split; [| split].
      * exists ((fun r => (csv_data_timestamp r, csv_raw_data r)) <$> new).
        split; [unfold archived, with_raw_coinpaprika, with_raw_coingecko, with_raw_csv;
                cbn [raw_coinpaprika raw_coingecko raw_csv]; by rewrite fmap_app |].
        apply Forall_fmap. eapply Forall_impl; [exact Hnew |].
        intros r (_ & Hts & Hvalid & i & Hi & _). simpl.
        split; [exact Hts |]. split; [| exact Hvalid].
        by eapply list_elem_of_lookup_2.
      * intros [] Hne; try reflexivity. contradiction.
      * intros e [=].
Qed.
(** A step that returns what the function returns. *)
Lemma wp_result {A} (m : M A) (st : state) (Q : res A -> state -> Prop) :
  Q (m st).1 (m st).2 → wp m st Q.
Proof. auto. Qed.

(** [save_raw] returns the number of records of the batch that [validate]
    accepts, whenever the driver does not fail (and, for the CSV adapter,
    the row count can be read): the count does not tell how many rows were
    inserted. *)
Theorem save_raw_counts_valid_records (ev : env) (src : source_kind) (data : list pydict)
    (st : state) :
  archive_driver_works ev →
  (src = CSV → ∃ last_row, (get_last_row_number ev InSaveRaw "csv" st).1 = Ok last_row) →
  (save_raw ev src data st).1 = Ok (List.length (valid_records src data)).
Proof.
  intros (Hconn & Hcommit & Hexec) Hlast.
  change (wp (save_raw ev src data) st (fun r _ =>
            r = Ok (List.length (valid_records src data)))).
  unfold save_raw. destruct data as [|item rest]; [by wp_steps |].
  wp_step. wp_step. cbn beta iota.
  destruct src.
  - wp_step. wp_step. wp_step. rewrite Hconn. wp_steps.
    apply wp_save_raw_api_loop. intros new a' count' st' _ _ _ _ _ Hcount. cbn beta iota.
    wp_step. wp_step. rewrite Hcommit. wp_steps. by rewrite (Hcount Hexec eq_refl).
  - wp_step. wp_step. wp_step. rewrite Hconn. wp_steps.
    apply wp_save_raw_api_loop. intros new a' count' st' _ _ _ _ _ Hcount. cbn beta iota.
    wp_step. wp_step. rewrite Hcommit. wp_steps. by rewrite (Hcount Hexec eq_refl).
  - destruct (Hlast eq_refl) as [last_row Hrow].
    wp_step. apply wp_result.
    rewrite (get_last_row_number_db ev InSaveRaw "csv" _ st) by reflexivity.
    rewrite Hrow.
    wp_step. wp_step. wp_step. rewrite Hconn. wp_steps.
    apply wp_save_raw_csv_loop. intros new a' count' st' _ _ _ _ _ Hcount. cbn beta iota.
    wp_step. wp_step. rewrite Hcommit. wp_steps. by rewrite (Hcount Hexec eq_refl).
Qed.

(** The rows [CSVSource.save_raw] adds are numbered by the position of
    their record in the batch, from 1, in every call (records that are not
    valid leave gaps), and carry the path of the file: the row count read
    back from the checkpoint is 0 whenever it is read back. *)
Theorem csv_rows_numbered_by_position (ev : env) (data : list pydict) (st : state) :
  let out := save_raw ev CSV data st in
  ∃ new, raw_csv (db out.2) = (raw_csv (db st) ++ new)%list
         ∧ Forall (fun r => csv_source_file r = csv_data_path ev
                            ∧ ∃ idx, data !! idx = Some (csv_raw_data r)
                                     ∧ csv_row_number r = Z.of_nat idx + 1) new.
Proof.
  cbv zeta. change (wp (save_raw ev CSV data) st (fun _ st' =>
    ∃ new, raw_csv (db st') = (raw_csv (db st) ++ new)%list
           ∧ Forall (fun r => csv_source_file r = csv_data_path ev
                              ∧ ∃ idx, data !! idx = Some (csv_raw_data r)
                                       ∧ csv_row_number r = Z.of_nat idx + 1) new)).
  assert (Hsame : ∀ st', db st' = db st →
            ∃ new, raw_csv (db st') = (raw_csv (db st) ++ new)%list
                   ∧ Forall (fun r => csv_source_file r = csv_data_path ev
                                      ∧ ∃ idx, data !! idx = Some (csv_raw_data r)
                                               ∧ csv_row_number r = Z.of_nat idx + 1) new).
  { intros st' ->. exists []. split; [by rewrite app_nil_r | constructor]. }
  unfold save_raw. destruct data as [|item rest]; [wp_steps; by apply Hsame |].
  wp_step. wp_step. cbn beta iota.
  wp_step. apply wp_result.
  match goal with |- context [get_last_row_number ev InSaveRaw "csv" ?s] =>
    pose proof (get_last_row_number_spec ev InSaveRaw "csv" s) as Hspec;
    pose proof (get_last_row_number_is_zero ev InSaveRaw "csv" s) as Hzero;
    unfold wp in Hspec;
    destruct (get_last_row_number ev InSaveRaw "csv" s) as [[last|e] st0]
  end.
  2:{ cbn [fst snd db] in *. destruct Hspec as (Hdb0 & _ & _). by apply Hsame. }
  cbn [fst snd db] in *. destruct Hspec as (Hdb0 & _ & _).
  specialize (Hzero last eq_refl). subst last.
  wp_step. wp_step. wp_step.
  destruct (fault_save_connect ev); wp_steps; [cbn [db] in *; by apply Hsame |].
  apply wp_save_raw_csv_loop. intros new a' count' st' Hdb _ _ Hnew _ _. cbn beta iota.
  wp_step. wp_step. destruct (fault_save_commit ev); [| destruct a']; wp_steps;
    cbn [db] in *.
  - apply Hsame. by rewrite Hdb, Hdb0.
  - apply Hsame. by rewrite Hdb, Hdb0.
  - rewrite Hdb, Hdb0. exists new. split; [reflexivity |].
    eapply Forall_impl; [exact Hnew |].
    intros r (Hfile & _ & _ & i & Hi & Hnum). split; [exact Hfile |].
    exists i. split; [exact Hi |]. rewrite Hnum. simpl. lia.
Qed.


(* ===================================================================== *)
(** * More on [run_etl_for_source] *)
(* ===================================================================== *)

Lemma wp_conj {A} (m : M A) (st : state) (Q1 Q2 : res A -> state -> Prop) :
  wp m st Q1 → wp m st Q2 → wp m st (fun r st' => Q1 r st' ∧ Q2 r st').
Proof. unfold wp. auto. Qed.

(** [save_raw] of an HTTP adapter returns when the driver connects and
    commits. *)
Lemma save_raw_returns (ev : env) (src : source_kind) (data : list pydict) (st : state) :
  src ≠ CSV → fault_save_connect ev = None → fault_save_commit ev = None →
  wp (save_raw ev src data) st (fun r _ => ∃ n, r = Ok n).
Proof.
  intros Hsrc Hconn Hcommit. unfold save_raw.
  destruct data as [|item rest]; [wp_steps; eauto |].
  wp_step. wp_step. cbn beta iota.
  destruct src; [| | contradiction].
  - wp_step. wp_step. wp_step. rewrite Hconn. wp_steps.
    apply wp_save_raw_api_loop. intros new a' count' st' _ _ _ _ _ _. cbn beta iota.
    wp_step. wp_step. rewrite Hcommit. wp_steps. eauto.
  - wp_step. wp_step. wp_step. rewrite Hconn. wp_steps.
    apply wp_save_raw_api_loop. intros new a' count' st' _ _ _ _ _ _. cbn beta iota.
    wp_step. wp_step. rewrite Hcommit. wp_steps. eauto.
Qed.

Lemma archive_and_upsert_returns (ev : env) (src : source_kind) (data : list pydict)
    (st : state) :
  src ≠ CSV → fault_save_connect ev = None → fault_save_commit ev = None →
  fault_norm_connect ev = None → fault_norm_commit ev = None →
  wp (archive_and_upsert ev src data) st (fun r _ => r = Ok tt).
Proof.
  intros Hsrc Hconn Hcommit Hnconn Hncommit. unfold archive_and_upsert.
  wp_step. eapply wp_mono; [by apply save_raw_returns |].
  intros r st1 [n ->]. cbn beta iota.
  wp_step. wp_step. rewrite Hnconn. wp_steps.
  eapply wp_mono; [apply normalize_loop_spec |].
  intros r st2 (_ & _ & _ & _ & _ & _ & tbl' & a' & -> & _). cbn beta iota.
  wp_step. rewrite Hncommit. reflexivity.
Qed.

Lemma next_checkpoint_returns (ev : env) (src : source_kind) (st : state) :
  src ≠ CSV → wp (next_checkpoint ev src) st (fun r _ => ∃ mark, r = Ok mark).
Proof.
  intros Hsrc. unfold next_checkpoint. destruct src; [| | contradiction]; simpl;
    wp_steps; eauto.
Qed.

(** The [try] block of an HTTP run returns when [fetch] returns and the
    driver fails at no point but a statement for one record. *)
Lemma try_block_returns (ev : env) (src : source_kind) (st : state) (data : list pydict) :
  src ≠ CSV → (fetch ev src st).1 = Ok data →
  fault_save_connect ev = None → fault_save_commit ev = None →
  fault_norm_connect ev = None → fault_norm_commit ev = None →
  fault_checkpoint_success ev = NoFault →
  wp (try_block ev src) st (fun r st' =>
    r = Ok tt ∧ records_fetched (locals st') = List.length data).
Proof.
  intros Hsrc Hfetch Hconn Hcommit Hnconn Hncommit Hmark. unfold try_block.
  wp_step. apply wp_result. rewrite Hfetch.
  wp_step. wp_step. cbn beta iota.
  destruct data as [|item rest]; [by wp_steps |].
  wp_step. eapply wp_mono.
  { apply wp_conj; [by apply archive_and_upsert_returns | by apply archive_and_upsert_spec]. }
  intros r st1 (-> & _ & _ & _ & _ & _ & Hn & _). cbn beta iota.
  wp_step. eapply wp_mono.
  { apply wp_conj; [by apply next_checkpoint_returns | apply next_checkpoint_spec]. }
  intros r st2 ([[v md] ->] & _ & Hloc & _). cbn beta iota.
  pose proof (update_checkpoint_spec ev (source_name src) v true None md st2) as Hupd.
  unfold wp in Hupd |- *. destruct Hupd as (Hloc3 & _).
  rewrite update_checkpoint_no_fault by exact Hmark.
  split; [reflexivity |]. by rewrite Hloc3, Hloc, Hn.
Qed.

(** A record that cannot be normalized or upserted never fails the run of
    an HTTP source: when [fetch] returns and the driver connects and
    commits, the run ends with the status [success] and counts every record
    of the batch as processed or failed, even if that is all of them
    failed. *)
Theorem run_succeeds_despite_bad_records (ev : env) (src : source_kind) (st : state)
    (data : list pydict) :
  let out := run_etl_for_source ev src st in
  src ≠ CSV →
  (fetch ev src st).1 = Ok data →
  fault_save_connect ev = None → fault_save_commit ev = None →
  fault_norm_connect ev = None → fault_norm_commit ev = None →
  fault_checkpoint_success ev = NoFault →
  out.1 = Ok tt
  ∧ status (locals out.2) = "success"
  ∧ records_fetched (locals out.2) = List.length data
  ∧ (records_processed (locals out.2) + records_failed (locals out.2)
     = List.length data)%nat.
Proof.
  cbv zeta. intros Hsrc Hfetch Hconn Hcommit Hnconn Hncommit Hmark.
  rewrite run_etl_for_source_cases. cbv zeta.
  pose proof (run_prelude_spec ev src st) as Hpre. unfold wp in Hpre.
  destruct Hpre as (_ & _ & Hloc1 & HC1 & _).
  set (st1 := (run_prelude ev src st).2) in *.
  assert (Hfetch1 : (fetch ev src st1).1 = Ok data)
    by (by rewrite (fetch_db ev src st1 st HC1)).
  pose proof (try_block_returns ev src st1 data Hsrc Hfetch1 Hconn Hcommit Hnconn Hncommit
                Hmark) as Hret.
  pose proof (try_block_spec ev src st1 Hloc1) as Hspec.
  unfold wp in Hret, Hspec.
  destruct (try_block ev src st1) as [r st2]. cbn [fst snd] in *.
  destruct Hret as [-> Hn].
  destruct Hspec as (_ & _ & _ & _ & Hstatus & _ & _ & Hcount & _).
  pose proof (run_epilogue_spec ev (time_at ev (tick st)) st2) as Hepi. unfold wp in Hepi.
  destruct Hepi as (Hr & Hloc & _).
  rewrite Hr, Hloc. repeat split; auto. by rewrite <- Hn.
Qed.
(** The CSV cursor never moves: when the orchestrator's read of the
    checkpoint works, no run of the CSV source, whatever its outcome,
    changes the [checkpoint_value] or the [last_success_at] of any row. A
    run that succeeds with records finds no row to update; a run that meets
    a row fails before it marks. *)
Theorem csv_cursor_never_moves (ev : env) (st : state) :
  let out := run_etl_for_source ev CSV st in
  let C := etl_checkpoints (db st) in
  let C' := etl_checkpoints (db out.2) in
  fault_get_checkpoint ev InOrchestrator = None →
  (∀ s, checkpoint_value <$> (C' !! s) = checkpoint_value <$> (C !! s))
  ∧ (∀ s, last_success_at <$> (C' !! s) = last_success_at <$> (C !! s))
  ∧ (status (locals out.2) = "success" → C' = C).
Proof.
  cbv zeta. intros Hread.
  pose proof (run_etl_for_source_spec ev CSV st) as Hspec. cbv zeta in Hspec.
  destruct Hspec as (_ & _ & _ & _ & _ & _ & Hcase).
  assert (Hsucc : status (locals (run_etl_for_source ev CSV st).2) = "success" →
                  etl_checkpoints (db (run_etl_for_source ev CSV st).2)
                  = etl_checkpoints (db st)).
  { intros Hst. destruct Hcase as [(_ & _ & _ & _ & H0 & Hn)|(Hf & _)];
      [| rewrite Hst in Hf; discriminate Hf].
    destruct (decide (records_fetched (locals (run_etl_for_source ev CSV st).2) = 0%nat))
      as [Hz|Hnz]; [by apply H0 |].
    destruct (Hn Hnz) as (_ & v & -> & _ & Hcsv).
    destruct (Hcsv eq_refl) as (last_row & Hlast & _).
    destruct (etl_checkpoints (db st) !! "csv") as [r|] eqn:Hrow.
    - rewrite (get_last_row_number_of_row _ _ _ _ _ Hread Hrow) in Hlast. discriminate Hlast.
    - apply map_eq. intros k. destruct (decide (k = "csv")) as [->|Hne].
      + simpl. rewrite lookup_alter_eq, Hrow. reflexivity.
      + simpl. by rewrite lookup_alter_ne. }
  destruct (decide (status (locals (run_etl_for_source ev CSV st).2) = "success"))
    as [Hst|Hst].
  { rewrite (Hsucc Hst). auto. }
  split; [| split]; [| | intros H; contradiction].
  - destruct Hcase as [(_ & H & _)|(_ & e & _ & Hf)]; [contradiction |].
    intros s. destruct (run_etl_for_source ev CSV st).1.
    + destruct Hf as (_ & now & _ & ->). by apply fmap_alter_frame.
    + destruct Hf as (_ & ->). reflexivity.
  - destruct Hcase as [(_ & H & _)|(_ & e & _ & Hf)]; [contradiction |].
    intros s. destruct (run_etl_for_source ev CSV st).1.
    + destruct Hf as (_ & now & _ & ->). by apply fmap_alter_frame.
    + destruct Hf as (_ & ->). reflexivity.
Qed.



(* ===================================================================== *)
(** * More on the entity resolver *)
(* ===================================================================== *)

Lemma _create_master_coin_tables (new_id : Z) (symbol name : string) (d : database) :
  etl_tables (_create_master_coin new_id symbol name d).2 = etl_tables d.
Proof. unfold _create_master_coin. destruct (master_coins d !! _); reflexivity. Qed.

(** [_create_master_coin] returns the id of the row that holds the symbol,
    the new id when there is none, and leaves that row with the name it
    was given. *)
Lemma _create_master_coin_row (new_id : Z) (symbol name : string) (d : database) :
  let out := _create_master_coin new_id symbol name d in
  out.1 = match master_coins d !! str_upper symbol with
          | Some row => mc_id row
          | None => new_id
          end
  ∧ (∃ row', master_coins out.2 !! str_upper symbol = Some row'
             ∧ mc_id row' = out.1 ∧ mc_name row' = name)
  ∧ ∀ sym, sym ≠ str_upper symbol → master_coins out.2 !! sym = master_coins d !! sym.
Proof.
  cbv zeta. unfold _create_master_coin.
  destruct (master_coins d !! str_upper symbol) as [row|] eqn:Hrow; simpl.
  - split; [reflexivity |]. split.
    + eexists. rewrite lookup_insert_eq. split; [reflexivity |]. split; reflexivity.
    + intros sym Hne. by rewrite lookup_insert_ne.
  - split; [reflexivity |]. split.
    + eexists. rewrite lookup_insert_eq. split; [reflexivity |]. split; reflexivity.
    + intros sym Hne. by rewrite lookup_insert_ne.
Qed.

(** The call for a key that has no mapping yet. *)
Lemma resolve_entity_unmapped (sim : string -> string -> Qc) (new_id : Z)
    (source source_id symbol name : string) (rs : resolver_state) :
  let out := resolve_entity sim new_id source source_id symbol name rs in
  unmapped rs (source, source_id) →
  out.1 = match master_coins (store rs) !! str_upper symbol with
          | Some row => mc_id row
          | None => new_id
          end
  ∧ (∃ row', master_coins (store out.2) !! str_upper symbol = Some row'
             ∧ mc_id row' = out.1)
  ∧ (∀ sym, sym ≠ str_upper symbol →
            master_coins (store out.2) !! sym = master_coins (store rs) !! sym)
  ∧ coin_source_mappings (store out.2)
    = <[(source, source_id) := out.1]> (coin_source_mappings (store rs))
  ∧ _source_mapping_cache out.2
    = <[(source, source_id) := out.1]> (_source_mapping_cache rs)
  ∧ etl_tables (store out.2) = etl_tables (store rs).
Proof.
  cbv zeta. intros [Hcache Hmap].
  unfold resolve_entity, get_or_create_master_coin. rewrite Hcache, Hmap.
  pose proof (_create_master_coin_row new_id symbol name (store rs)) as Hcreate.
  cbv zeta in Hcreate. destruct Hcreate as (Hid & Hrow' & Hother).
  pose proof (_create_master_coin_mappings new_id symbol name (store rs)) as Hcm.
  pose proof (_create_master_coin_tables new_id symbol name (store rs)) as Hct.
  assert (Hfound : ∀ f, _find_master_coin_by_symbol sim symbol name (store rs) = Some f →
                        ∃ row, master_coins (store rs) !! str_upper symbol = Some row
                               ∧ mc_id row = f).
  { unfold _find_master_coin_by_symbol. intros f.
    destruct (master_coins (store rs) !! str_upper symbol) as [row|]; [| discriminate].
    case_bool_decide; [| discriminate]. intros [= <-]. eauto. }
  destruct (_find_master_coin_by_symbol sim symbol name (store rs)) as [f|];
    [destruct (Z.eqb_spec f 0) as [->|Hnz] |].
  - destruct (_create_master_coin new_id symbol name (store rs)) as [id d].
    simpl in *. rewrite Hcm, Hmap. simpl. repeat split; auto.
    destruct Hrow' as (row' & ? & ? & _). eauto.
  - destruct (Hfound f eq_refl) as (row & Hrow & <-).
    simpl. rewrite Hmap, Hrow. simpl. repeat split; eauto.
  - destruct (_create_master_coin new_id symbol name (store rs)) as [id d].
    simpl in *. rewrite Hcm, Hmap. simpl. repeat split; auto.
    destruct Hrow' as (row' & ? & ? & _). eauto.
Qed.
Lemma consistent_unmapped (rs : resolver_state) (key : string * string) :
  cache_consistent rs → coin_source_mappings (store rs) !! key = None → unmapped rs key.
Proof.
  intros Hcons Hmap. split; [| exact Hmap].
  destruct (_source_mapping_cache rs !! key) as [v|] eqn:Hc; [| reflexivity].
  apply Hcons in Hc. rewrite Hmap in Hc. discriminate Hc.
Qed.

(** The store after a call whose key has a mapping already. *)
Lemma resolve_entity_mapped (sim : string -> string -> Qc) (new_id : Z)
    (source source_id symbol name : string) (rs : resolver_state) (v : Z) :
  cache_consistent rs →
  coin_source_mappings (store rs) !! (source, source_id) = Some v →
  (resolve_entity sim new_id source source_id symbol name rs).1 = v
  ∧ store (resolve_entity sim new_id source source_id symbol name rs).2 = store rs.
Proof.
  intros Hcons Hmap. unfold resolve_entity, get_or_create_master_coin.
  destruct (_source_mapping_cache rs !! (source, source_id)) as [c|] eqn:Hc.
  - apply Hcons in Hc. rewrite Hmap in Hc. injection Hc as <-. split; reflexivity.
  - rewrite Hmap. split; reflexivity.
Qed.

(** What [resolve_entity] leaves alone: a mapping that exists is never
    changed, no key but the one of the call gets a mapping, no master coin
    is deleted or given another id, no master coin of another symbol is
    touched, and the tables of the pipeline are not written. *)
Theorem resolve_entity_frame (sim : string -> string -> Qc) (new_id : Z)
    (source source_id symbol name : string) (rs : resolver_state) :
  let out := resolve_entity sim new_id source source_id symbol name rs in
  cache_consistent rs →
  (∀ k v, coin_source_mappings (store rs) !! k = Some v →
          coin_source_mappings (store out.2) !! k = Some v)
  ∧ (∀ k, k ≠ (source, source_id) →
          coin_source_mappings (store out.2) !! k = coin_source_mappings (store rs) !! k)
  ∧ (∀ sym row, master_coins (store rs) !! sym = Some row →
                ∃ row', master_coins (store out.2) !! sym = Some row'
                        ∧ mc_id row' = mc_id row)
  ∧ (∀ sym, sym ≠ str_upper symbol →
            master_coins (store out.2) !! sym = master_coins (store rs) !! sym)
  ∧ etl_tables (store out.2) = etl_tables (store rs).
Proof.
  cbv zeta. intros Hcons.
  destruct (coin_source_mappings (store rs) !! (source, source_id)) as [v|] eqn:Hmap.
  - destruct (resolve_entity_mapped sim new_id source source_id symbol name rs v Hcons Hmap)
      as [_ ->].
    repeat split; eauto.
  - pose proof (resolve_entity_unmapped sim new_id source source_id symbol name rs
                  (consistent_unmapped _ _ Hcons Hmap)) as H.
    cbv zeta in H. destruct H as (Hid & (row' & Hrow' & Hid') & Hother & Hm & _ & Ht).
    split; [| split; [| split; [| split]]].
    + intros k v Hk. rewrite Hm. destruct (decide (k = (source, source_id))) as [->|Hne].
      * rewrite Hmap in Hk. discriminate Hk.
      * by rewrite lookup_insert_ne.
    + intros k Hne. rewrite Hm. by rewrite lookup_insert_ne.
    + intros sym row Hrow. destruct (decide (sym = str_upper symbol)) as [->|Hne].
      * exists row'. split; [exact Hrow' |]. rewrite Hid', Hid, Hrow. reflexivity.
      * exists row. split; [| reflexivity]. by rewrite Hother.
    + exact Hother.
    + exact Ht.
Qed.

(** The symbol alone decides the master coin: for a key that has no mapping
    yet, [resolve_entity] returns the id of the master coin that holds the
    symbol in upper case whenever there is one, however different the
    names and whatever the similarity: below the threshold the upsert on
    the symbol returns that same row. *)
Theorem existing_symbol_decides_master_coin (sim : string -> string -> Qc) (new_id : Z)
    (source source_id symbol name : string) (rs : resolver_state) (row : master_coin_row) :
  let out := resolve_entity sim new_id source source_id symbol name rs in
  unmapped rs (source, source_id) →
  master_coins (store rs) !! str_upper symbol = Some row →
  out.1 = mc_id row
  ∧ coin_source_mappings (store out.2) !! (source, source_id) = Some (mc_id row).
Proof.
  cbv zeta. intros Hun Hrow.
  pose proof (resolve_entity_unmapped sim new_id source source_id symbol name rs Hun) as H.
  cbv zeta in H. destruct H as (Hid & _ & _ & Hm & _).
  rewrite Hrow in Hid. split; [exact Hid |].
  rewrite Hm, lookup_insert_eq. by rewrite Hid.
Qed.

(** Two keys that have no mapping and carry the same symbol, up to case,
    are resolved to the same master coin, whatever their names, the
    similarity of the names and the ids the store hands out. *)
Theorem same_symbol_same_master_coin (sim sim' : string -> string -> Qc) (new_id new_id' : Z)
    (source source_id symbol name source' source_id' symbol' name' : string)
    (rs : resolver_state) :
  let first := resolve_entity sim new_id source source_id symbol name rs in
  let second := resolve_entity sim' new_id' source' source_id' symbol' name' first.2 in
  unmapped rs (source, source_id) →
  unmapped rs (source', source_id') →
  (source, source_id) ≠ (source', source_id') →
  str_upper symbol' = str_upper symbol →
  second.1 = first.1
  ∧ coin_source_mappings (store second.2) !! (source, source_id) = Some first.1
  ∧ coin_source_mappings (store second.2) !! (source', source_id') = Some first.1.
Proof.
  cbv zeta. intros Hun [Hc' Hm'] Hne Hsym.
  pose proof (resolve_entity_unmapped sim new_id source source_id symbol name rs Hun) as H.
  cbv zeta in H. destruct H as (_ & (row' & Hrow' & Hid') & _ & Hm & Hc & _).
  set (first := resolve_entity sim new_id source source_id symbol name rs) in *.
  assert (Hun2 : unmapped first.2 (source', source_id')).
  { split; [rewrite Hc | rewrite Hm]; by rewrite lookup_insert_ne. }
  pose proof (resolve_entity_unmapped sim' new_id' source' source_id' symbol' name' first.2
                Hun2) as H2.
  cbv zeta in H2. destruct H2 as (Hid2 & _ & _ & Hm2 & _).
  rewrite Hsym, Hrow', Hid' in Hid2.
  split; [exact Hid2 |]. rewrite Hm2, Hm, Hid2. split.
  - rewrite lookup_insert_ne by (by intros ?; apply Hne).
    apply lookup_insert_eq.
  - apply lookup_insert_eq.
Qed.

(** The cache never changes an answer: with a cache that holds only what
    the store holds, [resolve_entity] returns the same id and leaves the
    same store as it does after [clear_cache]. *)
Theorem cache_is_transparent (sim : string -> string -> Qc) (new_id : Z)
    (source source_id symbol name : string) (rs : resolver_state) :
  let cached := resolve_entity sim new_id source source_id symbol name rs in
  let cleared := resolve_entity sim new_id source source_id symbol name (clear_cache rs) in
  cache_consistent rs →
  cached.1 = cleared.1 ∧ store cached.2 = store cleared.2.
Proof.
  cbv zeta. intros Hcons.
  assert (Hcons' : cache_consistent (clear_cache rs)).
  { intros k v. simpl. rewrite lookup_empty. discriminate. }
  destruct (coin_source_mappings (store rs) !! (source, source_id)) as [v|] eqn:Hmap.
  - destruct (resolve_entity_mapped sim new_id source source_id symbol name rs v Hcons Hmap)
      as [-> ->].
    destruct (resolve_entity_mapped sim new_id source source_id symbol name (clear_cache rs) v
                Hcons' Hmap) as [-> ->].
    split; reflexivity.
  - destruct (consistent_unmapped _ _ Hcons Hmap) as [Hc _].
    unfold resolve_entity, get_or_create_master_coin, clear_cache. simpl.
    rewrite Hc, lookup_empty, Hmap.
    destruct (match _find_master_coin_by_symbol sim symbol name (store rs) with
              | Some found => _
              | None => _
              end) as [id d].
    split; reflexivity.
Qed.


(** The row the orchestrator binds for a normalized record. *)
Lemma upsert_params_model_dump (n : NormalizedCryptoData) :
  ∃ row, upsert_params (model_dump n) = Ok row
         ∧ col_source row = DbStr (source n)
         ∧ col_data_timestamp row = DbTime (data_timestamp n)
         ∧ col_master_coin_id row = DbNull.
Proof. eexists. split; [reflexivity |]. repeat split; reflexivity. Qed.

(** A row whose timestamp no row of the table carries is appended. *)
Lemma upsert_normalized_fresh (row : normalized_row) (tbl : list normalized_row) :
  (∀ r, r ∈ tbl → col_data_timestamp r ≠ col_data_timestamp row) →
  upsert_normalized row tbl = (tbl ++ [row])%list.
Proof.
  intros Hfresh. unfold upsert_normalized.
  destruct (existsb (same_natural_key row) tbl) eqn:Hex; [| reflexivity].
  apply existsb_exists in Hex as (r & Hin & Hkey).
  apply list_elem_of_In in Hin. specialize (Hfresh r Hin).
  unfold same_natural_key in Hkey. apply andb_prop in Hkey as [_ Hts].
  exfalso. apply Hfresh.
  destruct (col_data_timestamp row), (col_data_timestamp r); simpl in Hts;
    try discriminate.
  - apply String.eqb_eq in Hts. by subst.
  - apply Z.eqb_eq in Hts. by subst.
  - apply bool_decide_eq_true in Hts. by subst.
Qed.
Lemma normalizer_stamps (src : source_kind) (raw_data : pydict) (ts : datetime)
    (n : NormalizedCryptoData) :
  normalizer src raw_data ts = Ok n → source n = source_name src ∧ data_timestamp n = ts.
Proof.
  intros Hn.
  destruct src; simpl in Hn;
    unfold normalize_coinpaprika, normalize_coingecko, normalize_csv in Hn;
    res_inv Hn; apply NormalizedCryptoData_init_ok in Hn; destruct_and!; auto.
Qed.

Lemma timestamps_are_past_later (ev : env) (t t' : nat) (tbl : list normalized_row) :
  (t ≤ t')%nat → timestamps_are_past ev t tbl → timestamps_are_past ev t' tbl.
Proof. intros Hle H r i Hin Hi. apply H; [exact Hin | lia]. Qed.

Lemma timestamps_are_past_snoc (ev : env) (t : nat) (tbl : list normalized_row)
    (row : normalized_row) :
  clock_never_repeats ev → timestamps_are_past ev t tbl →
  col_data_timestamp row = DbTime (time_at ev t) →
  timestamps_are_past ev (S t) (tbl ++ [row]).
Proof.
  intros Hclock H Hrow r i Hin Hi. apply elem_of_app in Hin as [Hin|Hin].
  - apply H; [exact Hin | lia].
  - apply list_elem_of_singleton in Hin as ->. rewrite Hrow. intros [= Heq].
    apply Hclock in Heq. lia.
Qed.

(** With a clock that never repeats, the loop appends to its view one row
    for every record it counts as processed, and changes no row of the
    table; the transaction is aborted at the end only if the server has
    rejected a statement. *)
Lemma normalize_loop_appends (ev : env) (src : source_kind) (items : list pydict) :
  clock_never_repeats ev →
  ∀ (idx : nat) (tbl : list normalized_row) (aborted : bool) (st : state),
  timestamps_are_past ev (tick st) tbl →
  wp (normalize_loop ev src items idx tbl aborted) st (fun r st' =>
    ∃ new aborted', r = Ok ((tbl ++ new)%list, aborted')
           ∧ (List.length new + records_processed (locals st)
              = records_processed (locals st'))%nat
           ∧ Forall (fun row => col_source row = DbStr (source_name src)
                                ∧ col_master_coin_id row = DbNull) new
           ∧ (no_upsert_rejected ev → aborted = false → aborted' = false)).
Proof.
  intros Hclock. induction items as [|item rest IH]; intros idx tbl aborted st Hpast; simpl.
  - wp_steps. exists [], aborted. rewrite app_nil_r. repeat split; auto.
  - wp_step. wp_step. wp_step. unfold normalize. wp_step. wp_step. cbn beta iota.
    assert (Hpast' : timestamps_are_past ev (S (tick st)) tbl)
      by (eapply timestamps_are_past_later; [| exact Hpast]; lia).
    destruct (normalizer src item (time_at ev (tick st))) as [n|e] eqn:Hn.
    + destruct (normalizer_stamps _ _ _ _ Hn) as [Hsrc Hts].
      destruct (upsert_params_model_dump n) as (row & Hrow & Hrsrc & Hrts & Hrmc).
      wp_step. wp_step. wp_step. rewrite Hrow. cbn beta iota. cbv zeta.
      destruct (execute aborted (fault_upsert ev idx)) as [[[]|e] a] eqn:Hex;
        cbn [fst snd]; unfold record_failed; wp_steps.
      * apply execute_ok in Hex as (-> & _ & ->).
        rewrite upsert_normalized_fresh.
        2:{ intros r Hin. rewrite Hrts, Hts. apply (Hpast r (tick st) Hin). lia. }
        eapply wp_mono.
        { apply IH. simpl. apply timestamps_are_past_snoc; auto. by rewrite Hrts, Hts. }
        simpl. intros r st' (new & a' & -> & Hlen & Hall & Hab). exists (row :: new), a'.
        split; [by rewrite <- app_assoc |]. split; [simpl; lia |].
        split; [| exact Hab].
        constructor; [| exact Hall]. split; [by rewrite Hrsrc, Hsrc | exact Hrmc].
      * eapply wp_mono; [apply IH; exact Hpast' |]. simpl.
        intros r st' (new & a' & -> & Hlen & Hall & Hab). exists new, a'.
        repeat split; auto. intros Hno ->. apply Hab; [exact Hno |].
        eapply execute_not_rejected; [| exact Hex]. intros e'. apply Hno.
    + unfold record_failed. wp_steps. eapply wp_mono; [apply IH; exact Hpast' |]. simpl.
      intros r st' (new & a' & -> & Hlen & Hall & Hab). exists new, a'.
      repeat split; auto.
Qed.

(** The loop and its commit: the rows of the view reach the table all
    together, or not at all. *)
Lemma archive_and_upsert_appends (ev : env) (src : source_kind) (data : list pydict)
    (st : state) :
  clock_never_repeats ev →
  timestamps_are_past ev (tick st) (normalized_crypto_data (db st)) →
  wp (archive_and_upsert ev src data) st (fun r st' =>
    ∃ new, normalized_crypto_data (db st') = (normalized_crypto_data (db st) ++ new)%list
           ∧ Forall (fun row => col_source row = DbStr (source_name src)
                                ∧ col_master_coin_id row = DbNull) new
           ∧ (List.length new + records_processed (locals st)
              ≤ records_processed (locals st'))%nat
           ∧ (r = Ok tt →
              new = [] ∨ (List.length new + records_processed (locals st)
                          = records_processed (locals st'))%nat)
           ∧ (r = Ok tt → no_upsert_rejected ev →
              (List.length new + records_processed (locals st)
               = records_processed (locals st'))%nat)).
Proof.
  intros Hclock Hpast. unfold archive_and_upsert. wp_step.
  eapply wp_mono; [apply save_raw_spec |].
  intros r st1 (Hcore & Hloc & Htick).
  apply core_tables_inv in Hcore as (_ & Hside).
  apply side_tables_inv in Hside as (_ & Hn & _).
  assert (Hnone : ∃ new,
            normalized_crypto_data (db st1) = (normalized_crypto_data (db st) ++ new)%list
            ∧ Forall (fun row => col_source row = DbStr (source_name src)
                                 ∧ col_master_coin_id row = DbNull) new
            ∧ (List.length new + records_processed (locals st)
               ≤ records_processed (locals st1))%nat
            ∧ (List.length new + records_processed (locals st)
               = records_processed (locals st1))%nat).
  { exists []. rewrite Hn, Hloc, app_nil_r. repeat split; auto. }
  destruct r as [saved|e]; cbn beta iota.
  2:{ destruct Hnone as (new & ? & ? & ? & ?). exists new. repeat split; auto. }
  wp_step. wp_step. destruct (fault_norm_connect ev); cbn beta iota.
  { destruct Hnone as (new & ? & ? & ? & ?). exists new. repeat split; auto. }
  wp_step. wp_step. cbn beta iota. wp_step.
  eapply wp_mono.
  { apply wp_conj; [apply normalize_loop_appends; [exact Hclock |] | apply normalize_loop_spec].
    rewrite Hn. eapply timestamps_are_past_later; [| exact Hpast].
    destruct data; lia. }
  cbn beta. intros r st2 ((new & a' & -> & Hlen & Hall & Hab) & Hdb & _). cbn beta iota.
  wp_step. destruct (fault_norm_commit ev); cbn beta iota.
  - exists []. rewrite Hdb, Hn, app_nil_r. split; [reflexivity |].
    split; [constructor |]. rewrite <- Hloc.
    split; [simpl; lia |]. split; intros [=].
  - destruct a'.
    + exists []. rewrite Hdb, Hn, app_nil_r. split; [reflexivity |].
      split; [constructor |]. rewrite <- Hloc. split; [simpl; lia |].
      split; [by left |]. intros _ Hno. by specialize (Hab Hno eq_refl).
    + cbn [db locals with_normalized normalized_crypto_data].
      exists new. rewrite Hn, <- Hloc. repeat split; auto. lia.
Qed.

Lemma try_block_appends (ev : env) (src : source_kind) (st : state) :
  clock_never_repeats ev →
  timestamps_are_past ev (tick st) (normalized_crypto_data (db st)) →
  locals st = initial_frame →
  wp (try_block ev src) st (fun r st' =>
    ∃ new, normalized_crypto_data (db st') = (normalized_crypto_data (db st) ++ new)%list
           ∧ Forall (fun row => col_source row = DbStr (source_name src)
                                ∧ col_master_coin_id row = DbNull) new
           ∧ (List.length new ≤ records_processed (locals st'))%nat
           ∧ (r = Ok tt → new = [] ∨ List.length new = records_processed (locals st'))
           ∧ (r = Ok tt → no_upsert_rejected ev →
              List.length new = records_processed (locals st'))).
Proof.
  intros Hclock Hpast Hloc. unfold try_block. wp_step.
  eapply wp_mono; [apply fetch_spec |].
  intros r st0 (Hdb0 & Htick0 & Hloc0).
  destruct r as [data|e]; cbn beta iota.
  2:{ exists []. rewrite Hdb0, app_nil_r.
      repeat split; auto; first [simpl; lia | intros [=]]. }
  wp_step. wp_step. cbn beta iota.
  destruct data as [|item rest].
  { wp_steps. cbn [db locals]. exists []. rewrite Hdb0, Hloc0, Hloc, app_nil_r.
    repeat split; auto. }
  wp_step. eapply wp_mono.
  { apply archive_and_upsert_appends; [exact Hclock |]. cbn [db tick].
    by rewrite Hdb0, Htick0. }
  cbn [db locals]. intros r st1 (new & Hn1 & Hall & Hle & Hany & Heq).
  rewrite Hdb0 in Hn1. rewrite Hloc0, Hloc in Hle, Hany, Heq. simpl in Hle, Hany, Heq.
  destruct r as [[]|e]; cbn beta iota.
  2:{ exists new. repeat split; auto; first [lia | intros [=]]. }
  specialize (Hany eq_refl). specialize (Heq eq_refl).
  wp_step. eapply wp_mono; [apply next_checkpoint_spec |].
  intros r st2 (Hdb2 & Hloc2 & _).
  destruct r as [[v md]|e]; cbn beta iota.
  2:{ exists new. rewrite Hdb2, Hloc2.
      repeat split; auto; first [lia | intros [=]]. }
  eapply wp_mono; [apply update_checkpoint_spec |].
  intros r st3 (Hloc3 & Hside3 & _).
  apply side_tables_inv in Hside3 as (_ & Hn3 & _).
  exists new. rewrite Hn3, Hloc3, Hdb2, Hloc2. repeat split; auto; try lia.
  - intros _. destruct Hany as [->|Hlen]; [by left | right; lia].
  - intros _ Hno. specialize (Heq Hno). lia.
Qed.

(** When the clock never reads the same time twice and the table holds no
    time yet to come, the normalized table only grows: a run changes or
    deletes no row it finds, and appends rows of its own source, without a
    master coin, never more than it counts as processed. The rows of a
    run that succeeds reach the table all together or not at all: one row
    for every record counted as processed when the server rejects no
    upsert, and otherwise possibly none, since a rejected statement aborts
    the transaction of the loop and its commit then rolls back without an
    exception. The upsert never meets its own key, since every record is
    stamped with a new reading of the clock. *)
Theorem run_appends_processed_rows (ev : env) (src : source_kind) (st : state) :
  let out := run_etl_for_source ev src st in
  clock_never_repeats ev →
  timestamps_are_past ev (tick st) (normalized_crypto_data (db st)) →
  ∃ new,
    normalized_crypto_data (db out.2) = (normalized_crypto_data (db st) ++ new)%list
    ∧ Forall (fun row => col_source row = DbStr (source_name src)
                         ∧ col_master_coin_id row = DbNull) new
    ∧ (List.length new ≤ records_processed (locals out.2))%nat
    ∧ (status (locals out.2) = "success" →
       new = [] ∨ List.length new = records_processed (locals out.2))
    ∧ (status (locals out.2) = "success" → no_upsert_rejected ev →
       List.length new = records_processed (locals out.2)).
Proof.
  cbv zeta. intros Hclock Hpast.
  rewrite run_etl_for_source_cases. cbv zeta.
  pose proof (run_prelude_spec ev src st) as Hpre. unfold wp in Hpre.
  destruct Hpre as (_ & Htick1 & Hloc1 & _ & Hn1 & _).
  set (st1 := (run_prelude ev src st).2) in *.
  assert (Hpast1 : timestamps_are_past ev (tick st1) (normalized_crypto_data (db st1))).
  { rewrite Hn1, Htick1. eapply timestamps_are_past_later; [| exact Hpast]. lia. }
  pose proof (try_block_appends ev src st1 Hclock Hpast1 Hloc1) as Htry.
  unfold wp in Htry.
  destruct (try_block ev src st1) as [r st2]. cbn [fst snd] in Htry.
  destruct Htry as (new & Hn2 & Hall & Hle & Hany & Heq). rewrite Hn1 in Hn2.
  exists new.
  destruct r as [[]|e].
  - pose proof (run_epilogue_spec ev (time_at ev (tick st)) st2) as Hepi. unfold wp in Hepi.
    destruct Hepi as (_ & Hloc3 & _ & Hn3 & _).
    rewrite Hloc3, Hn3. repeat split; auto.
  - pose proof (except_block_spec ev src e st2) as Hex. unfold wp in Hex.
    destruct (except_block ev src e st2) as [r3 st3]. cbn [fst snd] in Hex.
    destruct Hex as (Hloc3 & Hside3 & _).
    apply side_tables_inv in Hside3 as (_ & Hn3 & _).
    assert (Hfailed : normalized_crypto_data (db st3)
                      = (normalized_crypto_data (db st) ++ new)%list
                      ∧ Forall (fun row => col_source row = DbStr (source_name src)
                                           ∧ col_master_coin_id row = DbNull) new
                      ∧ (List.length new ≤ records_processed (locals st3))%nat
                      ∧ (status (locals st3) = "success" →
                         new = [] ∨ List.length new = records_processed (locals st3))
                      ∧ (status (locals st3) = "success" → no_upsert_rejected ev →
                         List.length new = records_processed (locals st3))).
    { rewrite Hn3, Hloc3. repeat split; auto; simpl; intros [=]. }
    destruct r3 as [[]|e3]; [| exact Hfailed].
    pose proof (run_epilogue_spec ev (time_at ev (tick st)) st3) as Hepi. unfold wp in Hepi.
    destruct Hepi as (_ & Hloc4 & _ & Hn4 & _).
    rewrite Hloc4, Hn4. exact Hfailed.
Qed.


(** [get_last_row_number] never returns a row count other than 0: it
    returns 0 when the read fails or the source has no row, and raises
    [KeyError('type')] when the source has a row, whatever its value. *)
Theorem get_last_row_number_outcomes (ev : env) (s : site) (src : string) (st : state) :
  match (get_last_row_number ev s src st).1 with
  | Ok n =>
      n = 0
      ∧ (is_Some (fault_get_checkpoint ev s) ∨ etl_checkpoints (db st) !! src = None)
  | Raise e =>
      e = KeyError "type" ∧ fault_get_checkpoint ev s = None
      ∧ is_Some (etl_checkpoints (db st) !! src)
  end.
Proof.
  destruct (fault_get_checkpoint ev s) as [e|] eqn:Hf.
  - unfold get_last_row_number, get_checkpoint. rewrite Hf, !bind_run. cbn [fst].
    split; [reflexivity |]. left. eauto.
  - destruct (etl_checkpoints (db st) !! src) as [r|] eqn:Hr.
    + rewrite (get_last_row_number_of_row _ _ _ _ _ Hf Hr). cbn [fst].
      split; [reflexivity |]. split; [reflexivity | eauto].
    + rewrite (get_last_row_number_no_row _ _ _ _ Hf Hr). cbn [fst].
      split; [reflexivity |]. by right.
Qed.

Lemma complete_run_other_id (ev : env) (t : datetime) (d : Z) (fr : frame)
    (runs : list run_row) :
  Forall (fun r => run_run_id r ≠ run_id ev) runs →
  complete_run ev t d fr <$> runs = runs.
Proof.
  induction 1 as [|r runs Hr _ IH]; [reflexivity |].
  rewrite fmap_cons, IH. f_equal. unfold complete_run.
  by destruct (String.eqb_spec (run_run_id r) (run_id ev)).
Qed.

(** A run whose start row could not be inserted leaves no trace in
    [etl_runs]: the update at the end matches no row, and the table is as
    it was, whatever the run did in between. *)
Theorem failed_start_insert_leaves_no_run_row (ev : env) (src : source_kind) (st : state)
    (e : exn) :
  let out := run_etl_for_source ev src st in
  fault_run_start ev = Some e →
  Forall (fun r => run_run_id r ≠ run_id ev) (etl_runs (db st)) →
  etl_runs (db out.2) = etl_runs (db st).
Proof.
  cbv zeta. intros Hstart Hids.
  pose proof (run_etl_for_source_spec ev src st) as Hspec. cbv zeta in Hspec.
  destruct Hspec as (_ & _ & _ & _ & _ & Hruns & _).
  rewrite Hstart in Hruns.
  destruct (run_etl_for_source ev src st).1; [| exact Hruns].
  destruct Hruns as (completed & ->).
  destruct (fault_run_complete ev); [reflexivity |].
  by apply complete_run_other_id.
Qed.

(** In the pipeline the nested-quote fallback of [normalize_coinpaprika]
    is never taken: an item that [fetch] has transformed has no [quotes]
    key, so the three amounts of its record are those of its top-level
    keys, and its identifier is its [coin_id] unless that is a false
    value. *)
Theorem fetched_item_takes_no_fallback (item : pyval) (t : pydict) (ts : datetime)
    (n : NormalizedCryptoData) :
  transform_coinpaprika item = Ok t →
  normalize_coinpaprika t ts = Ok n →
  quotes_fallback t = false
  ∧ decimal_if_truthy (dict_get t "price_usd") = Ok (price_usd n)
  ∧ decimal_if_truthy (dict_get t "market_cap_usd") = Ok (market_cap_usd n)
  ∧ decimal_if_truthy (dict_get t "volume_24h_usd") = Ok (volume_24h_usd n)
  ∧ (truthy (dict_get t "coin_id") = true → dict_get t "coin_id" = VStr (source_id n)).
Proof.
  intros Ht Hn. apply transform_coinpaprika_keys in Ht as (d & _ & _ & _ & Hq).
  assert (Hk : has_key t "quotes" = false).
  { unfold has_key. rewrite Hq. apply bool_decide_eq_false. by intros [? ?]. }
  split; [unfold quotes_fallback; rewrite Hk; apply andb_false_r |].
  unfold normalize_coinpaprika in Hn. rewrite Hk, !andb_false_r in Hn.
  simpl in Hn. res_inv Hn.
  apply NormalizedCryptoData_init_ok in Hn.
  destruct Hn as (_ & Hsid & _ & _ & Hp & Hc & Hv & _).
  rewrite Hp, Hc, Hv. repeat split; auto.
  intros Htrue. unfold coin_id_or_id in Hsid. by rewrite Htrue in Hsid.
Qed.


(* ===================================================================== *)
(** * The further properties on the scenarios *)
(* ===================================================================== *)

Lemma returns_with_inv {A} (P : A -> bool) (r : res A) :
  returns_with P r = true → ∃ a, r = Ok a ∧ P a = true.
Proof. destruct r as [a|e]; simpl; [eauto | discriminate]. Qed.

Lemma text_schema_single_typed : single_typed text_schema.
Proof.
  intros f e Hin. unfold text_schema in Hin.
  repeat (apply elem_of_cons in Hin as [[= -> ->]|Hin]; [eauto |]).
  by apply elem_of_nil in Hin.
Qed.

Lemma detect_drift_single_typed_witness :
  text_schema ≠ [] ∧ single_typed text_schema
  ∧ ∃ has_drift confidence warnings,
      detect_drift (Some text_schema) sol_csv = Ok (has_drift, confidence, warnings)
      ∧ (has_drift = false
         ↔ dom sol_csv = list_to_set (fst <$> text_schema) ∧ conforms text_schema sol_csv)
      ∧ (has_drift = false → confidence = 1%Qc ∧ warnings = []).
Proof.
  assert (H1 : text_schema ≠ []) by discriminate.
  exact (conj H1 (conj text_schema_single_typed
           (detect_drift_single_typed text_schema sol_csv H1 text_schema_single_typed))).
Defined.

Lemma detect_drift_tuple_field_raises_witness :
  ("price_usd", Tuple [TFloat; TNoneType]) ∈ COINPAPRIKA_SCHEMA
  ∧ sample_coinpaprika_data !! "price_usd" = Some (VFloat (FFin false 432505 (-1)))
  ∧ VFloat (FFin false 432505 (-1)) ≠ VNone
  ∧ detect_drift (Some COINPAPRIKA_SCHEMA) sample_coinpaprika_data
    = Raise (AttributeError "'tuple' object has no attribute '__name__'").
Proof.
  assert (H1 : ("price_usd", Tuple [TFloat; TNoneType]) ∈ COINPAPRIKA_SCHEMA)
    by (unfold COINPAPRIKA_SCHEMA;
        repeat first [apply list_elem_of_here | apply list_elem_of_further]).
  assert (H2 : sample_coinpaprika_data !! "price_usd" = Some (VFloat (FFin false 432505 (-1))))
    by reflexivity.
  assert (H3 : VFloat (FFin false 432505 (-1)) ≠ VNone) by discriminate.
  exact (conj H1 (conj H2 (conj H3
           (detect_drift_tuple_field_raises _ _ _ _ _ H1 H2 H3)))).
Defined.

Lemma normalizer_output_witness :
  ∃ n, normalizer CSV btc_csv (clock 0) = Ok n
       ∧ source n = source_name CSV
       ∧ data_timestamp n = clock 0
       ∧ symbol n = str_upper (symbol n)
       ∧ (∀ f d, numeric_of f n = Some d → is_finite d = true)
       ∧ (CSV = CSV →
          source_id n = "csv_" +:+ symbol n ∧ rank n = None ∧ additional_data n = ∅
          ∧ circulating_supply n = None ∧ total_supply n = None ∧ max_supply n = None).
Proof.
  assert (Hok : returns_with (fun _ => true) (normalizer CSV btc_csv (clock 0)) = true)
    by (vm_compute; reflexivity).
  destruct (returns_with_inv _ _ Hok) as (n & Hn & _). exists n. split; [exact Hn |].
  exact (normalizer_output CSV btc_csv (clock 0) n Hn).
Defined.

Lemma non_finite_number_raises_witness :
  raw_key CSV FPriceUsd = Some "price_usd"
  ∧ (∃ v, empty_price_csv !! "price_usd" = Some v ∧ not_a_finite_number v = true)
  ∧ ∃ e, normalizer CSV empty_price_csv (clock 0) = Raise e.
Proof.
  assert (H1 : raw_key CSV FPriceUsd = Some "price_usd") by reflexivity.
  assert (H2 : ∃ v, empty_price_csv !! "price_usd" = Some v ∧ not_a_finite_number v = true)
    by (exists (VFloat FNaN); split; reflexivity).
  assert (H3 : CSV = CoinPaprika → FPriceUsd = FMarketCapUsd →
               quotes_fallback empty_price_csv = false) by discriminate.
  exact (conj H1 (conj H2
           (non_finite_number_raises CSV FPriceUsd "price_usd" empty_price_csv (clock 0)
              H1 H2 H3))).
Defined.

Lemma valid_csv_record_normalizes_witness :
  validate CSV btc_csv = true
  ∧ ∃ n s nm, normalize_csv btc_csv (clock 0) = Ok n
              ∧ btc_csv !! "symbol" = Some (VStr s) ∧ symbol n = str_upper s
              ∧ btc_csv !! "name" = Some (VStr nm) ∧ name n = nm.
Proof.
  assert (H1 : validate CSV btc_csv = true) by (vm_compute; reflexivity).
  exact (conj H1 (valid_csv_record_normalizes btc_csv (clock 0) H1)).
Defined.

Lemma item_without_id_witness :
  ∃ t,
    ((CoinGecko = CoinPaprika ∧ transform_coinpaprika (VDict anonymous_coin) = Ok t)
     ∨ (CoinGecko = CoinGecko ∧ transform_coingecko (VDict anonymous_coin) = Ok t))
    ∧ anonymous_coin !! "id" = None
    ∧ t !! "coin_id" = Some VNone
    ∧ validate CoinGecko t = false
    ∧ ∀ n, normalizer CoinGecko t (clock 0) = Ok n → source_id n = "".
Proof.
  assert (Hok : returns_with (fun _ => true) (transform_coingecko (VDict anonymous_coin))
                = true) by (vm_compute; reflexivity).
  destruct (returns_with_inv _ _ Hok) as (t & Ht & _). exists t.
  assert (H1 : (CoinGecko = CoinPaprika ∧ transform_coinpaprika (VDict anonymous_coin) = Ok t)
               ∨ (CoinGecko = CoinGecko ∧ transform_coingecko (VDict anonymous_coin) = Ok t))
    by (right; split; [reflexivity | exact Ht]).
  assert (H2 : anonymous_coin !! "id" = None) by reflexivity.
  exact (conj H1 (conj H2 (item_without_id CoinGecko anonymous_coin t (clock 0) H1 H2))).
Defined.

Lemma update_then_get_checkpoint_witness :
  let st := start_state seeded_database in
  let marked := update_checkpoint quiet_env "coinpaprika" "2026-11-04T01:02:03" true None
                  None st in
  fault_checkpoint_success quiet_env = NoFault
  ∧ fault_get_checkpoint quiet_env InFetch = None
  ∧ etl_checkpoints (db st) !! "coinpaprika" = Some (checkpoint_with None)
  ∧ marked.1 = Ok tt
  ∧ ∃ d, (get_checkpoint quiet_env InFetch "coinpaprika" marked.2).1 = Ok (Some d)
         ∧ d !! "checkpoint_value" = Some (DbStr "2026-11-04T01:02:03")
         ∧ d !! "last_success_at" = Some (DbTime (time_at quiet_env (tick st)))
         ∧ d !! "metadata" = Some (DbJson (default ∅ None))
         ∧ d !! "last_failure_at"
           = Some (db_opt DbTime (last_failure_at (checkpoint_with None)))
         ∧ d !! "failure_reason"
           = Some (db_opt DbStr (failure_reason (checkpoint_with None))).
Proof.
  cbv zeta.
  assert (H1 : fault_checkpoint_success quiet_env = NoFault) by reflexivity.
  assert (H2 : fault_get_checkpoint quiet_env InFetch = None) by reflexivity.
  assert (H3 : etl_checkpoints (db (start_state seeded_database)) !! "coinpaprika"
               = Some (checkpoint_with None)) by reflexivity.
  exact (conj H1 (conj H2 (conj H3
           (update_then_get_checkpoint quiet_env "coinpaprika" "2026-11-04T01:02:03" None
              InFetch (start_state seeded_database) (checkpoint_with None) H1 H2 H3)))).
Defined.

Lemma quiet_archive_driver_works : archive_driver_works quiet_env.
Proof. repeat split. Qed.

Lemma save_raw_counts_valid_records_witness :
  archive_driver_works quiet_env
  ∧ (save_raw quiet_env CoinPaprika [sample_coinpaprika_data; anonymous_coin]
       (start_state empty_database)).1
    = Ok (List.length (valid_records CoinPaprika [sample_coinpaprika_data; anonymous_coin])).
Proof.
  assert (H2 : CoinPaprika = CSV →
               ∃ last_row, (get_last_row_number quiet_env InSaveRaw "csv"
                              (start_state empty_database)).1 = Ok last_row)
    by discriminate.
  exact (conj quiet_archive_driver_works
           (save_raw_counts_valid_records quiet_env CoinPaprika
              [sample_coinpaprika_data; anonymous_coin] (start_state empty_database)
              quiet_archive_driver_works H2)).
Defined.

Lemma run_succeeds_despite_bad_records_witness :
  let out := run_etl_for_source null_symbol_env CoinPaprika (start_state seeded_database) in
  ∃ data,
    (fetch null_symbol_env CoinPaprika (start_state seeded_database)).1 = Ok data
    ∧ List.length data = 1%nat
    ∧ records_failed (locals out.2) = 1%nat
    ∧ out.1 = Ok tt
    ∧ status (locals out.2) = "success"
    ∧ records_fetched (locals out.2) = List.length data
    ∧ (records_processed (locals out.2) + records_failed (locals out.2)
       = List.length data)%nat.
Proof.
  cbv zeta.
  assert (Hok : returns_with (fun data => bool_decide (List.length data = 1%nat))
                  (fetch null_symbol_env CoinPaprika (start_state seeded_database)).1 = true)
    by (vm_compute; reflexivity).
  destruct (returns_with_inv _ _ Hok) as (data & Hfetch & Hlen).
  apply bool_decide_eq_true in Hlen.
  exists data. split; [exact Hfetch |]. split; [exact Hlen |].
  split; [vm_compute; reflexivity |].
  assert (Hsrc : CoinPaprika ≠ CSV) by discriminate.
  exact (run_succeeds_despite_bad_records null_symbol_env CoinPaprika
           (start_state seeded_database) data Hsrc Hfetch eq_refl eq_refl eq_refl eq_refl
           eq_refl).
Defined.

Lemma csv_cursor_never_moves_witness :
  let st := start_state seeded_database in
  let out := run_etl_for_source quiet_env CSV st in
  let C := etl_checkpoints (db st) in
  let C' := etl_checkpoints (db out.2) in
  fault_get_checkpoint quiet_env InOrchestrator = None
  ∧ (∀ s, checkpoint_value <$> (C' !! s) = checkpoint_value <$> (C !! s))
  ∧ (∀ s, last_success_at <$> (C' !! s) = last_success_at <$> (C !! s))
  ∧ (status (locals out.2) = "success" → C' = C).
Proof.
  cbv zeta.
  exact (conj eq_refl
           (csv_cursor_never_moves quiet_env (start_state seeded_database) eq_refl)).
Defined.


Lemma quiet_clock_never_repeats : clock_never_repeats quiet_env.
Proof. intros i j H. by injection H. Qed.

Lemma no_row_is_past (ev : env) (t : nat) : timestamps_are_past ev t [].
Proof. intros r i Hin. by apply elem_of_nil in Hin. Qed.

Lemma quiet_no_upsert_rejected : no_upsert_rejected quiet_env.
Proof. intros idx e. discriminate. Qed.

Lemma run_appends_processed_rows_witness :
  let st := start_state seeded_database in
  let out := run_etl_for_source quiet_env CoinPaprika st in
  clock_never_repeats quiet_env
  ∧ timestamps_are_past quiet_env (tick st) (normalized_crypto_data (db st))
  ∧ status (locals out.2) = "success"
  ∧ no_upsert_rejected quiet_env
  ∧ records_processed (locals out.2) = 1%nat
  ∧ ∃ new,
      normalized_crypto_data (db out.2) = (normalized_crypto_data (db st) ++ new)%list
      ∧ Forall (fun row => col_source row = DbStr (source_name CoinPaprika)
                           ∧ col_master_coin_id row = DbNull) new
      ∧ (List.length new ≤ records_processed (locals out.2))%nat
      ∧ (status (locals out.2) = "success" →
         new = [] ∨ List.length new = records_processed (locals out.2))
      ∧ (status (locals out.2) = "success" → no_upsert_rejected quiet_env →
         List.length new = records_processed (locals out.2)).
Proof.
  cbv zeta.
  split; [exact quiet_clock_never_repeats |].
  split; [exact (no_row_is_past quiet_env 0) |].
  split; [vm_compute; reflexivity |]. split; [exact quiet_no_upsert_rejected |].
  split; [vm_compute; reflexivity |].
  exact (run_appends_processed_rows quiet_env CoinPaprika (start_state seeded_database)
           quiet_clock_never_repeats (no_row_is_past quiet_env 0)).
Defined.

(** A rejected upsert rolls back the batch in silence: the first record is
    counted as processed, the second and nothing more as failed, the run
    succeeds and moves the checkpoint, and no row reaches the table. *)
Lemma rejected_upsert_rolls_back_the_batch :
  let out := run_etl_for_source rejected_upsert_env CoinPaprika
               (start_state seeded_database) in
  out.1 = Ok tt
  ∧ status (locals out.2) = "success"
  ∧ (records_fetched (locals out.2), records_processed (locals out.2),
     records_failed (locals out.2)) = (2, 1, 1)%nat
  ∧ normalized_crypto_data (db out.2) = []
  ∧ checkpoint_value <$> (etl_checkpoints (db out.2) !! "coinpaprika")
    = Some (Some "2026-11-04T01:02:04").
Proof. cbv zeta. repeat split; vm_compute; reflexivity. Qed.

Lemma empty_resolver_consistent : cache_consistent empty_resolver.
Proof. intros k v H. simpl in H. rewrite lookup_empty in H. discriminate H. Qed.

Lemma bitcoin_resolver_consistent : cache_consistent bitcoin_resolver.
Proof.
  apply (resolve_entity_maps same_text 7 "coinpaprika" "btc-bitcoin" "BTC" "Bitcoin"
           empty_resolver empty_resolver_consistent).
Qed.

Lemma resolve_entity_frame_witness :
  let out := resolve_entity same_text 8 "coingecko" "bitcoin" "btc" "Bitcoin"
               bitcoin_resolver in
  cache_consistent bitcoin_resolver
  ∧ out.1 = 7
  ∧ (∀ k v, coin_source_mappings (store bitcoin_resolver) !! k = Some v →
            coin_source_mappings (store out.2) !! k = Some v)
  ∧ (∀ k, k ≠ ("coingecko", "bitcoin") →
          coin_source_mappings (store out.2) !! k
          = coin_source_mappings (store bitcoin_resolver) !! k)
  ∧ (∀ sym row, master_coins (store bitcoin_resolver) !! sym = Some row →
                ∃ row', master_coins (store out.2) !! sym = Some row'
                        ∧ mc_id row' = mc_id row)
  ∧ (∀ sym, sym ≠ str_upper "btc" →
            master_coins (store out.2) !! sym = master_coins (store bitcoin_resolver) !! sym)
  ∧ etl_tables (store out.2) = etl_tables (store bitcoin_resolver).
Proof.
  cbv zeta. split; [exact bitcoin_resolver_consistent |].
  split; [vm_compute; reflexivity |].
  exact (resolve_entity_frame same_text 8 "coingecko" "bitcoin" "btc" "Bitcoin"
           bitcoin_resolver bitcoin_resolver_consistent).
Defined.

Lemma bitcoin_row :
  master_coins (store bitcoin_resolver) !! str_upper "btc"
  = Some {| mc_id := 7; mc_name := "Bitcoin"; mc_canonical_id := "bitcoin" |}.
Proof. vm_compute. reflexivity. Qed.

Lemma coingecko_bitcoin_unmapped : unmapped bitcoin_resolver ("coingecko", "bitcoin").
Proof. split; vm_compute; reflexivity. Qed.

Lemma existing_symbol_decides_master_coin_witness :
  let out := resolve_entity same_text 8 "coingecko" "bitcoin" "btc" "Bitcoin Cash"
               bitcoin_resolver in
  same_text (str_lower "Bitcoin Cash") (str_lower "Bitcoin") = 0%Qc
  ∧ unmapped bitcoin_resolver ("coingecko", "bitcoin")
  ∧ master_coins (store bitcoin_resolver) !! str_upper "btc"
    = Some {| mc_id := 7; mc_name := "Bitcoin"; mc_canonical_id := "bitcoin" |}
  ∧ out.1 = mc_id {| mc_id := 7; mc_name := "Bitcoin"; mc_canonical_id := "bitcoin" |}
  ∧ coin_source_mappings (store out.2) !! ("coingecko", "bitcoin")
    = Some (mc_id {| mc_id := 7; mc_name := "Bitcoin"; mc_canonical_id := "bitcoin" |}).
Proof.
  cbv zeta. split; [reflexivity |].
  exact (conj coingecko_bitcoin_unmapped (conj bitcoin_row
           (existing_symbol_decides_master_coin same_text 8 "coingecko" "bitcoin" "btc"
              "Bitcoin Cash" bitcoin_resolver _ coingecko_bitcoin_unmapped bitcoin_row))).
Defined.

Lemma nothing_mapped (key : string * string) : unmapped empty_resolver key.
Proof. split; simpl; apply lookup_empty. Qed.

Lemma same_symbol_same_master_coin_witness :
  let first := resolve_entity same_text 7 "coinpaprika" "btc-bitcoin" "BTC" "Bitcoin"
                 empty_resolver in
  let second := resolve_entity same_text 8 "csv" "csv_BTC" "btc" "Bitcoin Cash" first.2 in
  unmapped empty_resolver ("coinpaprika", "btc-bitcoin")
  ∧ unmapped empty_resolver ("csv", "csv_BTC")
  ∧ ("coinpaprika", "btc-bitcoin") ≠ ("csv", "csv_BTC")
  ∧ str_upper "btc" = str_upper "BTC"
  ∧ second.1 = first.1
  ∧ coin_source_mappings (store second.2) !! ("coinpaprika", "btc-bitcoin") = Some first.1
  ∧ coin_source_mappings (store second.2) !! ("csv", "csv_BTC") = Some first.1.
Proof.
  cbv zeta.
  assert (H3 : ("coinpaprika", "btc-bitcoin") ≠ ("csv", "csv_BTC")) by discriminate.
  assert (H4 : str_upper "btc" = str_upper "BTC") by reflexivity.
  exact (conj (nothing_mapped _) (conj (nothing_mapped _) (conj H3 (conj H4
           (same_symbol_same_master_coin same_text same_text 7 8
              "coinpaprika" "btc-bitcoin" "BTC" "Bitcoin" "csv" "csv_BTC" "btc" "Bitcoin Cash"
              empty_resolver (nothing_mapped _) (nothing_mapped _) H3 H4))))).
Defined.

Lemma cache_is_transparent_witness :
  let cached := resolve_entity same_text 8 "coinpaprika" "btc-bitcoin" "BTC" "Bitcoin"
                  bitcoin_resolver in
  let cleared := resolve_entity same_text 8 "coinpaprika" "btc-bitcoin" "BTC" "Bitcoin"
                   (clear_cache bitcoin_resolver) in
  cache_consistent bitcoin_resolver
  ∧ cached.1 = cleared.1 ∧ store cached.2 = store cleared.2.
Proof.
  cbv zeta.
  exact (conj bitcoin_resolver_consistent
           (cache_is_transparent same_text 8 "coinpaprika" "btc-bitcoin" "BTC" "Bitcoin"
              bitcoin_resolver bitcoin_resolver_consistent)).
Defined.

Lemma resolve_entity_stable_witness :
  let first := resolve_entity same_text 7 "coinpaprika" "btc-bitcoin" "BTC" "Bitcoin"
                 empty_resolver in
  cache_consistent empty_resolver
  ∧ resolve_entity same_text 8 "coinpaprika" "btc-bitcoin" "XBT" "Bitcoin Core" first.2
    = (first.1, first.2).
Proof.
  cbv zeta.
  exact (conj empty_resolver_consistent
           (resolve_entity_stable same_text same_text 7 8 "coinpaprika" "btc-bitcoin"
              "BTC" "Bitcoin" "XBT" "Bitcoin Core" empty_resolver empty_resolver_consistent)).
Defined.

Lemma failed_start_insert_leaves_no_run_row_witness :
  let st := start_state seeded_database in
  let out := run_etl_for_source lost_start_env CoinPaprika st in
  fault_run_start lost_start_env = Some connection_lost
  ∧ Forall (fun r => run_run_id r ≠ run_id lost_start_env) (etl_runs (db st))
  ∧ status (locals out.2) = "success"
  ∧ etl_runs (db out.2) = etl_runs (db st).
Proof.
  cbv zeta.
  assert (H2 : Forall (fun r => run_run_id r ≠ run_id lost_start_env)
                 (etl_runs (db (start_state seeded_database)))) by constructor.
  split; [reflexivity |]. split; [exact H2 |]. split; [vm_compute; reflexivity |].
  exact (failed_start_insert_leaves_no_run_row lost_start_env CoinPaprika
           (start_state seeded_database) connection_lost eq_refl H2).
Defined.

Lemma fetched_item_takes_no_fallback_witness :
  ∃ t n,
    transform_coinpaprika btc_ticker = Ok t
    ∧ normalize_coinpaprika t (clock 0) = Ok n
    ∧ quotes_fallback t = false
    ∧ decimal_if_truthy (dict_get t "price_usd") = Ok (price_usd n)
    ∧ decimal_if_truthy (dict_get t "market_cap_usd") = Ok (market_cap_usd n)
    ∧ decimal_if_truthy (dict_get t "volume_24h_usd") = Ok (volume_24h_usd n)
    ∧ (truthy (dict_get t "coin_id") = true → dict_get t "coin_id" = VStr (source_id n)).
Proof.
  assert (Hok : returns_with
                  (fun t => returns_with (fun _ => true) (normalize_coinpaprika t (clock 0)))
                  (transform_coinpaprika btc_ticker) = true) by (vm_compute; reflexivity).
  destruct (returns_with_inv _ _ Hok) as (t & Ht & Hok').
  destruct (returns_with_inv _ _ Hok') as (n & Hn & _).
  exists t, n. split; [exact Ht |]. split; [exact Hn |].
  exact (fetched_item_takes_no_fallback btc_ticker t (clock 0) n Ht Hn).
Defined.
